(** * asyncqueue: task serialization, the Redis-stream broker and the worker

A shallow embedding of the core of the [asyncqueue] / [aiotaskqueue]
packages:

- [asyncqueue/serialization/_serialization.py]: [serialize],
  [TaskRecord], [serialize_task], [deserialize_task];
- [asyncqueue/broker/redis.py]: [RedisBroker] over a small model of one
  Redis stream with one consumer group;
- [asyncqueue/worker.py] and [aiotaskqueue/worker.py]: the two
  [AsyncWorker] implementations.

Python exceptions are values of [exn]; a call that may raise returns a
[result]; code that mutates objects threads a state and keeps the
mutations made before an exception was raised. *)

From Stdlib Require Import ZArith List Lia Strings.String Strings.Byte.
From Stdlib Require Floats.SpecFloat.
From stdpp Require Import base option list strings gmap sorting.

Local Open Scope Z_scope.

(** ** Exceptions and results *)

Inductive exn : Type :=
  | KeyError (key : string)            (* a failed [mapping[key]] *)
  | ClosedResourceError                (* anyio: send on a closed stream *)
  | UnboundLocalError                  (* a local read before any assignment *)
  | ValueError
  | DataError                          (* redis-py: an argument it refuses *)
  | CancelledError                     (* asyncio: cancelled while waiting *)
  | Exception (message : string).      (* raised by a backend, a task or
                                          the server *)

Inductive result (A : Type) : Type :=
  | Ok (a : A)
  | Raise (e : exn).
Arguments Ok {A} a.
Arguments Raise {A} e.

#[global] Instance result_ret : MRet result := fun A a => Ok a.
#[global] Instance result_bind : MBind result := fun A B f m =>
  match m with
  | Ok a => f a
  | Raise e => Raise e
  end.
#[global] Instance result_fmap : FMap result := fun A B f m =>
  match m with
  | Ok a => Ok (f a)
  | Raise e => Raise e
  end.

Definition is_Ok {A} (r : result A) : bool :=
  match r with Ok _ => true | Raise _ => false end.

(** ** Coroutines over a mutable state

An [async def] that reads and writes the objects in [S] and may raise.
The state an exception leaves behind is kept: Python does not roll
back assignments. *)

Definition coroutine (S A : Type) : Type := S → S * result A.

#[global] Instance coroutine_ret {S} : MRet (coroutine S) :=
  fun A a s => (s, Ok a).
#[global] Instance coroutine_bind {S} : MBind (coroutine S) :=
  fun A B f m s =>
    match m s with
    | (s', Ok a) => f a s'
    | (s', Raise e) => (s', Raise e)
    end.

Definition raise {S A} (e : exn) : coroutine S A := fun s => (s, Raise e).
Definition get {S} : coroutine S S := fun s => (s, Ok s).
Definition modify {S} (f : S → S) : coroutine S unit := fun s => (f s, Ok tt).
Definition lift_result {S A} (r : result A) : coroutine S A := fun s => (s, r).

(** [try: m], handing the outcome to the caller. *)
Definition try_ {S A} (m : coroutine S A) : coroutine S (result A) :=
  fun s => let '(s', r) := m s in (s', Ok r).

(** [for x in xs: body(x)] *)
Fixpoint for_each {S A} (xs : list A) (body : A → coroutine S unit)
    : coroutine S unit :=
  match xs with
  | [] => mret tt
  | x :: xs' => body x;; for_each xs' body
  end.

(** Running a coroutine written against a component [C] of a larger state
    [S] (a method of [self._broker] called from the worker). *)
Definition zoom {S C A} (proj : S → C) (inj : C → S → S)
    (m : coroutine C A) : coroutine S A :=
  fun s => let '(c, r) := m (proj s) in (inj c s, r).

(** ** Asynchronous context managers

[async with cm: body] awaits [cm.__aenter__()], runs the body and
awaits [cm.__aexit__] with the exception the body raised, if any; a
true result of [__aexit__] suppresses that exception, and the statement
then finishes without the body's value ([None] here). *)

Record AsyncContextManager (S : Type) : Type := mkContextManager {
  aenter : coroutine S unit;
  aexit : option exn → coroutine S bool;
}.
Arguments aenter {S} _.
Arguments aexit {S} _ _.

Definition async_with {S A} (cm : AsyncContextManager S)
    (body : coroutine S A) : coroutine S (option A) :=
  fun s =>
    match aenter cm s with
    | (s1, Raise e) => (s1, Raise e)
    | (s1, Ok _) =>
        match body s1 with
        | (s2, Ok a) =>
            match aexit cm None s2 with
            | (s3, Ok _) => (s3, Ok (Some a))
            | (s3, Raise e) => (s3, Raise e)
            end
        | (s2, Raise e) =>
            match aexit cm (Some e) s2 with
            | (s3, Ok true) => (s3, Ok None)
            | (s3, Ok false) => (s3, Raise e)
            | (s3, Raise e') => (s3, Raise e')
            end
        end
    end.

(** [@contextlib.asynccontextmanager] applied to an async generator of the
    shape [before; yield; after] with no [try] around the [yield].
    [__aenter__] runs the generator to its [yield]. [__aexit__] without an
    exception resumes it, so [after] runs; with an exception it throws the
    exception in at the [yield], which leaves the generator at once:
    [after] does not run and [__aexit__] returns [False]. *)
Record async_generator (S : Type) : Type := mkGenerator {
  before_yield : coroutine S unit;
  after_yield : coroutine S unit;
}.
Arguments before_yield {S} _.
Arguments after_yield {S} _.

Definition asynccontextmanager {S} (gen : async_generator S)
    : AsyncContextManager S :=
  {| aenter := before_yield gen;
     aexit exc :=
       match exc with
       | None => after_yield gen;; mret false
       | Some _ => mret false
       end |}.

(** [contextlib.nullcontext()] *)
Definition nullcontext {S} : AsyncContextManager S :=
  {| aenter := mret tt; aexit _ := mret false |}.

Definition zoom_cm {S C} (proj : S → C) (inj : C → S → S)
    (cm : AsyncContextManager C) : AsyncContextManager S :=
  {| aenter := zoom proj inj (aenter cm);
     aexit exc := zoom proj inj (aexit cm exc) |}.

(** ** Python dictionaries

A [dict] keeps its items in insertion order ([values()], [items()] and
comprehensions iterate in that order), so it is an association list;
[getitem] is [d[key]] and raises [KeyError]. *)

Definition dict (V : Type) : Type := list (string * V).

Definition values {V} (d : dict V) : list V := d.*2.
Definition keys {V} (d : dict V) : list string := d.*1.

Fixpoint getitem {V} (d : dict V) (key : string) : result V :=
  match d with
  | [] => Raise (KeyError key)
  | (k, v) :: d' => if String.eqb k key then Ok v else getitem d' key
  end.

(** [d.setdefault(key, v)], for its effect on [d]. *)
Definition setdefault {V} (d : dict V) (key : string) (v : V) : dict V :=
  if is_Ok (getitem d key) then d else d ++ [(key, v)].

(** ** Floats and [timedelta]

Python's [float] is the IEEE 754 binary64 format with rounding to the
nearest, ties to even: [spec_float] with 53 bits of mantissa. *)

Definition float : Type := SpecFloat.spec_float.

(** [float(n)] *)
Definition float_of_int (n : Z) : float :=
  SpecFloat.binary_normalize 53 1024 n 0 false.

(** [x * y] *)
Definition float_mul (x y : float) : float := SpecFloat.SFmul 53 1024 x y.

(** [n / d] for two integers, [d] positive: the float nearest to the
    quotient. The division gets the integers themselves as mantissas,
    so the quotient is rounded once. *)
Definition int_truediv (n : Z) (d : positive) : float :=
  match n with
  | Z0 => SpecFloat.S754_zero false
  | Zpos m =>
      SpecFloat.SFdiv 53 1024 (SpecFloat.S754_finite false m 0)
        (SpecFloat.S754_finite false d 0)
  | Zneg m =>
      SpecFloat.SFdiv 53 1024 (SpecFloat.S754_finite true m 0)
        (SpecFloat.S754_finite false d 0)
  end.

(** [int(x)]: the integer part of a finite [x], towards zero. For an
    infinity or a NaN Python raises; the floats below come from a
    [timedelta], which Python keeps under 10^9 days, and are finite. *)
Definition int_of_float (x : float) : Z :=
  match x with
  | SpecFloat.S754_finite s m e =>
      let n := match e with
               | Zneg p => Z.shiftr (Zpos m) (Zpos p)
               | _ => Z.shiftl (Zpos m) e
               end in
      if s then - n else n
  | _ => 0
  end.

(** A float that is not a negative number. *)
Definition not_negative (x : float) : Prop :=
  match x with
  | SpecFloat.S754_finite s _ _ => s = false
  | _ => True
  end.

(** [timedelta]: a whole number of milliseconds. *)
Definition timedelta : Type := Z.

(** [timedelta.total_seconds()]: the microseconds divided by [10**6]. *)
Definition total_seconds (self : timedelta) : float :=
  int_truediv (self * 1000) 1000000.

(** [int(interval.total_seconds() * 1000)]: the milliseconds [read] and
    the maintenance loop hand to the client. For 1001 ms this is 1000:
    1.001 is not a float, and the nearest float times 1000 falls just
    short of 1001. *)
Definition milliseconds (interval : timedelta) : Z :=
  int_of_float (float_mul (total_seconds interval) (float_of_int 1000)).

(** ** [asyncqueue/serialization/_serialization.py] *)

Definition bytes : Type := list byte.
Definition SerializationBackendId : Type := string.
Definition datetime : Type := Z.

(** [class TaskRecord(msgspec.Struct, kw_only=True)]; [requeue_count] has
    the default [0]. *)
Record TaskRecord : Type := mkTaskRecord {
  id : string;
  task_name : string;
  requeue_count : Z;
  enqueue_time : datetime;
  args : list (SerializationBackendId * bytes);
  kwargs : dict (SerializationBackendId * bytes);
}.

Definition TaskRecord_new (id : string) (task_name : string)
    (enqueue_time : datetime) (args : list (SerializationBackendId * bytes))
    (kwargs : dict (SerializationBackendId * bytes)) : TaskRecord :=
  {| id := id; task_name := task_name; requeue_count := 0;
     enqueue_time := enqueue_time; args := args; kwargs := kwargs |}.

Section Serialization.

(** The values tasks are called with, and the types of their annotations. *)
Context {object pytype : Type}.

(** [class SerializationBackend(Protocol[TResult])]. *)
Record SerializationBackend : Type := mkBackend {
  backend_id : SerializationBackendId;
  backend_serialize : object → result bytes;
  backend_deserialize : bytes → pytype → result object;
  backend_serializable : object → bool;
}.

(** [asyncqueue.tasks.TaskDefinition] and [TaskInstance], as the
    serialization code and the workers use them ([task.params.name],
    [arg_types], [kwarg_types], [func]; [task], [args], [kwargs]).
    [signature] is [inspect.signature(func).parameters]: each parameter
    with its annotation, if it has one. *)
Record TaskDefinition : Type := mkTaskDefinition {
  name : string;
  func : list object → dict object → result object;
  signature : dict (option pytype);
  arg_types : list pytype;
  kwarg_types : dict pytype;
}.

Record TaskInstance : Type := mkTaskInstance {
  instance_task : TaskDefinition;
  instance_args : list object;
  instance_kwargs : dict object;
}.

(** [for backend in backends.values(): if backend.serializable(value):
    return backend.id, backend.serialize(value)], then the default. *)
Fixpoint serialize_loop (value : object)
    (default_backend : SerializationBackend)
    (backends : list SerializationBackend)
    : result (SerializationBackendId * bytes) :=
  match backends with
  | [] =>
      payload ← backend_serialize default_backend value;
      mret (backend_id default_backend, payload)
  | backend :: rest =>
      if backend_serializable backend value then
        payload ← backend_serialize backend value;
        mret (backend_id backend, payload)
      else serialize_loop value default_backend rest
  end.

Definition serialize (value : object)
    (default_backend : SerializationBackend)
    (backends : dict SerializationBackend)
    : result (SerializationBackendId * bytes) :=
  serialize_loop value default_backend (values backends).

(** [uuid.uuid4()] and [utc_now()] are the two inputs [uuid4] and [now];
    both are evaluated after the arguments have been serialized. *)
Definition serialize_task (uuid4 : string) (now : datetime)
    (task_ : TaskInstance) (default_backend : SerializationBackend)
    (serialization_backends : dict SerializationBackend)
    : result TaskRecord :=
  args ← mapM (λ value, serialize value default_backend serialization_backends)
            (instance_args task_);
  kwargs ← mapM (λ '(key, value),
                   item ← serialize value default_backend serialization_backends;
                   mret (key, item))
              (instance_kwargs task_);
  mret (TaskRecord_new uuid4 (name (instance_task task_)) now args kwargs).

(** [zip(task.args, task_definition.arg_types, strict=False)] stops at the
    shorter of the two sequences. *)
Definition deserialize_task (task_definition : TaskDefinition)
    (task_ : TaskRecord)
    (serialization_backends : dict SerializationBackend)
    : result (list object * dict object) :=
  args ← mapM (λ '((backend_id, value), arg_type),
                 backend ← getitem serialization_backends backend_id;
                 backend_deserialize backend value arg_type)
            (zip (args task_) (arg_types task_definition));
  kwargs ← mapM (λ '(key, (backend_id, value)),
                   backend ← getitem serialization_backends backend_id;
                   type ← getitem (kwarg_types task_definition) key;
                   v ← backend_deserialize backend value type;
                   mret (key, v))
              (kwargs task_);
  mret (args, kwargs).

End Serialization.

Arguments SerializationBackend : clear implicits.
Arguments TaskDefinition : clear implicits.
Arguments TaskInstance : clear implicits.

(** [asyncqueue.tasks.BrokerTask]: a record and the broker's own metadata. *)
Record BrokerTask (Meta : Type) : Type := mkBrokerTask {
  task : TaskRecord;
  meta : Meta;
}.
Arguments mkBrokerTask {Meta} _ _.
Arguments task {Meta} _.
Arguments meta {Meta} _.

(** ** The Redis server: one stream and one consumer group

    [RedisBroker] addresses a single stream key and a single group (the two
    names of its [RedisBrokerConfig]), so the server state is that stream
    and the group's pending-entries list. Entry ids are assigned by the
    server in increasing order; the only field of an entry is ["value"].
    Idle times are in milliseconds and grow with [tick]. No command of the
    broker deletes an entry of the stream. The commands are those of the
    redis-py client, which refuses some arguments with [DataError] before
    it sends anything. *)
Module redis.

Definition entry_id : Type := N.

Record PendingEntry : Type := mkPending {
  consumer : string;
  idle : Z;
}.

Record Redis : Type := mkRedis {
  stream : list (entry_id * bytes);
  next_id : entry_id;
  last_delivered_id : entry_id;
  pending : gmap entry_id PendingEntry;
}.

Definition empty : Redis :=
  {| stream := []; next_id := 1%N; last_delivered_id := 0%N; pending := ∅ |}.

Definition set_pending (f : gmap entry_id PendingEntry → gmap entry_id PendingEntry)
    (r : Redis) : Redis :=
  {| stream := stream r; next_id := next_id r;
     last_delivered_id := last_delivered_id r; pending := f (pending r) |}.

(** Time passes: every pending entry gets older. *)
Definition tick (ms : Z) : Redis → Redis :=
  set_pending (fmap (λ p, {| consumer := consumer p; idle := idle p + ms |})).

(** [XADD stream * value v] *)
Definition xadd (value : bytes) : coroutine Redis entry_id := fun r =>
  ({| stream := stream r ++ [(next_id r, value)];
      next_id := N.succ (next_id r);
      last_delivered_id := last_delivered_id r;
      pending := pending r |},
   Ok (next_id r)).

Definition claim_for (consumer_name : string) (ids : list entry_id)
    (pel : gmap entry_id PendingEntry) : gmap entry_id PendingEntry :=
  foldr (λ i, <[i := {| consumer := consumer_name; idle := 0 |}]>) pel ids.

(** [XREADGROUP GROUP group consumer COUNT count BLOCK block STREAMS
    stream >]. The client refuses a [count] below 1 and a negative
    [block]. The server hands over the entries never delivered to the
    group, oldest first and at most [count]; they become pending for
    [consumer_name]. When there is none it waits for [block] milliseconds
    and answers with nothing; a [block] of 0 is a wait without limit,
    which no entry ends here: the call lasts until its task is
    cancelled. *)
Definition xreadgroup (consumer_name : string) (count : nat) (block : Z)
    : coroutine Redis (list (entry_id * bytes)) := fun r =>
  if bool_decide (count < 1)%nat || bool_decide (block < 0) then
    (r, Raise DataError)
  else
    let fresh :=
      take count (filter (λ e, (last_delivered_id r < e.1)%N) (stream r)) in
    match fresh with
    | [] => if bool_decide (block = 0) then (r, Raise CancelledError)
            else (r, Ok [])
    | _ :: _ =>
        ({| stream := stream r; next_id := next_id r;
            last_delivered_id :=
              foldl (λ _ e, e.1) (last_delivered_id r) fresh;
            pending := claim_for consumer_name fresh.*1 (pending r) |},
         Ok fresh)
    end.

(** [XACK stream group id] *)
Definition xack (i : entry_id) : coroutine Redis unit :=
  modify (set_pending (delete i)).

Definition is_idle (min_idle_time : Z) (pel : gmap entry_id PendingEntry)
    (i : entry_id) : bool :=
  match pel !! i with
  | Some p => bool_decide (min_idle_time ≤ idle p)
  | None => false
  end.

(** What [XAUTOCLAIM] with [COUNT count] hands over. The server goes
    through the pending entries from the oldest on, through at most
    [10 * count] of them, and takes those that have been idle for
    [min_idle_time], until it has [count]. *)
Definition autoclaimed (min_idle_time : Z) (count : nat) (r : Redis)
    : list (entry_id * bytes) :=
  take count
    (filter (λ e, is_idle min_idle_time (pending r) e.1)
       (take (10 * count)
          (filter (λ e, is_Some (pending r !! e.1)) (stream r)))).

(** [XAUTOCLAIM stream group consumer min-idle-time 0-0 COUNT count]. The
    client refuses a negative [min_idle_time], the server a [count] of
    0. The entries handed over pass to [consumer_name] with a fresh idle
    time. *)
Definition xautoclaim (consumer_name : string) (count : nat)
    (min_idle_time : Z) : coroutine Redis (list (entry_id * bytes)) := fun r =>
  if bool_decide (min_idle_time < 0) then (r, Raise DataError)
  else if bool_decide (count < 1)%nat then
    (r, Raise (Exception "ERR COUNT must be > 0"))
  else
    let messages := autoclaimed min_idle_time count r in
    (set_pending (claim_for consumer_name messages.*1) r, Ok messages).

(** [XCLAIM stream group consumer min-idle-time id...]. The client
    refuses a negative [min_idle_time] and an empty list of ids. Of the
    ids, those that are pending and have been idle for [min_idle_time]
    pass to [consumer_name] with a fresh idle time. *)
Definition xclaim (consumer_name : string) (min_idle_time : Z)
    (message_ids : list entry_id) : coroutine Redis unit := fun r =>
  if bool_decide (min_idle_time < 0) then (r, Raise DataError)
  else
    match message_ids with
    | [] => (r, Raise DataError)
    | _ :: _ =>
        (set_pending
           (claim_for consumer_name
              (filter (λ i, is_idle min_idle_time (pending r) i) message_ids))
           r,
         Ok tt)
    end.

End redis.

(** ** [asyncqueue/broker/redis.py] *)
Module RedisBroker.

Import redis.

Record RedisMeta : Type := mkRedisMeta { meta_id : entry_id }.

(** [xread_block_time] is a [timedelta] that is not negative, in whole
    milliseconds. *)
Record RedisBrokerConfig : Type := mkRedisBrokerConfig {
  stream_name : string;
  group_name : string;
  xread_block_time : N;
  xread_count : nat;
}.

Definition default_config : RedisBrokerConfig :=
  {| stream_name := "async-queue"%string; group_name := "default"%string;
     xread_block_time := 1000; xread_count := 1 |}.

(** The fields of a [RedisBroker] that its methods read; the client
    [_redis] is the state the methods run on. *)
Record RedisBroker : Type := mkRedisBroker {
  _broker_config : RedisBrokerConfig;
  _consumer_name : string;
}.

(** How a wait of the maintenance loop ends: after [slept] milliseconds,
    with the stop event set or not. *)
Record wakeup : Type := mkWakeup {
  slept : Z;
  stop_is_set : bool;
}.

Section Methods.

(** [msgspec.json.encode] and [msgspec.json.decode(_, type=TaskRecord)]. *)
Context (json_encode : TaskRecord → bytes)
        (json_decode : bytes → result TaskRecord).
Context (self : RedisBroker).

Definition enqueue (task_ : TaskRecord) : coroutine Redis unit :=
  xadd (json_encode task_);; mret tt.

Definition read : coroutine Redis (list (BrokerTask RedisMeta)) :=
  xread_result ← xreadgroup (_consumer_name self)
                   (xread_count (_broker_config self))
                   (milliseconds
                      (Z.of_N (xread_block_time (_broker_config self))));
  lift_result
    (mapM (λ '(record_id, record),
             task_ ← json_decode record;
             mret (mkBrokerTask task_ {| meta_id := record_id |}))
          xread_result).

(** [task.requeue_count += 1] *)
Definition increment_requeue_count (task_ : TaskRecord) : TaskRecord :=
  {| id := id task_; task_name := task_name task_;
     requeue_count := requeue_count task_ + 1;
     enqueue_time := enqueue_time task_;
     args := args task_; kwargs := kwargs task_ |}.

(** The body of the [for record_id, record in messages] loop. *)
Definition requeue (message : entry_id * bytes) : coroutine Redis unit :=
  let '(record_id, record) := message in
  task_ ← lift_result (json_decode record);
  enqueue (increment_requeue_count task_);;
  xack record_id.

(** One turn of the [while True] loop of
    [_maintenance_claim_pending_records], up to the sleep. *)
Definition claim_pending_records (timeout_interval : timedelta)
    : coroutine Redis unit :=
  messages ← xautoclaim (_consumer_name self) 1000
               (milliseconds timeout_interval);
  for_each messages requeue.

(** [_maintenance_claim_pending_records]. After each turn the coroutine
    waits for the sleep or the stop event, whichever is first; a
    [wakeup] says how long that took and what [stop.is_set()] answers
    then. [None] is returned when the coroutine is still waiting at the
    end of [wakeups]. *)
Fixpoint _maintenance_claim_pending_records (timeout_interval : timedelta)
    (wakeups : list wakeup) : coroutine Redis (option unit) :=
  claim_pending_records timeout_interval;;
  match wakeups with
  | [] => mret None
  | wakeup :: wakeups' =>
      modify (tick (slept wakeup));;
      if stop_is_set wakeup then mret (Some tt)
      else _maintenance_claim_pending_records timeout_interval wakeups'
  end.

(** [yield], then [await self._redis.xack(...)]. *)
Definition ack_context (task_ : BrokerTask RedisMeta)
    : AsyncContextManager Redis :=
  asynccontextmanager
    {| before_yield := mret tt;
       after_yield := xack (meta_id (meta task_)) |}.

Definition tasks_healthcheck (tasks : list (BrokerTask RedisMeta))
    : coroutine Redis unit :=
  let task_ids := map (λ task_, meta_id (meta task_)) tasks in
  xclaim (_consumer_name self) 0 task_ids.

End Methods.

End RedisBroker.

(** ** The broker interface and the worker's collaborators *)

(** [asyncqueue.broker.abc.Broker], the methods the workers call. *)
Class Broker (B Meta : Type) : Type := mkBroker {
  broker_read : coroutine B (list (BrokerTask Meta));
  broker_ack : BrokerTask Meta → coroutine B unit;
  broker_ack_context : BrokerTask Meta → AsyncContextManager B;
  broker_tasks_healthcheck : list (BrokerTask Meta) → coroutine B unit;
}.

(** [asyncqueue.result.abc.ResultBackend], the method the workers call:
    [set(task_id=..., value=...)], on what the backend holds. Like the
    methods of a broker it may raise. *)
Class ResultBackend (object : Type) : Type := mkResultBackend {
  result_set : string → object → coroutine (list (string * object)) unit;
}.

(** [anyio] memory object stream, sending end: [items] are the items handed
    to the receivers so far, oldest first. *)
Record MemoryObjectSendStream (Item : Type) : Type := mkSendStream {
  items : list Item;
  closed : bool;
}.
Arguments mkSendStream {Item} _ _.
Arguments items {Item} _.
Arguments closed {Item} _.

Definition stream_send {Item} (item : Item)
    : coroutine (MemoryObjectSendStream Item) unit := fun s =>
  if closed s then (s, Raise ClosedResourceError)
  else ({| items := items s ++ [item]; closed := false |}, Ok tt).

Definition stream_close {Item} : coroutine (MemoryObjectSendStream Item) unit :=
  modify (λ s, {| items := items s; closed := true |}).

(** [asyncqueue.config]: [configuration.task] and
    [configuration.serialization_backends]. Intervals are in milliseconds. *)
Record TaskConfiguration : Type := mkTaskConfiguration {
  max_delivery_attempts : Z;
  healthcheck_interval : Z;
  timeout_interval : Z;
}.

Record Configuration (object pytype : Type) : Type := mkConfiguration {
  configuration_task : TaskConfiguration;
  serialization_backends : dict (SerializationBackend object pytype);
}.
Arguments configuration_task {object pytype} _.
Arguments serialization_backends {object pytype} _.

(** [asyncqueue.router.TaskRouter] *)
Record TaskRouter (object pytype : Type) : Type := mkTaskRouter {
  tasks : dict (TaskDefinition object pytype);
}.
Arguments tasks {object pytype} _.

(** What one turn of a worker loop meets when it waits: whether the read
    it started is done when [asyncio.wait] returns, and whether a
    termination signal is handled during the turn. *)
Record turn : Type := mkTurn {
  read_done : bool;
  signalled : bool;
}.

Inductive loop_exit : Type :=
  | Break       (* the loop was left *)
  | Waiting.    (* the coroutine is suspended at the end of the schedule *)

Section Worker.

Context {object pytype : Type} `{!ResultBackend object}.
Context {B Meta : Type} `{!Broker B Meta}.

(** The attributes of an [AsyncWorker], together with the sending end of
    the stream [run] creates and the ids of the tasks whose function has
    been awaited, in order. [_result_backend] is what the result backend
    holds. *)
Record AsyncWorker : Type := mkAsyncWorker {
  _broker : B;
  _result_backend : option (list (string * object));
  _tasks : TaskRouter object pytype;
  _configuration : Configuration object pytype;
  _concurrency : nat;
  _stop_event : bool;
  _active_tasks : gmap string (BrokerTask Meta);
  send : MemoryObjectSendStream (BrokerTask Meta);
  awaited : list string;
}.

Definition set_broker (b : B) (w : AsyncWorker) : AsyncWorker :=
  mkAsyncWorker b (_result_backend w) (_tasks w) (_configuration w)
    (_concurrency w) (_stop_event w) (_active_tasks w) (send w) (awaited w).
Definition set_result_backend (r : option (list (string * object)))
    (w : AsyncWorker) : AsyncWorker :=
  mkAsyncWorker (_broker w) r (_tasks w) (_configuration w)
    (_concurrency w) (_stop_event w) (_active_tasks w) (send w) (awaited w).
Definition set_stop_event (e : bool) (w : AsyncWorker) : AsyncWorker :=
  mkAsyncWorker (_broker w) (_result_backend w) (_tasks w) (_configuration w)
    (_concurrency w) e (_active_tasks w) (send w) (awaited w).
Definition set_active_tasks (a : gmap string (BrokerTask Meta))
    (w : AsyncWorker) : AsyncWorker :=
  mkAsyncWorker (_broker w) (_result_backend w) (_tasks w) (_configuration w)
    (_concurrency w) (_stop_event w) a (send w) (awaited w).
Definition set_send (s : MemoryObjectSendStream (BrokerTask Meta))
    (w : AsyncWorker) : AsyncWorker :=
  mkAsyncWorker (_broker w) (_result_backend w) (_tasks w) (_configuration w)
    (_concurrency w) (_stop_event w) (_active_tasks w) s (awaited w).
Definition set_awaited (l : list string) (w : AsyncWorker) : AsyncWorker :=
  mkAsyncWorker (_broker w) (_result_backend w) (_tasks w) (_configuration w)
    (_concurrency w) (_stop_event w) (_active_tasks w) (send w) l.

(** A call of a method of [self._broker]. *)
Definition on_broker {A} (m : coroutine B A) : coroutine AsyncWorker A :=
  zoom _broker set_broker m.

(** [await send.send(message)] *)
Definition send_send (message : BrokerTask Meta) : coroutine AsyncWorker unit :=
  zoom send set_send (stream_send message).

(** [await self._result_backend.set(task_id=..., value=...)] under
    [if self._result_backend:]. *)
Definition result_backend_set (task_id : string) (value : object)
    : coroutine AsyncWorker unit := fun w =>
  match _result_backend w with
  | Some stored =>
      let '(stored', outcome) := result_set task_id value stored in
      (set_result_backend (Some stored') w, outcome)
  | None => (w, Ok tt)
  end.

(** [await task_definition.func] on [args] and [kwargs] *)
Definition await_func (task_ : TaskRecord)
    (task_definition : TaskDefinition object pytype)
    (args : list object) (kwargs : dict object) : coroutine AsyncWorker object :=
  modify (λ w, set_awaited (awaited w ++ [id task_]) w);;
  lift_result (func task_definition args kwargs).

(** The body of [async for broker_task in recv] in [_worker], the same
    in both workers but for the statements under [async with], which are
    [scope]. *)
Definition execute_with (scope : TaskRecord → coroutine AsyncWorker object)
    (broker_task : BrokerTask Meta) : coroutine AsyncWorker unit :=
  modify (λ w, set_active_tasks
                 (<[id (task broker_task) := broker_task]> (_active_tasks w)) w);;
  let task_ := task broker_task in
  result ← async_with
    (zoom_cm _broker set_broker (broker_ack_context broker_task))
    (scope task_);
  modify (λ w, set_active_tasks
                 (delete (id (task broker_task)) (_active_tasks w)) w);;
  w ← get;
  match _result_backend w with
  | Some _ =>
      value ← match result with
              | Some value => mret value
              | None => raise UnboundLocalError
              end;
      result_backend_set (id task_) value
  | None => mret tt
  end.

(** [_claim_pending_tasks], the same in both workers: each [turn] says
    whether a signal is handled during one sleep. *)
Fixpoint _claim_pending_tasks (turns : list turn)
    : coroutine AsyncWorker loop_exit :=
  match turns with
  | [] => mret Waiting
  | t :: turns' =>
      w ← get;
      (match (map_to_list (_active_tasks w)).*2 with
       | [] => mret tt
       | active => on_broker (broker_tasks_healthcheck active)
       end);;
      (if signalled t then modify (set_stop_event true) else mret tt);;
      w ← get;
      if _stop_event w then mret Break else _claim_pending_tasks turns'
  end.

End Worker.

Arguments AsyncWorker : clear implicits.

(** ** [asyncqueue/worker.py] *)
Module asyncqueue_worker.
Section AsyncWorker.

Context {object pytype : Type} `{!ResultBackend object}.
Context {B Meta : Type} `{!Broker B Meta}.

Abbreviation AsyncWorker := (AsyncWorker object pytype B Meta).

(** [AsyncWorker.__init__]; the stream is the one [run] opens. *)
Definition __init__ (broker : B)
    (result_backend : option (list (string * object)))
    (tasks_ : TaskRouter object pytype)
    (configuration : Configuration object pytype)
    (concurrency : nat) : result AsyncWorker :=
  Ok {| _broker := broker;
        _result_backend := result_backend;
        _tasks := tasks_;
        _configuration := configuration;
        _concurrency := concurrency;
        _stop_event := false;
        _active_tasks := ∅;
        send := mkSendStream [] false;
        awaited := [] |}.

(** [_stop(send)]: also what the two signal handlers call. *)
Definition _stop : coroutine AsyncWorker unit :=
  modify (set_stop_event true);;
  zoom send set_send stream_close.

(** The [while True] loop of [run]. [asyncio.wait] with [ALL_COMPLETED]
    returns once [read_task] and [stop_task] are both done; what
    [read_task] read stays in the task, the loop reads again. *)
Fixpoint run_loop (turns : list turn) : coroutine AsyncWorker loop_exit :=
  match turns with
  | [] => mret Waiting
  | t :: turns' =>
      (if read_done t then try_ (on_broker broker_read);; mret tt else mret tt);;
      (if signalled t then _stop else mret tt);;
      w ← get;
      if negb (_stop_event w && read_done t) then mret Waiting
      else if negb (read_done t) then mret Break
      else
        messages ← on_broker broker_read;
        for_each messages send_send;;
        w ← get;
        if _stop_event w then mret Break else run_loop turns'
  end.

(** The statements under [async with self._broker.ack_context(...)]. *)
Definition ack_scope (task_ : TaskRecord) : coroutine AsyncWorker object :=
  w ← get;
  task_definition ← lift_result (getitem (tasks (_tasks w)) (task_name task_));
  '(args, kwargs) ← lift_result
     (deserialize_task task_definition task_
        (serialization_backends (_configuration w)));
  await_func task_ task_definition args kwargs.

Definition execute : BrokerTask Meta → coroutine AsyncWorker unit :=
  execute_with ack_scope.

(** [_worker(recv)], for the tasks [recv] yields to this executor. *)
Definition _worker (recv : list (BrokerTask Meta)) : coroutine AsyncWorker unit :=
  for_each recv execute.

End AsyncWorker.
End asyncqueue_worker.

(** ** [aiotaskqueue/worker.py] *)
Module aiotaskqueue_worker.
Section AsyncWorker.

Context {object pytype : Type} `{!EqDecision pytype} `{!ResultBackend object}.
Context {B Meta : Type} `{!Broker B Meta}.

(** The class [Publisher] as an annotation, and the object
    [Publisher(broker=broker, config=configuration)] that [__init__]
    stores in [self._publisher] and [_call_task_fn] passes to tasks. The
    class is not among the sources; its constructor is taken to return
    that object. *)
Context (Publisher : pytype) (_publisher : object).

Abbreviation AsyncWorker := (AsyncWorker object pytype B Meta).

(** [_dependencies_to_inject(function, types)] *)
Definition _dependencies_to_inject (function_signature : dict (option pytype))
    (types : list pytype) : dict pytype :=
  omap (λ '(key, annotation),
          match annotation with
          | Some annotation =>
              if bool_decide (annotation ∈ types) then Some (key, annotation)
              else None
          | None => None
          end)
       function_signature.

(** [AsyncWorker.__init__]; the stream is the one [run] opens. *)
Definition __init__ (broker : B)
    (result_backend : option (list (string * object)))
    (tasks_ : TaskRouter object pytype)
    (configuration : Configuration object pytype)
    (concurrency : nat) : result AsyncWorker :=
  Ok {| _broker := broker;
        _result_backend := result_backend;
        _tasks := tasks_;
        _configuration := configuration;
        _concurrency := concurrency;
        _stop_event := false;
        _active_tasks := ∅;
        send := mkSendStream [] false;
        awaited := [] |}.

Definition stop : coroutine AsyncWorker unit :=
  modify (set_stop_event true).

(** The body of [for message in read_task.result()]. *)
Definition dispatch (message : BrokerTask Meta) : coroutine AsyncWorker unit :=
  w ← get;
  (if bool_decide (max_delivery_attempts (configuration_task (_configuration w))
                   ≤ requeue_count (task message))
   then on_broker (broker_ack message)
   else mret tt);;
  send_send message.

(** The [while True] loop of [run]. [asyncio.wait] with
    [FIRST_COMPLETED] returns when [read_task] or [stop_task] is done. *)
Fixpoint run_loop (turns : list turn) : coroutine AsyncWorker loop_exit :=
  match turns with
  | [] => mret Waiting
  | t :: turns' =>
      (if signalled t then stop else mret tt);;
      if read_done t then
        messages ← on_broker broker_read;
        for_each messages dispatch;;
        w ← get;
        if _stop_event w then mret Break else run_loop turns'
      else
        w ← get;
        if _stop_event w then mret Break else mret Waiting
  end.

Definition _call_task_fn (task_ : TaskRecord) : coroutine AsyncWorker object :=
  w ← get;
  task_definition ← lift_result (getitem (tasks (_tasks w)) (task_name task_));
  '(args, kwargs) ← lift_result
     (deserialize_task task_definition task_
        (serialization_backends (_configuration w)));
  kwargs ← lift_result
     (foldl (λ acc '(key, value),
               kwargs ← acc;
               obj ← (if decide (value = Publisher) then Ok _publisher
                      else Raise ValueError);
               mret (setdefault kwargs key obj))
            (Ok kwargs)
            (_dependencies_to_inject (signature task_definition) [Publisher]));
  await_func task_ task_definition args kwargs.

Definition execute : BrokerTask Meta → coroutine AsyncWorker unit :=
  execute_with _call_task_fn.

(** [_worker(recv)], for the tasks [recv] yields to this executor. *)
Definition _worker (recv : list (BrokerTask Meta)) : coroutine AsyncWorker unit :=
  for_each recv execute.

End AsyncWorker.
End aiotaskqueue_worker.

(** * Specification

The predicates the statements below are written with, the broker
instance of [RedisBroker], and the sample data the statements are
evaluated on. *)

Section SerializationSpec.

Context {object pytype : Type}.

Implicit Types (backend : SerializationBackend object pytype)
               (backends : dict (SerializationBackend object pytype)).

(** Some backend of the registry reports the value as serializable. *)
Definition claimed backends (value : object) : Prop :=
  ∃ backend, backend ∈ values backends
             ∧ backend_serializable backend value = true.

(** The registry is a mapping from each backend's own id to it. *)
Definition keyed_by_id backends : Prop :=
  NoDup (keys backends)
  ∧ ∀ key backend, (key, backend) ∈ backends → backend_id backend = key.

(** Decoding with the hint [type] undoes the backend's encoding of
    [value]. *)
Definition inverts backend (value : object) (type : pytype) : Prop :=
  ∀ payload, backend_serialize backend value = Ok payload →
             backend_deserialize backend payload type = Ok value.

(** Every backend of the registry that would take [value] decodes it
    back under the hint [type]. *)
Definition decodable backends (value : object) (type : pytype) : Prop :=
  ∀ backend, backend ∈ values backends →
             backend_serializable backend value = true →
             inverts backend value type.

(** The selection rule in the words of the specification: the first
    backend, in insertion order, whose [serializable] is true, and the
    default backend when there is none. *)
Definition selected_backend (value : object) (default_backend : SerializationBackend object pytype)
    backends : SerializationBackend object pytype :=
  match list_find (λ backend, backend_serializable backend value = true)
                  (values backends) with
  | Some (_, backend) => backend
  | None => default_backend
  end.

Definition serialize_spec (value : object)
    (default_backend : SerializationBackend object pytype) backends
    : result (SerializationBackendId * bytes) :=
  let backend := selected_backend value default_backend backends in
  payload ← backend_serialize backend value;
  mret (backend_id backend, payload).

(** The record with its positional items cut to [n]. *)
Definition truncate_args (n : nat) (record : TaskRecord) : TaskRecord :=
  {| id := id record; task_name := task_name record;
     requeue_count := requeue_count record;
     enqueue_time := enqueue_time record;
     args := take n (args record); kwargs := kwargs record |}.

End SerializationSpec.

(** ** Sample data *)
Module sample.

Inductive pytype : Type := Int | Str | PublisherClass.
Inductive object : Type := int (z : Z) | str (s : string) | the_publisher.

#[global] Instance pytype_eq_dec : EqDecision pytype.
Proof. solve_decision. Defined.

Definition is_str (value : object) : bool :=
  match value with str _ => true | _ => false end.

(** A backend for strings: the payload is the bytes of the string. *)
Definition str_backend : SerializationBackend object pytype :=
  {| backend_id := "str"%string;
     backend_serialize value :=
       match value with
       | str s => Ok (list_byte_of_string s)
       | _ => Raise (Exception "not a string")
       end;
     backend_deserialize payload _ := Ok (str (string_of_list_byte payload));
     backend_serializable := is_str |}.

(** A backend that takes every value and cannot encode any. *)
Definition raising_backend : SerializationBackend object pytype :=
  {| backend_id := "raising"%string;
     backend_serialize _ := Raise (Exception "unsupported");
     backend_deserialize _ _ := Raise (Exception "unsupported");
     backend_serializable _ := true |}.

(** A default backend: integers as one byte, strings as their bytes. *)
Definition default_backend : SerializationBackend object pytype :=
  {| backend_id := "default"%string;
     backend_serialize value :=
       match value with
       | int z => Ok [Byte.x00]
       | str s => Ok (list_byte_of_string s)
       | the_publisher => Raise (Exception "not serializable")
       end;
     backend_deserialize payload _ := Ok (str (string_of_list_byte payload));
     backend_serializable _ := false |}.

Definition backends : dict (SerializationBackend object pytype) :=
  [("str"%string, str_backend)].

Definition raising_backends : dict (SerializationBackend object pytype) :=
  [("raising"%string, raising_backend)].

(** A result backend that keeps every value it is given. *)
#[global] Instance result_backend : ResultBackend object :=
  {| result_set task_id value :=
       modify (λ stored, stored ++ [(task_id, value)]) |}.

(** [async def noop() -> None] and [async def greet(name: str) -> str]. *)
Definition noop : TaskDefinition object pytype :=
  {| name := "noop"%string;
     func _ _ := Ok (str "");
     signature := [];
     arg_types := [];
     kwarg_types := [] |}.

Definition greet : TaskDefinition object pytype :=
  {| name := "greet"%string;
     func args _ :=
       match args with
       | [str s] => Ok (str ("hello " ++ s))
       | _ => Raise (Exception "TypeError")
       end;
     signature := [("name"%string, Some Str)];
     arg_types := [Str];
     kwarg_types := [("name"%string, Str)] |}.

(** A task whose function always fails. *)
Definition failing : TaskDefinition object pytype :=
  {| name := "failing"%string;
     func _ _ := Raise (Exception "boom");
     signature := [];
     arg_types := [];
     kwarg_types := [] |}.

Definition router : TaskRouter object pytype :=
  {| tasks := [("noop"%string, noop); ("greet"%string, greet);
               ("failing"%string, failing)] |}.

(** [greet("ada")], [greet(name="ada")] and [noop("extra")], a call with
    one positional argument more than [noop] declares. *)
Definition greet_ada : TaskInstance object pytype :=
  {| instance_task := greet; instance_args := [str "ada"];
     instance_kwargs := [] |}.

Definition greet_ada_kw : TaskInstance object pytype :=
  {| instance_task := greet; instance_args := [];
     instance_kwargs := [("name"%string, str "ada")] |}.

(** [async def join(a: str, b: str) -> str] and [join("x", b="y")]. *)
Definition join : TaskDefinition object pytype :=
  {| name := "join"%string;
     func args kwargs :=
       match args, kwargs with
       | [str a], [(_, str b)] => Ok (str (a ++ b))
       | _, _ => Raise (Exception "TypeError")
       end;
     signature := [("a"%string, Some Str); ("b"%string, Some Str)];
     arg_types := [Str; Str];
     kwarg_types := [("a"%string, Str); ("b"%string, Str)] |}.

Definition join_x_y : TaskInstance object pytype :=
  {| instance_task := join; instance_args := [str "x"];
     instance_kwargs := [("b"%string, str "y")] |}.

Definition join_x_y_record : TaskRecord :=
  {| id := "5f0c"%string; task_name := "join"%string; requeue_count := 0;
     enqueue_time := 1700000000;
     args := [("str"%string, list_byte_of_string "x")];
     kwargs := [("b"%string, ("str"%string, list_byte_of_string "y"))] |}.

Definition noop_extra : TaskInstance object pytype :=
  {| instance_task := noop; instance_args := [str "extra"];
     instance_kwargs := [] |}.

Definition noop_extra_record : TaskRecord :=
  {| id := "5f0c"%string; task_name := "noop"%string; requeue_count := 0;
     enqueue_time := 1700000000;
     args := [("str"%string, list_byte_of_string "extra")]; kwargs := [] |}.

(** A record with two positional items. *)
Definition two_args : TaskRecord :=
  {| id := "t-2"%string; task_name := "greet"%string; requeue_count := 0;
     enqueue_time := 0;
     args := [("str"%string, list_byte_of_string "ada");
              ("unknown"%string, [])];
     kwargs := [] |}.

End sample.

(** ** [RedisBroker] as a [Broker] *)
Section RedisBrokerInstance.

Context (json_encode : TaskRecord → bytes)
        (json_decode : bytes → result TaskRecord)
        (self : RedisBroker.RedisBroker).

(** Modelled from the spec: [Broker.ack], which [aiotaskqueue/worker.py]
    calls, is not among the sources; for the stream broker it is the
    acknowledgement [ack_context] emits on normal exit,
    [ack(stream, group, entry_id)]. *)
Definition RedisBroker_ack (task_ : BrokerTask RedisBroker.RedisMeta)
    : coroutine redis.Redis unit :=
  redis.xack (RedisBroker.meta_id (meta task_)).

Definition RedisBroker_Broker : Broker redis.Redis RedisBroker.RedisMeta :=
  {| broker_read := RedisBroker.read json_decode self;
     broker_ack := RedisBroker_ack;
     broker_ack_context := RedisBroker.ack_context;
     broker_tasks_healthcheck := RedisBroker.tasks_healthcheck self |}.

End RedisBrokerInstance.

(** The turns of the maintenance loop on one record: the record after [n]
    reclamations. *)
Definition reclaimed (n : nat) (record : TaskRecord) : TaskRecord :=
  Nat.iter n RedisBroker.increment_requeue_count record.

(** ** Sample data for the broker and the workers *)
Module sample_broker.

Import redis RedisBroker.

(** A stand-in for the JSON codec on the records of the samples: the
    requeue count as one byte, then the name of the task, which is also
    the record's id. *)
Definition json_encode (record : TaskRecord) : bytes :=
  match Byte.of_N (Z.to_N (requeue_count record)) with
  | Some count => count :: list_byte_of_string (task_name record)
  | None => []
  end.

Definition json_decode (payload : bytes) : result TaskRecord :=
  match payload with
  | count :: name_ =>
      Ok {| id := string_of_list_byte name_;
            task_name := string_of_list_byte name_;
            requeue_count := Z.of_N (Byte.to_N count);
            enqueue_time := 0; args := []; kwargs := [] |}
  | [] => Raise (Exception "DecodeError")
  end.

Definition record (name_ : string) (count : Z) : TaskRecord :=
  {| id := name_; task_name := name_; requeue_count := count;
     enqueue_time := 0; args := []; kwargs := [] |}.

Definition self : RedisBroker :=
  {| _broker_config := default_config; _consumer_name := "worker-1"%string |}.

(** One entry, delivered to ["worker-2"] six seconds ago and not acked. *)
Definition stale : Redis :=
  {| stream := [(1%N, json_encode (record "noop" 0))];
     next_id := 2%N;
     last_delivered_id := 1%N;
     pending := {[ 1%N := {| consumer := "worker-2"%string; idle := 6000 |} ]} |}.

Definition stale_task : BrokerTask RedisMeta :=
  mkBrokerTask (record "noop" 0) {| meta_id := 1%N |}.

(** Two entries nobody has read yet. *)
Definition two_unread : Redis :=
  {| stream := [(1%N, json_encode (record "noop" 0));
                (2%N, json_encode (record "greet" 0))];
     next_id := 3%N;
     last_delivered_id := 0%N;
     pending := ∅ |}.

(** One unread entry that has been requeued three times, and one that
    fails when run. *)
Definition poisoned : Redis :=
  {| stream := [(1%N, json_encode (record "noop" 3))];
     next_id := 2%N;
     last_delivered_id := 0%N;
     pending := ∅ |}.

Definition poisoned_task : BrokerTask RedisMeta :=
  mkBrokerTask (record "noop" 3) {| meta_id := 1%N |}.

Definition failing_task : BrokerTask RedisMeta :=
  mkBrokerTask (record "failing" 0) {| meta_id := 1%N |}.

Definition noop_task : BrokerTask RedisMeta :=
  mkBrokerTask (record "noop" 0) {| meta_id := 2%N |}.

(** Both entries delivered to this worker, none acked. *)
Definition two_delivered : Redis :=
  {| stream := [(1%N, json_encode (record "failing" 0));
                (2%N, json_encode (record "noop" 0))];
     next_id := 3%N;
     last_delivered_id := 2%N;
     pending := {[ 1%N := {| consumer := "worker-1"%string; idle := 4000 |};
                   2%N := {| consumer := "worker-1"%string; idle := 4000 |} ]} |}.

Definition configuration (attempts healthcheck timeout : Z)
    : Configuration sample.object sample.pytype :=
  {| configuration_task :=
       {| max_delivery_attempts := attempts;
          healthcheck_interval := healthcheck;
          timeout_interval := timeout |};
     serialization_backends := sample.backends |}.

#[global] Instance broker : Broker Redis RedisMeta :=
  RedisBroker_Broker json_decode self.

End sample_broker.

(** A context manager that does nothing on entry and lets an exception
    through untouched, as [contextlib.nullcontext()] and the manager of
    [RedisBroker.ack_context] do. *)
Definition plain_scope {S} (cm : AsyncContextManager S) : Prop :=
  (∀ s, aenter cm s = (s, Ok tt)) ∧ (∀ e s, aexit cm (Some e) s = (s, Ok false)).

(** The worker once [broker_task] is recorded in [_active_tasks]. *)
Definition activate {object pytype B Meta} (broker_task : BrokerTask Meta)
    (w : AsyncWorker object pytype B Meta) : AsyncWorker object pytype B Meta :=
  set_active_tasks (<[id (task broker_task) := broker_task]> (_active_tasks w)) w.

(** What a task that failed in its ack scope leaves of the worker [w]: the
    broker untouched, the task still recorded as active, and at most the
    task itself added to the trace of awaited functions. *)
Definition left_behind {object pytype B Meta} (broker_task : BrokerTask Meta)
    (w w' : AsyncWorker object pytype B Meta) : Prop :=
  _broker w' = _broker w
  ∧ _active_tasks w' !! id (task broker_task) = Some broker_task
  ∧ (awaited w' = awaited w
     ∨ awaited w' = awaited w ++ [id (task broker_task)]).

(** The tasks a heartbeat passes to [tasks_healthcheck]. *)
Definition active {object pytype B Meta}
    (w : AsyncWorker object pytype B Meta) : list (BrokerTask Meta) :=
  (map_to_list (_active_tasks w)).*2.

(** A scope that changes nothing but the trace of awaited functions, to
    which it may add the task. *)
Definition only_awaits {object pytype B Meta}
    (scope : TaskRecord → coroutine (AsyncWorker object pytype B Meta) object)
    : Prop :=
  ∀ task_ w w' r, scope task_ w = (w', r) →
    w' = w ∨ w' = set_awaited (awaited w ++ [id task_]) w.

Module sample_worker.

Import redis RedisBroker sample_broker.

(** A worker of concurrency 1 without result backend, before [run]. *)
Definition worker (server : Redis) (attempts healthcheck timeout : Z)
    : AsyncWorker sample.object sample.pytype Redis RedisMeta :=
  {| _broker := server;
     _result_backend := None;
     _tasks := sample.router;
     _configuration := configuration attempts healthcheck timeout;
     _concurrency := 1;
     _stop_event := false;
     _active_tasks := ∅;
     send := mkSendStream [] false;
     awaited := [] |}.

End sample_worker.


(** * Further definitions

    The rest of the sources: the in-memory broker, the start-up of the
    stream broker, and the notions used to state what the remaining code
    does. *)

Section DecodingSteps.

Context {object pytype : Type}.

(** The two generator bodies of [deserialize_task]: what is evaluated for
    one positional item and for one keyword item. *)
Definition decode_arg (serialization_backends : dict (SerializationBackend object pytype))
    : (SerializationBackendId * bytes) * pytype → result object :=
  λ '((backend_id, value), arg_type),
    backend ← getitem serialization_backends backend_id;
    backend_deserialize backend value arg_type.

Definition decode_kwarg (task_definition : TaskDefinition object pytype)
    (serialization_backends : dict (SerializationBackend object pytype))
    : string * (SerializationBackendId * bytes) → result (string * object) :=
  λ '(key, (backend_id, value)),
    backend ← getitem serialization_backends backend_id;
    type ← getitem (kwarg_types task_definition) key;
    v ← backend_deserialize backend value type;
    mret (key, v).

End DecodingSteps.

(** ** [asyncqueue/broker/inmemory.py] *)
Module InMemoryBroker.

(** What a call gives that may have to wait for another coroutine:
    [WouldBlock] when it cannot go on by itself. *)
Inductive poll (A : Type) : Type :=
  | Ready (a : A)
  | WouldBlock.
Arguments Ready {A} a.
Arguments WouldBlock {A}.

(** The memory object stream between [_send] and [_recv], with no
    coroutine waiting at either end: the buffered items, oldest first.
    [meta=None] is [tt]. *)
Record InMemoryBroker : Type := mkInMemoryBroker {
  buffer : list (BrokerTask unit);
  max_buffer_size : nat;
}.

Definition __init__ (max_buffer_size : nat) : InMemoryBroker :=
  {| buffer := []; max_buffer_size := max_buffer_size |}.

(** [await self._send.send(BrokerTask(task=task, meta=None))] *)
Definition enqueue (task_ : TaskRecord) (self : InMemoryBroker)
    : InMemoryBroker * poll unit :=
  if decide (length (buffer self) < max_buffer_size self)%nat then
    ({| buffer := buffer self ++ [mkBrokerTask task_ tt];
        max_buffer_size := max_buffer_size self |}, Ready tt)
  else (self, WouldBlock).

(** [return (await self._recv.receive(),)] *)
Definition read (self : InMemoryBroker)
    : InMemoryBroker * poll (list (BrokerTask unit)) :=
  match buffer self with
  | [] => (self, WouldBlock)
  | broker_task :: rest =>
      ({| buffer := rest; max_buffer_size := max_buffer_size self |},
       Ready [broker_task])
  end.

Definition ack_context (task_ : BrokerTask unit)
    : AsyncContextManager InMemoryBroker :=
  nullcontext.

Definition run_worker_maintenance_tasks : coroutine InMemoryBroker unit :=
  mret tt.

Definition tasks_healthcheck (tasks_ : list (BrokerTask unit))
    : coroutine InMemoryBroker unit :=
  mret tt.

(** Enqueueing the records of a list one after the other, and reading
    [n] times in a row, as far as the calls do not block. *)
Fixpoint enqueue_all (tasks_ : list TaskRecord) (self : InMemoryBroker)
    : InMemoryBroker * poll unit :=
  match tasks_ with
  | [] => (self, Ready tt)
  | task_ :: tasks' =>
      match enqueue task_ self with
      | (self', Ready _) => enqueue_all tasks' self'
      | (self', WouldBlock) => (self', WouldBlock)
      end
  end.

Fixpoint read_times (n : nat) (self : InMemoryBroker)
    : InMemoryBroker * poll (list (list (BrokerTask unit))) :=
  match n with
  | O => (self, Ready [])
  | S n' =>
      match read self with
      | (self', Ready batch) =>
          match read_times n' self' with
          | (self'', Ready batches) => (self'', Ready (batch :: batches))
          | (self'', WouldBlock) => (self'', WouldBlock)
          end
      | (self', WouldBlock) => (self', WouldBlock)
      end
  end.

End InMemoryBroker.

(** ** [RedisBroker.__aenter__] and [__aexit__]

    The start-up of the stream broker looks at the keys of the server:
    which streams exist, which groups each has and which consumers each
    group has. *)
Module RedisBroker_scope.

Import RedisBroker.

(** Stream key, then group name, then the names of the consumers. *)
Definition Keyspace : Type := gmap string (gmap string (gset string)).

(** The server and the two attributes the scope methods assign. *)
Record Connection : Type := mkConnection {
  keyspace : Keyspace;
  _is_initialized : bool;
  _stop : bool;
}.

Definition on_keyspace {A} (m : coroutine Keyspace A) : coroutine Connection A :=
  zoom keyspace
       (λ k c, {| keyspace := k; _is_initialized := _is_initialized c;
                  _stop := _stop c |}) m.

(** [EXISTS key]: the number of keys that exist. *)
Definition exists_ (key : string) : coroutine Keyspace Z := fun k =>
  (k, Ok (match k !! key with Some _ => 1 | None => 0 end)).

(** [XINFO GROUPS key]: the names of the groups; an error without the key. *)
Definition xinfo_groups (key : string) : coroutine Keyspace (list string) :=
  fun k =>
    match k !! key with
    | Some groups => (k, Ok (map_to_list groups).*1)
    | None => (k, Raise (Exception "ERR no such key"))
    end.

(** [XGROUP CREATE name groupname $ MKSTREAM] *)
Definition xgroup_create (name_ groupname : string) (mkstream : bool)
    : coroutine Keyspace unit := fun k =>
  match k !! name_ with
  | None =>
      if mkstream then (<[name_ := {[groupname := ∅]}]> k, Ok tt)
      else (k, Raise (Exception "ERR The XGROUP subcommand requires the key to exist"))
  | Some groups =>
      match groups !! groupname with
      | Some _ =>
          (k, Raise (Exception "BUSYGROUP Consumer Group name already exists"))
      | None => (<[name_ := <[groupname := ∅]> groups]> k, Ok tt)
      end
  end.

(** [XGROUP CREATECONSUMER key group consumer] *)
Definition xgroup_createconsumer (key group consumer_ : string)
    : coroutine Keyspace unit := fun k =>
  match k !! key with
  | None => (k, Raise (Exception "ERR no such key"))
  | Some groups =>
      match groups !! group with
      | None => (k, Raise (Exception "NOGROUP No such consumer group"))
      | Some consumers =>
          (<[key := <[group := {[consumer_]} ∪ consumers]> groups]> k, Ok tt)
      end
  end.

Section Scope.

Context (self : RedisBroker).

Definition __aenter__ : coroutine Connection unit :=
  c ← get;
  if _is_initialized c then mret tt
  else
    count ← on_keyspace (exists_ (stream_name (_broker_config self)));
    let stream_exists := negb (count =? 0) in
    group_exists ←
      (if stream_exists then
         names ← on_keyspace (xinfo_groups (stream_name (_broker_config self)));
         mret (bool_decide (group_name (_broker_config self) ∈ names))
       else mret false);
    (if negb stream_exists || negb group_exists then
       on_keyspace (xgroup_create (stream_name (_broker_config self))
                      (group_name (_broker_config self)) true)
     else mret tt);;
    on_keyspace (xgroup_createconsumer (stream_name (_broker_config self))
                   (group_name (_broker_config self)) (_consumer_name self));;
    modify (λ c, {| keyspace := keyspace c; _is_initialized := true;
                    _stop := _stop c |}).

Definition __aexit__ : coroutine Connection unit :=
  modify (λ c, {| keyspace := keyspace c;
                  _is_initialized := _is_initialized c; _stop := true |}).

End Scope.

(** The keys once the stream, the group and the consumer are there: the
    groups the stream had, with the consumer added to those of the group. *)
Definition set_up (self : RedisBroker) (k : Keyspace) : Keyspace :=
  let groups := default ∅ (k !! stream_name (_broker_config self)) in
  let consumers := default ∅ (groups !! group_name (_broker_config self)) in
  <[stream_name (_broker_config self) :=
      <[group_name (_broker_config self) :=
          {[_consumer_name self]} ∪ consumers]> groups]> k.

(** The consumer is registered in the group of the stream. *)
Definition registered (self : RedisBroker) (k : Keyspace) : Prop :=
  ∃ groups consumers,
    k !! stream_name (_broker_config self) = Some groups
    ∧ groups !! group_name (_broker_config self) = Some consumers
    ∧ _consumer_name self ∈ consumers.

End RedisBroker_scope.

(** ** Notions for the workers *)

(** The keyword arguments [_call_task_fn] calls the function with: the
    decoded ones, and the publisher under every parameter annotated with
    [Publisher] that the record gives no value for. *)
Definition with_publisher {object pytype : Type} `{!EqDecision pytype}
    (Publisher : pytype) (_publisher : object)
    (task_definition : TaskDefinition object pytype) (kwargs : dict object)
    : dict object :=
  foldl (λ kwargs '(key, _), setdefault kwargs key _publisher) kwargs
    (aiotaskqueue_worker._dependencies_to_inject
       (signature task_definition) [Publisher]).


(** ** Notions for the stream broker *)

(** The entries no consumer of the group has been given yet, oldest
    first: what [XREADGROUP ... >] chooses from. *)
Definition unread (r : redis.Redis) : list (redis.entry_id * bytes) :=
  filter (λ e, (redis.last_delivered_id r < e.1)%N) (redis.stream r).

(** The server assigns ids in increasing order, below the next id it
    will assign, and has delivered no id it did not assign. *)
Definition well_formed (r : redis.Redis) : Prop :=
  StronglySorted N.lt (redis.stream r).*1
  ∧ Forall (λ i, (i < redis.next_id r)%N) (redis.stream r).*1
  ∧ (redis.last_delivered_id r < redis.next_id r)%N.

Section Requeued.

Context (json_encode : TaskRecord → bytes).

(** The entries one turn of the maintenance loop appends for the decoded
    records [tasks_], the first of them under the id [first], and the
    tasks a worker reads them as. *)
Fixpoint requeued (first : redis.entry_id) (tasks_ : list TaskRecord)
    : list (redis.entry_id * bytes) :=
  match tasks_ with
  | [] => []
  | task_ :: tasks' =>
      (first, json_encode (RedisBroker.increment_requeue_count task_))
      :: requeued (N.succ first) tasks'
  end.

Fixpoint redelivered (first : redis.entry_id) (tasks_ : list TaskRecord)
    : list (BrokerTask RedisBroker.RedisMeta) :=
  match tasks_ with
  | [] => []
  | task_ :: tasks' =>
      mkBrokerTask (RedisBroker.increment_requeue_count task_)
        {| RedisBroker.meta_id := first |}
      :: redelivered (N.succ first) tasks'
  end.

End Requeued.

Section Redeliveries.

Context (json_encode : TaskRecord → bytes)
        (json_decode : bytes → result TaskRecord)
        (self : RedisBroker.RedisBroker).

(** What happens [n] times over to a record whose task never finishes:
    the worker reads it and does not ack it, [elapsed] milliseconds
    pass, and the maintenance loop runs a turn. *)
Fixpoint redeliveries (timeout_interval : timedelta) (elapsed : Z) (n : nat)
    : coroutine redis.Redis unit :=
  match n with
  | O => mret tt
  | S n' =>
      RedisBroker.read json_decode self;;
      modify (redis.tick elapsed);;
      RedisBroker.claim_pending_records json_encode json_decode self
        timeout_interval;;
      redeliveries timeout_interval elapsed n'
  end.

End Redeliveries.

(** ** More sample data *)
Module sample_more.

Import sample.

(** [noop(publisher)]: an argument no backend can encode. *)
Definition noop_publisher : TaskInstance object pytype :=
  {| instance_task := noop; instance_args := [str "first"; the_publisher];
     instance_kwargs := [] |}.

(** A record for [join] with a keyword that [join] does not declare. *)
Definition undeclared_keyword : TaskRecord :=
  {| id := "t-3"%string; task_name := "join"%string; requeue_count := 0;
     enqueue_time := 0;
     args := [("str"%string, list_byte_of_string "x")];
     kwargs := [("b"%string, ("str"%string, list_byte_of_string "y"));
                ("c"%string, ("str"%string, list_byte_of_string "z"))] |}.

(** A stream whose only entry is not the encoding of a record, unread;
    and the same entry delivered to ["worker-2"] six seconds ago. *)
Definition garbled_unread : redis.Redis :=
  {| redis.stream := [(1%N, [])];
     redis.next_id := 2%N;
     redis.last_delivered_id := 0%N;
     redis.pending := ∅ |}.

Definition garbled_stale : redis.Redis :=
  {| redis.stream := [(1%N, [])];
     redis.next_id := 2%N;
     redis.last_delivered_id := 1%N;
     redis.pending :=
       {[ 1%N := {| redis.consumer := "worker-2"%string;
                    redis.idle := 6000 |} ]} |}.

(** Two entries delivered to ["worker-2"] six seconds ago and not acked:
    the first is not the encoding of a record, the second is. *)
Definition garbled_then_noop : redis.Redis :=
  {| redis.stream :=
       [(1%N, []);
        (2%N, sample_broker.json_encode (sample_broker.record "noop" 0))];
     redis.next_id := 3%N;
     redis.last_delivered_id := 2%N;
     redis.pending :=
       {[ 1%N := {| redis.consumer := "worker-2"%string;
                    redis.idle := 6000 |};
          2%N := {| redis.consumer := "worker-2"%string;
                    redis.idle := 6000 |} ]} |}.

(** The same two entries in the other order. *)
Definition noop_then_garbled : redis.Redis :=
  {| redis.stream :=
       [(1%N, sample_broker.json_encode (sample_broker.record "noop" 0));
        (2%N, [])];
     redis.next_id := 3%N;
     redis.last_delivered_id := 2%N;
     redis.pending :=
       {[ 1%N := {| redis.consumer := "worker-2"%string;
                    redis.idle := 6000 |};
          2%N := {| redis.consumer := "worker-2"%string;
                    redis.idle := 6000 |} ]} |}.

(** One entry, delivered to ["worker-2"] exactly one second ago. *)
Definition idle_one_second : redis.Redis :=
  {| redis.stream :=
       [(1%N, sample_broker.json_encode (sample_broker.record "noop" 0))];
     redis.next_id := 2%N;
     redis.last_delivered_id := 1%N;
     redis.pending :=
       {[ 1%N := {| redis.consumer := "worker-2"%string;
                    redis.idle := 1000 |} ]} |}.

(** A result backend that cannot reach its store. *)
Definition unreachable_store : ResultBackend object :=
  {| result_set _ _ := raise (Exception "ConnectionError") |}.

(** A server without any key, and one where the stream exists with
    another group, each seen by a broker that has not been entered. *)
Definition new_server : RedisBroker_scope.Connection :=
  {| RedisBroker_scope.keyspace := ∅;
     RedisBroker_scope._is_initialized := false;
     RedisBroker_scope._stop := false |}.

Definition server_with_other_group : RedisBroker_scope.Connection :=
  {| RedisBroker_scope.keyspace :=
       {[ "async-queue"%string :=
            {[ "reports"%string := {[ "worker-9"%string ]} ]} ]};
     RedisBroker_scope._is_initialized := false;
     RedisBroker_scope._stop := false |}.

(** A broker that cannot reach its server when it acknowledges, and a
    worker on it with a result backend that has stored nothing yet. *)
Definition unreachable : Broker unit unit :=
  {| broker_read := mret [];
     broker_ack _ := raise (Exception "ConnectionError");
     broker_ack_context _ :=
       asynccontextmanager
         {| before_yield := mret tt;
            after_yield := raise (Exception "ConnectionError") |};
     broker_tasks_healthcheck _ := mret tt |}.

Definition worker_with_results {B Meta : Type} (broker : B)
    : AsyncWorker object pytype B Meta :=
  {| _broker := broker;
     _result_backend := Some [];
     _tasks := router;
     _configuration := sample_broker.configuration 3 1000 5000;
     _concurrency := 1;
     _stop_event := false;
     _active_tasks := ∅;
     send := mkSendStream [] false;
     awaited := [] |}.

(** [async def notify(publisher: Publisher, text: str) -> str], and a
    record that calls it with [text="hi"]. *)
Definition notify : TaskDefinition object pytype :=
  {| name := "notify"%string;
     func _ kwargs :=
       match getitem kwargs "publisher" with
       | Ok the_publisher => Ok (str "published")
       | _ => Raise (Exception "TypeError")
       end;
     signature := [("publisher"%string, Some PublisherClass);
                   ("text"%string, Some Str)];
     arg_types := [];
     kwarg_types := [("text"%string, Str)] |}.

Definition notify_hi : TaskRecord :=
  {| id := "t-4"%string; task_name := "notify"%string; requeue_count := 0;
     enqueue_time := 0; args := [];
     kwargs := [("text"%string, ("str"%string, list_byte_of_string "hi"))] |}.

Definition notify_worker
    : AsyncWorker object pytype redis.Redis RedisBroker.RedisMeta :=
  {| _broker := redis.empty;
     _result_backend := None;
     _tasks := {| tasks := [("notify"%string, notify)] |};
     _configuration := sample_broker.configuration 3 1000 5000;
     _concurrency := 1;
     _stop_event := false;
     _active_tasks := ∅;
     send := mkSendStream [] false;
     awaited := [] |}.

End sample_more.
(** * Properties *)

(** ** Results and loops *)

Lemma result_bind_Ok {A B} (f : A → result B) (m : result A) (b : B) :
  m ≫= f = Ok b ↔ ∃ a, m = Ok a ∧ f a = Ok b.
Proof.
  destruct m as [a|e]; simpl; split.
  - intros H. by exists a.
  - by intros (a' & [= <-] & H).
  - discriminate.
  - by intros (a' & [=] & _).
Qed.

Lemma mapM_Ok_Forall2 {A B} (f : A → result B) (l : list A) (k : list B) :
  mapM f l = Ok k ↔ Forall2 (λ x y, f x = Ok y) l k.
Proof.
  revert k. induction l as [|x l IH]; intros k; simpl.
  - split; [intros [= <-]; constructor | by inversion 1].
  - split.
    + intros H. apply result_bind_Ok in H as (y & Hy & H).
      apply result_bind_Ok in H as (k' & Hk' & [= <-]).
      constructor; [done | by apply IH].
    + inversion 1 as [|? y ? k' Hy Hk']; subst.
      apply IH in Hk'. change ((f x ≫= λ y, mapM f l ≫= λ k, mret (y :: k)) = Ok (y :: k')).
      by rewrite Hy, Hk'.
Qed.

Lemma mapM_Ok_length {A B} (f : A → result B) (l : list A) (k : list B) :
  mapM f l = Ok k → length k = length l.
Proof. intros H%mapM_Ok_Forall2. symmetry. by eapply Forall2_length. Qed.

Lemma zip_take_length {A B} (l1 : list A) (l2 : list B) :
  zip (take (length l2) l1) l2 = zip l1 l2.
Proof.
  revert l2. induction l1 as [|x l1 IH]; intros [|y l2]; simpl; f_equal; auto.
Qed.

Lemma getitem_elem_of {V} (d : dict V) (key : string) (v : V) :
  NoDup (keys d) → (key, v) ∈ d → getitem d key = Ok v.
Proof.
  unfold keys. induction d as [|[k' v'] d IH]; simpl; intros Hnd Hin.
  - by apply elem_of_nil in Hin.
  - apply NoDup_cons in Hnd as [Hk' Hnd].
    apply elem_of_cons in Hin as [[= -> ->]|Hin].
    + by rewrite String.eqb_refl.
    + destruct (String.eqb_spec k' key) as [->|_]; [|by apply IH].
      destruct Hk'. apply list_elem_of_fmap. by exists (key, v).
Qed.

Lemma filter_nil_Forall {A} (P : A → Prop) `{!∀ x, Decision (P x)}
    (l : list A) :
  filter P l = [] ↔ Forall (λ x, ¬ P x) l.
Proof.
  induction l as [|x l IH]; [by split; [constructor|]|].
  rewrite filter_cons. destruct (decide (P x)) as [HP|HP].
  - split; [done|]. by inversion 1.
  - rewrite IH. split; [by constructor|]. by inversion 1.
Qed.

Lemma filter_all {A} (P : A → Prop) `{!∀ x, Decision (P x)} (l : list A) :
  Forall P l → filter P l = l.
Proof.
  induction 1 as [|x l HP _ IH]; [done|].
  by rewrite filter_cons_True, IH.
Qed.

(** ** Serialization *)

Section SerializationFacts.

Context {object pytype : Type}.

Implicit Types (backend default_backend : SerializationBackend object pytype)
               (backends : dict (SerializationBackend object pytype))
               (value : object).

Lemma serialize_loop_find value default_backend
    (l : list (SerializationBackend object pytype)) :
  serialize_loop value default_backend l =
    let backend :=
      match list_find (λ backend, backend_serializable backend value = true) l with
      | Some (_, backend) => backend
      | None => default_backend
      end in
    payload ← backend_serialize backend value;
    mret (backend_id backend, payload).
Proof.
  induction l as [|b l IH]; [done|].
  cbn [serialize_loop list_find]. destruct (backend_serializable b value) eqn:Hb.
  - by rewrite decide_True.
  - rewrite decide_False by done. rewrite IH.
    by destruct (list_find _ l) as [[]|].
Qed.

Lemma selected_backend_claimed value default_backend backends :
  claimed backends value →
  selected_backend value default_backend backends ∈ values backends
  ∧ backend_serializable
      (selected_backend value default_backend backends) value = true.
Proof.
  intros (b & Hb & Hs). unfold selected_backend.
  destruct (list_find _ (values backends)) as [[i b']|] eqn:Hfind.
  - apply list_find_Some in Hfind as (Hi & Hb' & _).
    split; [by eapply list_elem_of_lookup_2 | done].
  - apply list_find_None in Hfind. rewrite Forall_forall in Hfind.
    by destruct (Hfind b Hb).
Qed.

Lemma getitem_backend_id backends backend :
  keyed_by_id backends → backend ∈ values backends →
  getitem backends (backend_id backend) = Ok backend.
Proof.
  intros [Hnd Hkey] Hin. apply list_elem_of_fmap in Hin as ([k b] & -> & Hin).
  simpl. rewrite (Hkey _ _ Hin). by apply getitem_elem_of.
Qed.

End SerializationFacts.

Section SerializeTask.

Context {object pytype : Type}.

Implicit Types (default_backend : SerializationBackend object pytype)
               (backends : dict (SerializationBackend object pytype))
               (definition : TaskDefinition object pytype)
               (value : object).

Lemma serialize_as_spec value default_backend backends :
  serialize value default_backend backends
    = serialize_spec value default_backend backends.
Proof. unfold serialize. by rewrite serialize_loop_find. Qed.

(** C7 (amended). [serialize] is the selection rule of the specification:
    it returns [(backend.id, backend.serialize(value))] for the first
    backend of the registry, in insertion order, whose [serializable] is
    true, and [(default.id, default.serialize(value))] when no backend
    takes the value. It fails exactly when the [serialize] of the
    backend it selected raises, whether that is a registry backend or
    the default one. *)
Theorem serialize_selects_first_serializable value default_backend backends :
  serialize value default_backend backends
    = serialize_spec value default_backend backends
  ∧ is_Ok (serialize value default_backend backends)
    = is_Ok (backend_serialize
               (selected_backend value default_backend backends) value).
Proof.
  split; [apply serialize_as_spec|].
  rewrite serialize_as_spec. unfold serialize_spec. cbn zeta.
  by destruct (backend_serialize _ value).
Qed.

Lemma serialize_claimed value default_backend backends i payload :
  keyed_by_id backends → claimed backends value →
  serialize value default_backend backends = Ok (i, payload) →
  ∃ backend, getitem backends i = Ok backend
             ∧ backend ∈ values backends
             ∧ backend_serializable backend value = true
             ∧ backend_serialize backend value = Ok payload.
Proof.
  intros Hkeyed Hclaimed. rewrite serialize_as_spec.
  destruct (selected_backend_claimed value default_backend backends Hclaimed)
    as [Hin Hs].
  unfold serialize_spec. cbn zeta.
  destruct (backend_serialize _ value) as [p|] eqn:Hp; [|done].
  intros [= <- <-]. eexists. split; [by apply getitem_backend_id | done].
Qed.

Lemma positional_round_trip default_backend backends :
  keyed_by_id backends →
  ∀ (values_ : list object) (types : list pytype) encoded,
    Forall (claimed backends) values_ →
    (length values_ ≤ length types)%nat →
    (∀ i value type, values_ !! i = Some value → types !! i = Some type →
                     decodable backends value type) →
    mapM (λ value, serialize value default_backend backends) values_
      = Ok encoded →
    mapM (λ '((backend_id, value), arg_type),
            backend ← getitem backends backend_id;
            backend_deserialize backend value arg_type)
         (zip encoded types) = Ok values_.
Proof.
  intros Hkeyed values_.
  induction values_ as [|v vs IH]; intros types encoded Hcl Hlen Hdec Henc.
  - apply mapM_Ok_Forall2 in Henc. by inversion Henc.
  - apply mapM_Ok_Forall2 in Henc.
    inversion Henc as [|? [i payload] ? encoded' Hv Hvs]; subst.
    destruct types as [|t types]; [simpl in Hlen; lia|].
    apply Forall_cons in Hcl as [Hclv Hcl].
    destruct (serialize_claimed _ _ _ _ _ Hkeyed Hclv Hv)
      as (b & Hget & Hin & Hs & Hp).
    apply mapM_Ok_Forall2. simpl. constructor.
    + rewrite Hget. simpl. by apply (Hdec 0%nat v t).
    + apply mapM_Ok_Forall2, IH; [done|simpl in Hlen; lia| |by apply mapM_Ok_Forall2].
      intros j. apply (Hdec (S j)).
Qed.

Lemma keyword_round_trip default_backend backends (types : dict pytype) :
  keyed_by_id backends →
  ∀ (items_ : dict object) encoded,
    Forall (λ item, claimed backends item.2) items_ →
    (∀ key value, (key, value) ∈ items_ →
       ∃ type, getitem types key = Ok type ∧ decodable backends value type) →
    mapM (λ '(key, value),
            item ← serialize value default_backend backends;
            mret (key, item)) items_ = Ok encoded →
    mapM (λ '(key, (backend_id, value)),
            backend ← getitem backends backend_id;
            type ← getitem types key;
            v ← backend_deserialize backend value type;
            mret (key, v)) encoded = Ok items_.
Proof.
  intros Hkeyed items_.
  induction items_ as [|[k v] kvs IH]; intros encoded Hcl Hdec Henc.
  - apply mapM_Ok_Forall2 in Henc. by inversion Henc.
  - apply mapM_Ok_Forall2 in Henc.
    inversion Henc as [|? [k' [i payload]] ? encoded' Hv Hvs]; subst.
    apply result_bind_Ok in Hv as ([i' payload'] & Hv & [= <- <- <-]).
    apply Forall_cons in Hcl as [Hclv Hcl]. simpl in Hclv.
    destruct (serialize_claimed _ _ _ _ _ Hkeyed Hclv Hv)
      as (b & Hget & Hin & Hs & Hp).
    destruct (Hdec k v) as (t & Ht & Hd); [left|].
    apply mapM_Ok_Forall2. constructor.
    + rewrite Hget. simpl. rewrite Ht. simpl.
      by rewrite (Hd b Hin Hs payload' Hp).
    + apply mapM_Ok_Forall2, IH; [done| |by apply mapM_Ok_Forall2].
      intros key value Hkv. apply Hdec. by right.
Qed.

(** C2 (amended). For a task instance that has no more positional
    arguments than its definition declares types and whose keyword names
    all have a declared type, with a registry that maps each backend's
    own id to it, when every argument is serialisable by some backend of
    the registry and those backends decode what they encode:
    deserialising the record [serialize_task] produces, with the same
    registry and the task's definition, yields exactly the original
    [(args, kwargs)]. *)
Theorem deserialize_serialize_task (uuid4 : string) (now : datetime)
    (instance : TaskInstance object pytype) default_backend backends record :
  keyed_by_id backends →
  Forall (claimed backends) (instance_args instance) →
  Forall (λ item, claimed backends item.2) (instance_kwargs instance) →
  (length (instance_args instance)
   ≤ length (arg_types (instance_task instance)))%nat →
  (∀ i value type,
     instance_args instance !! i = Some value →
     arg_types (instance_task instance) !! i = Some type →
     decodable backends value type) →
  (∀ key value, (key, value) ∈ instance_kwargs instance →
     ∃ type, getitem (kwarg_types (instance_task instance)) key = Ok type
             ∧ decodable backends value type) →
  serialize_task uuid4 now instance default_backend backends = Ok record →
  deserialize_task (instance_task instance) record backends
    = Ok (instance_args instance, instance_kwargs instance).
Proof.
  intros Hkeyed Hargs Hkwargs Hlen Hdec Hkdec Hser.
  unfold serialize_task in Hser.
  apply result_bind_Ok in Hser as (eargs & Heargs & Hser).
  apply result_bind_Ok in Hser as (ekwargs & Hekwargs & [= <-]).
  unfold deserialize_task, TaskRecord_new. cbn [args kwargs].
  apply result_bind_Ok. eexists. split.
  { exact (positional_round_trip _ _ Hkeyed _ _ _ Hargs Hlen Hdec Heargs). }
  apply result_bind_Ok. eexists. split; [|done].
  exact (keyword_round_trip _ _ _ Hkeyed _ _ Hkwargs Hkdec Hekwargs).
Qed.

(** C8 (amended). When [record.args] is longer than the definition's
    [arg_types], [deserialize_task] decodes the first [len(arg_types)]
    items and never looks at the others: its outcome is the outcome for
    the record cut to [len(arg_types)] positional items, and when it
    returns, the number of decoded positional arguments is
    [len(arg_types)], smaller than [len(record.args)]. *)
Theorem deserialize_task_drops_extra_args definition (record : TaskRecord)
    backends :
  (length (arg_types definition) < length (args record))%nat →
  deserialize_task definition record backends
    = deserialize_task definition
        (truncate_args (length (arg_types definition)) record) backends
  ∧ ∀ args_ kwargs_,
      deserialize_task definition record backends = Ok (args_, kwargs_) →
      length args_ = length (arg_types definition).
Proof.
  intros Hlen. split.
  - unfold deserialize_task, truncate_args. cbn [args kwargs].
    by rewrite zip_take_length.
  - intros args_ kwargs_ H. unfold deserialize_task in H.
    apply result_bind_Ok in H as (a & Ha & H).
    apply result_bind_Ok in H as (k & _ & [= <- <-]).
    apply mapM_Ok_length in Ha. rewrite Ha, length_zip.
    apply Nat.min_r, Nat.lt_le_incl. exact Hlen.
Qed.

End SerializeTask.

(** *** Serialization on the sample data *)

Lemma sample_backends_keyed : keyed_by_id sample.backends.
Proof.
  split.
  - apply NoDup_singleton.
  - intros key backend Hin. apply list_elem_of_singleton in Hin.
    by injection Hin as -> ->.
Qed.

Lemma sample_str_claimed (s : string) : claimed sample.backends (sample.str s).
Proof. exists sample.str_backend. split; [apply list_elem_of_singleton|]; done. Qed.

Lemma sample_str_decodable (s : string) (type : sample.pytype) :
  decodable sample.backends (sample.str s) type.
Proof.
  intros backend Hin _ payload. apply list_elem_of_singleton in Hin as ->.
  simpl. intros [= <-]. by rewrite string_of_list_byte_of_string.
Qed.

(** C7, counterexample: the only backend of the registry takes the value
    and raises, so [serialize] fails although the default backend would
    have encoded the value. *)
Lemma serialize_fails_default_does_not :
  serialize (sample.str "x") sample.default_backend sample.raising_backends
    = Raise (Exception "unsupported")
  ∧ backend_serialize sample.default_backend (sample.str "x")
    = Ok (list_byte_of_string "x").
Proof. split; reflexivity. Qed.

(** C2, counterexample: [noop("extra")] has an argument the string backend
    serialises, and deserialising its record returns no positional
    argument at all. *)
Lemma round_trip_loses_extra_arg :
  Forall (claimed sample.backends) (instance_args sample.noop_extra)
  ∧ serialize_task "5f0c" 1700000000 sample.noop_extra
      sample.default_backend sample.backends = Ok sample.noop_extra_record
  ∧ deserialize_task (instance_task sample.noop_extra)
      sample.noop_extra_record sample.backends
    = Ok ([], [])
  ∧ deserialize_task (instance_task sample.noop_extra)
      sample.noop_extra_record sample.backends
    ≠ Ok (instance_args sample.noop_extra, instance_kwargs sample.noop_extra).
Proof.
  repeat split; try reflexivity.
  - repeat constructor. apply sample_str_claimed.
  - discriminate.
Qed.

Lemma deserialize_serialize_task_witness :
  serialize_task "5f0c" 1700000000 sample.join_x_y
    sample.default_backend sample.backends = Ok sample.join_x_y_record
  ∧ deserialize_task sample.join sample.join_x_y_record sample.backends
    = Ok ([sample.str "x"], [("b"%string, sample.str "y")]).
Proof.
  split; [reflexivity|].
  apply (deserialize_serialize_task "5f0c" 1700000000 sample.join_x_y
           sample.default_backend sample.backends sample.join_x_y_record).
  - apply sample_backends_keyed.
  - repeat constructor. apply sample_str_claimed.
  - repeat constructor. apply sample_str_claimed.
  - simpl. lia.
  - intros [|[|i]] value type; simpl; try discriminate.
    intros [= <-] _. apply sample_str_decodable.
  - intros key value Hin. apply list_elem_of_singleton in Hin.
    injection Hin as -> ->. exists sample.Str.
    split; [reflexivity | apply sample_str_decodable].
  - reflexivity.
Defined.

(** C8, counterexample: a record with two positional items for a task that
    declares one type; the call returns one decoded argument and no error,
    and the second item, whose backend is not even registered, is gone. *)
Lemma deserialize_task_two_items_one_decoded :
  length (args sample.two_args) = 2%nat
  ∧ length (arg_types sample.greet) = 1%nat
  ∧ deserialize_task sample.greet sample.two_args sample.backends
    = Ok ([sample.str "ada"], []).
Proof. repeat split; reflexivity. Qed.

Lemma deserialize_task_drops_extra_args_witness :
  (length (arg_types sample.greet) < length (args sample.two_args))%nat
  ∧ deserialize_task sample.greet sample.two_args sample.backends
    = deserialize_task sample.greet
        (truncate_args 1 sample.two_args) sample.backends.
Proof.
  split; [simpl; lia|].
  apply (deserialize_task_drops_extra_args sample.greet sample.two_args
           sample.backends).
  simpl. lia.
Defined.

(** ** Floats *)

Lemma binary_round_aux_not_negative (mx ex : Z) (lx : SpecFloat.location) :
  not_negative (SpecFloat.binary_round_aux 53 1024 false mx ex lx).
Proof.
  unfold SpecFloat.binary_round_aux.
  destruct (SpecFloat.shr_fexp 53 1024 mx ex lx) as [mrs e1].
  destruct (SpecFloat.shr_fexp 53 1024 _ e1 _) as [mrs' e2].
  destruct (SpecFloat.shr_m mrs'); simpl; [done| |done].
  by destruct (e2 <=? 1024 - 53).
Qed.

Lemma int_of_float_not_negative (x : float) :
  not_negative x → 0 ≤ int_of_float x.
Proof.
  destruct x as [s|s| |s m e]; simpl; try lia. intros ->.
  destruct e as [|p|p]; [done| |].
  - apply Z.shiftl_nonneg. lia.
  - apply Z.shiftr_nonneg. lia.
Qed.

Lemma float_mul_not_negative (x : float) :
  not_negative x → not_negative (float_mul x (float_of_int 1000)).
Proof.
  unfold float_mul. destruct (float_of_int 1000) as [s|s| |s m e] eqn:H1000;
    vm_compute in H1000; try discriminate.
  injection H1000 as <- _ _.
  destruct x as [sx|sx| |sx mx ex]; simpl; try done. intros ->.
  apply binary_round_aux_not_negative.
Qed.

(** The milliseconds of an interval that is not negative are not
    negative. *)
Lemma milliseconds_of_N (interval : N) : 0 ≤ milliseconds (Z.of_N interval).
Proof.
  unfold milliseconds. apply int_of_float_not_negative, float_mul_not_negative.
  unfold total_seconds, int_truediv.
  destruct interval as [|p]; simpl; [done|].
  destruct (SpecFloat.SFdiv_core_binary 53 1024 _ 0 _ 0) as [[mz ez] lz].
  apply binary_round_aux_not_negative.
Qed.

(** ** The stream broker *)

Section RedisBrokerFacts.

Import redis RedisBroker.

Lemma set_pending_id (r : Redis) : set_pending (λ pel, pel) r = r.
Proof. by destruct r. Qed.

Lemma lookup_claim_for (consumer_name : string) (ids : list entry_id)
    (pel : gmap entry_id PendingEntry) (i : entry_id) :
  i ∈ ids →
  claim_for consumer_name ids pel !! i
  = Some {| consumer := consumer_name; idle := 0 |}.
Proof.
  unfold claim_for. induction ids as [|j ids IH]; intros Hin.
  - by apply elem_of_nil in Hin.
  - simpl. destruct (decide (j = i)) as [->|Hne].
    + apply lookup_insert_eq.
    + rewrite lookup_insert_ne by done. apply IH.
      apply elem_of_cons in Hin as [->|Hin]; done.
Qed.

Lemma lookup_claim_for_ne (consumer_name : string) (ids : list entry_id)
    (pel : gmap entry_id PendingEntry) (i : entry_id) :
  i ∉ ids → claim_for consumer_name ids pel !! i = pel !! i.
Proof.
  unfold claim_for. induction ids as [|j ids IH]; intros Hnot; [done|].
  apply not_elem_of_cons in Hnot as [Hne Hnot]. simpl.
  rewrite lookup_insert_ne by done. by apply IH.
Qed.

Lemma is_idle_pending (min_idle_time : Z) (pel : gmap entry_id PendingEntry)
    (i : entry_id) :
  is_idle min_idle_time pel i = true →
  ∃ entry, pel !! i = Some entry ∧ min_idle_time ≤ idle entry.
Proof.
  unfold is_idle. destruct (pel !! i) as [entry|]; [|done].
  intros H%bool_decide_eq_true. by exists entry.
Qed.

Lemma elem_of_autoclaimed (min_idle_time : Z) (count : nat) (r : Redis)
    (e : entry_id * bytes) :
  e ∈ autoclaimed min_idle_time count r →
  e ∈ stream r ∧ is_idle min_idle_time (pending r) e.1 = true.
Proof.
  unfold autoclaimed. intros Hin.
  apply elem_of_take in Hin as (n & Hin & _).
  apply list_elem_of_lookup_2, list_elem_of_filter in Hin as [Hidle Hin].
  apply elem_of_take in Hin as (k & Hin & _).
  apply list_elem_of_lookup_2, list_elem_of_filter in Hin as [_ Hin].
  split; [done|]. by apply Is_true_true.
Qed.

Lemma xautoclaim_only_pending (consumer_name : string) (count : nat)
    (min_idle_time : Z) (r r' : Redis) messages (i : entry_id) :
  pending r !! i = None →
  xautoclaim consumer_name count min_idle_time r = (r', Ok messages) →
  i ∉ messages.*1.
Proof.
  intros Hi Hrun Hin. unfold xautoclaim in Hrun.
  destruct (bool_decide (min_idle_time < 0)); [done|].
  destruct (bool_decide (count < 1)%nat); [done|].
  injection Hrun as _ <-.
  apply list_elem_of_fmap in Hin as ([i' v] & -> & Hin).
  apply elem_of_autoclaimed in Hin as [_ Hidle].
  apply is_idle_pending in Hidle as (entry & Hentry & _).
  simpl in *. by rewrite Hi in Hentry.
Qed.

(** C5. Around any body, [ack_context] acknowledges the task exactly
    when the scope exits normally. If the body returns, [XACK] is issued
    for the task's entry after it: the entry leaves the pending list and
    no later [XAUTOCLAIM] hands it out again. If the body raises, the
    exception propagates, no command is issued (the server is left as
    the body left it) and the entry stays pending. *)
Theorem ack_context_acks_iff_normal_exit {A : Type}
    (task_ : BrokerTask RedisMeta) (body : coroutine Redis A)
    (r r1 : Redis) (outcome : result A) :
  body r = (r1, outcome) →
  (∀ a, outcome = Ok a →
     ∃ r', async_with (ack_context task_) body r = (r', Ok (Some a))
           ∧ xack (meta_id (meta task_)) r1 = (r', Ok tt)
           ∧ pending r' !! meta_id (meta task_) = None
           ∧ ∀ consumer_name count min_idle_time r'' messages,
               xautoclaim consumer_name count min_idle_time r'
                 = (r'', Ok messages) →
               meta_id (meta task_) ∉ messages.*1)
  ∧ (∀ e, outcome = Raise e →
       async_with (ack_context task_) body r = (r1, Raise e)).
Proof.
  intros Hbody. split.
  - intros a ->. eexists. unfold async_with. simpl. rewrite Hbody. simpl.
    split; [reflexivity|]. split; [reflexivity|].
    assert (pending (set_pending (delete (meta_id (meta task_))) r1)
              !! meta_id (meta task_) = None) as Hnone
      by (simpl; apply lookup_delete_eq).
    split; [done|]. intros ?????. by apply xautoclaim_only_pending.
  - intros e ->. unfold async_with. simpl. by rewrite Hbody.
Qed.

Lemma lookup_foldl_delete_None (ids : list entry_id)
    (pel : gmap entry_id PendingEntry) (i : entry_id) :
  pel !! i = None → foldl (λ p j, delete j p) pel ids !! i = None.
Proof.
  revert pel. induction ids as [|j ids IH]; intros pel Hi; [done|].
  simpl. apply IH. destruct (decide (j = i)) as [->|Hne].
  - apply lookup_delete_eq.
  - by rewrite lookup_delete_ne.
Qed.

Lemma lookup_foldl_delete (ids : list entry_id)
    (pel : gmap entry_id PendingEntry) (i : entry_id) :
  i ∈ ids → foldl (λ p j, delete j p) pel ids !! i = None.
Proof.
  revert pel. induction ids as [|j ids IH]; intros pel Hin.
  - by apply elem_of_nil in Hin.
  - simpl. apply elem_of_cons in Hin as [->|Hin]; [|by apply IH].
    apply lookup_foldl_delete_None, lookup_delete_eq.
Qed.

Lemma lookup_foldl_delete_ne (ids : list entry_id)
    (pel : gmap entry_id PendingEntry) (i : entry_id) :
  i ∉ ids → foldl (λ p j, delete j p) pel ids !! i = pel !! i.
Proof.
  revert pel. induction ids as [|j ids IH]; intros pel Hnot; [done|].
  apply not_elem_of_cons in Hnot as [Hne Hnot]. simpl.
  rewrite IH by done. by rewrite lookup_delete_ne.
Qed.

Lemma for_each_app {S A} (l1 l2 : list A) (body : A → coroutine S unit)
    (s : S) :
  for_each (l1 ++ l2) body s = (for_each l1 body;; for_each l2 body) s.
Proof.
  revert s. induction l1 as [|x l1 IH]; intros s; [done|].
  cbn [app for_each]. unfold mbind, coroutine_bind in *.
  destruct (body x s) as [s' [[]|e]]; [|done]. apply IH.
Qed.

Section Maintenance.

Context (json_encode : TaskRecord → bytes)
        (json_decode : bytes → result TaskRecord)
        (self : RedisBroker).

(** [read], once the client has accepted its arguments and the server
    has something to hand over. *)
Lemma read_unfold (r : Redis) :
  take (xread_count (_broker_config self)) (unread r) ≠ [] →
  read json_decode self r
  = (let fresh := take (xread_count (_broker_config self)) (unread r) in
     ({| stream := stream r; next_id := next_id r;
         last_delivered_id := foldl (λ _ e, e.1) (last_delivered_id r) fresh;
         pending := claim_for (_consumer_name self) fresh.*1 (pending r) |},
      mapM (λ '(record_id, record),
              task_ ← json_decode record;
              mret (mkBrokerTask task_ {| meta_id := record_id |}))
           fresh)).
Proof.
  intros Hfresh. unfold read, xreadgroup, mbind, coroutine_bind, lift_result.
  assert (0 < xread_count (_broker_config self))%nat as Hcount.
  { destruct (xread_count (_broker_config self)); [done|lia]. }
  rewrite (bool_decide_false (_ < 1)%nat) by lia.
  rewrite (bool_decide_false (_ < 0))
    by (pose proof (milliseconds_of_N
                      (xread_block_time (_broker_config self))); lia).
  cbn [orb]. fold (unread r).
  by destruct (take _ (unread r)).
Qed.

(** [read] when nothing is handed over: the server is left as it was. *)
Lemma read_nothing (r : Redis) :
  take (xread_count (_broker_config self)) (unread r) = [] →
  ∃ outcome, read json_decode self r = (r, outcome).
Proof.
  intros Hfresh. unfold read, xreadgroup, mbind, coroutine_bind, lift_result.
  destruct (_ || _); [by eexists|]. fold (unread r). rewrite Hfresh.
  destruct (bool_decide _); by eexists.
Qed.

Lemma requeue_decoded (record_id : entry_id) (record : bytes)
    (task_ : TaskRecord) (r : Redis) :
  json_decode record = Ok task_ →
  requeue json_encode json_decode (record_id, record) r =
    ({| stream := stream r
                  ++ [(next_id r,
                       json_encode (increment_requeue_count task_))];
        next_id := N.succ (next_id r);
        last_delivered_id := last_delivered_id r;
        pending := delete record_id (pending r) |}, Ok tt).
Proof. intros Hdec. unfold requeue, lift_result. simpl. by rewrite Hdec. Qed.

Lemma requeue_undecoded (record_id : entry_id) (record : bytes)
    (e : exn) (r : Redis) :
  json_decode record = Raise e →
  requeue json_encode json_decode (record_id, record) r = (r, Raise e).
Proof.
  intros Hdec. unfold requeue, lift_result, mbind, coroutine_bind.
  by rewrite Hdec.
Qed.

Lemma for_each_requeue (messages : list (entry_id * bytes))
    (tasks_ : list TaskRecord) (r : Redis) :
  Forall2 (λ message task_, json_decode message.2 = Ok task_)
          messages tasks_ →
  ∃ r', for_each messages (requeue json_encode json_decode) r = (r', Ok tt)
        ∧ stream r' = stream r ++ requeued json_encode (next_id r) tasks_
        ∧ last_delivered_id r' = last_delivered_id r
        ∧ (next_id r ≤ next_id r')%N
        ∧ pending r' = foldl (λ p j, delete j p) (pending r) messages.*1.
Proof.
  intros H. revert r.
  induction H as [|[i v] t messages tasks_ Hdec _ IH]; intros r.
  - exists r. simpl. rewrite app_nil_r. repeat split; lia.
  - cbn [for_each]. unfold mbind at 1, coroutine_bind.
    rewrite (requeue_decoded i v t r Hdec).
    destruct (IH {| stream := stream r
                      ++ [(next_id r,
                           json_encode (increment_requeue_count t))];
                    next_id := N.succ (next_id r);
                    last_delivered_id := last_delivered_id r;
                    pending := delete i (pending r) |})
      as (r' & Hrun & Hstream & Hlast & Hnext & Hpending).
    exists r'. split; [exact Hrun|]. simpl in *.
    rewrite Hstream, <- app_assoc. repeat split; try done; lia.
Qed.

Lemma claim_pending_records_refused (timeout_interval : timedelta)
    (r : Redis) :
  milliseconds timeout_interval < 0 →
  claim_pending_records json_encode json_decode self timeout_interval r
  = (r, Raise DataError).
Proof.
  intros Hnegative.
  unfold claim_pending_records, mbind, coroutine_bind, xautoclaim.
  by rewrite bool_decide_true.
Qed.

Lemma claim_pending_records_unfold (timeout_interval : timedelta)
    (r : Redis) :
  0 ≤ milliseconds timeout_interval →
  claim_pending_records json_encode json_decode self timeout_interval r
  = for_each (autoclaimed (milliseconds timeout_interval) 1000 r)
      (requeue json_encode json_decode)
      (set_pending
         (claim_for (_consumer_name self)
            (autoclaimed (milliseconds timeout_interval) 1000 r).*1) r).
Proof.
  intros Hvalid.
  unfold claim_pending_records, mbind, coroutine_bind, xautoclaim.
  rewrite bool_decide_false by lia.
  by rewrite (bool_decide_false (1000 < 1)%nat) by lia.
Qed.

(** A turn of the loop, as far as the entries handed over decode. *)
Lemma claim_pending_records_prefix (timeout_interval : timedelta)
    (r : Redis) (requeued_ rest : list (entry_id * bytes))
    (tasks_ : list TaskRecord) :
  0 ≤ milliseconds timeout_interval →
  autoclaimed (milliseconds timeout_interval) 1000 r = requeued_ ++ rest →
  Forall2 (λ message task_, json_decode message.2 = Ok task_)
          requeued_ tasks_ →
  ∃ r', claim_pending_records json_encode json_decode self timeout_interval r
        = for_each rest (requeue json_encode json_decode) r'
        ∧ stream r' = stream r ++ requeued json_encode (next_id r) tasks_
        ∧ last_delivered_id r' = last_delivered_id r
        ∧ (next_id r ≤ next_id r')%N
        ∧ (∀ j, j ∈ requeued_.*1 → pending r' !! j = None)
        ∧ (∀ j, j ∈ rest.*1 → j ∉ requeued_.*1 →
             pending r' !! j
             = Some {| consumer := _consumer_name self; idle := 0 |})
        ∧ (∀ j, j ∉ (requeued_ ++ rest).*1 → pending r' !! j = pending r !! j).
Proof.
  intros Hvalid Hclaimed Hdecoded.
  rewrite claim_pending_records_unfold by done. rewrite Hclaimed.
  destruct (for_each_requeue requeued_ tasks_
              (set_pending
                 (claim_for (_consumer_name self) (requeued_ ++ rest).*1) r)
              Hdecoded) as (r' & Hrun & Hstream & Hlast & Hnext & Hpending).
  exists r'. rewrite for_each_app. unfold mbind at 1, coroutine_bind at 1.
  rewrite Hrun. split; [done|]. split; [done|]. split; [done|].
  split; [done|]. rewrite Hpending. cbn [pending set_pending].
  split; [|split].
  - intros j Hj. by apply lookup_foldl_delete.
  - intros j Hj Hnot. rewrite lookup_foldl_delete_ne by done.
    apply lookup_claim_for. rewrite fmap_app. apply elem_of_app. by right.
  - intros j Hnot. rewrite fmap_app in Hnot.
    apply not_elem_of_app in Hnot as [Hnot1 Hnot2].
    rewrite lookup_foldl_delete_ne by done. apply lookup_claim_for_ne.
    rewrite fmap_app. intros [?|?]%elem_of_app; done.
Qed.

(** The loop after a turn that went through. *)
Lemma _maintenance_claim_pending_records_turn (timeout_interval : timedelta)
    (wakeups : list wakeup) (r r' : Redis) :
  claim_pending_records json_encode json_decode self timeout_interval r
  = (r', Ok tt) →
  _maintenance_claim_pending_records json_encode json_decode self
    timeout_interval wakeups r
  = match wakeups with
    | [] => (r', Ok None)
    | wakeup :: wakeups' =>
        if stop_is_set wakeup then (tick (slept wakeup) r', Ok (Some tt))
        else _maintenance_claim_pending_records json_encode json_decode self
               timeout_interval wakeups' (tick (slept wakeup) r')
    end.
Proof.
  intros Hturn. destruct wakeups as [|wakeup wakeups];
    cbn [_maintenance_claim_pending_records];
    unfold mbind at 1, coroutine_bind at 1; rewrite Hturn; [done|].
  unfold mbind, coroutine_bind, modify. by destruct (stop_is_set wakeup).
Qed.

(** The loop ends with the exception of a turn. *)
Lemma _maintenance_claim_pending_records_raises (timeout_interval : timedelta)
    (wakeups : list wakeup) (r r' : Redis) (e : exn) :
  claim_pending_records json_encode json_decode self timeout_interval r
  = (r', Raise e) →
  _maintenance_claim_pending_records json_encode json_decode self
    timeout_interval wakeups r
  = (r', Raise e).
Proof.
  intros Hturn. destruct wakeups as [|wakeup wakeups];
    cbn [_maintenance_claim_pending_records];
    unfold mbind at 1, coroutine_bind at 1; by rewrite Hturn.
Qed.

Lemma requeue_count_reclaimed (n : nat) (record : TaskRecord) :
  requeue_count (reclaimed n record) = requeue_count record + Z.of_nat n.
Proof.
  induction n as [|n IH]; [simpl; lia|].
  unfold reclaimed in *. rewrite Nat.iter_succ. simpl. rewrite IH. lia.
Qed.

Lemma reclaimed_increment (n : nat) (record : TaskRecord) :
  reclaimed n (increment_requeue_count record) = reclaimed (S n) record.
Proof. unfold reclaimed. by rewrite Nat.iter_succ_r. Qed.

(** One reclamation of the newest entry of the stream, the only one
    that is not acked. *)
Lemma redelivery {A} (k : coroutine Redis A) (timeout_interval : timedelta)
    (elapsed : Z) (entries : list (entry_id * bytes)) (i last : entry_id)
    (record : TaskRecord) :
  (0 < xread_count (_broker_config self))%nat →
  0 ≤ milliseconds timeout_interval ≤ elapsed →
  json_decode (json_encode record) = Ok record →
  Forall (λ e, (e.1 ≤ last)%N) entries →
  (last < i)%N →
  (read json_decode self;;
   modify (tick elapsed);;
   claim_pending_records json_encode json_decode self timeout_interval;;
   k)
    {| stream := entries ++ [(i, json_encode record)];
       next_id := N.succ i; last_delivered_id := last; pending := ∅ |}
  = k {| stream := (entries ++ [(i, json_encode record)])
                   ++ [(N.succ i,
                        json_encode (increment_requeue_count record))];
         next_id := N.succ (N.succ i); last_delivered_id := i;
         pending := ∅ |}.
Proof.
  intros Hcount [Hvalid Helapsed] Hcodec Hold Hlast.
  unfold entry_id in *.
  assert (filter (λ e : N * bytes, (last < e.1)%N)
            (entries ++ [(i, json_encode record)])
          = [(i, json_encode record)]) as Hnew.
  { rewrite filter_app, (proj2 (filter_nil_Forall _ entries)).
    - by rewrite filter_cons_True.
    - eapply Forall_impl; [exact Hold|]. simpl. intros e He. lia. }
  unfold mbind at 1, coroutine_bind at 1.
  rewrite read_unfold; unfold unread; cbn [stream last_delivered_id];
    unfold entry_id in *; rewrite Hnew;
    (destruct (xread_count (_broker_config self)) as [|n]; [lia|]);
    cbn [take]; rewrite take_nil; [|done].
  cbn zeta.
  cbn [mapM]. rewrite Hcodec. cbn [mbind result_bind mret result_ret].
  cbn [next_id pending foldl fst fmap list_fmap claim_for foldr].
  unfold mbind at 1, coroutine_bind at 1, modify, tick, set_pending.
  cbn [stream next_id last_delivered_id pending].
  rewrite fmap_insert, fmap_empty. cbn [consumer idle].
  unfold mbind at 1, coroutine_bind at 1.
  rewrite claim_pending_records_unfold by done.
  match goal with
  | |- context [autoclaimed ?m ?c ?r1] =>
      assert (autoclaimed m c r1 = [(i, json_encode record)]) as ->
  end.
  { unfold autoclaimed. cbn [stream pending]. unfold entry_id in *.
    rewrite filter_app, (proj2 (filter_nil_Forall _ entries)).
    - rewrite filter_cons_True by (simpl; by rewrite lookup_insert_eq).
      cbn [app]. rewrite filter_nil, (take_ge [_]) by (simpl; lia).
      rewrite filter_cons_True, filter_nil; [by rewrite take_ge by (simpl; lia)|].
      unfold is_idle. simpl. rewrite lookup_insert_eq.
      apply bool_decide_pack. simpl. lia.
    - eapply Forall_impl; [exact Hold|]. simpl. intros e He Hsome.
      rewrite lookup_insert_ne in Hsome by lia.
      rewrite lookup_empty in Hsome. by destruct Hsome. }
  cbn [for_each]. unfold mbind at 1, coroutine_bind at 1.
  rewrite (requeue_decoded _ _ _ _ Hcodec). cbn [mret coroutine_ret].
  cbn [stream next_id last_delivered_id pending set_pending fmap list_fmap
       fst claim_for foldr].
  f_equal. f_equal. apply map_eq. intros j.
  destruct (decide (j = i)) as [->|Hne].
  - by rewrite lookup_delete_eq, lookup_empty.
  - by rewrite lookup_delete_ne, !lookup_insert_ne, lookup_empty.
Qed.

Lemma redeliveries_newest (timeout_interval : timedelta) (elapsed : Z)
    (n : nat) (entries : list (entry_id * bytes)) (i last : entry_id)
    (record : TaskRecord) :
  (0 < xread_count (_broker_config self))%nat →
  0 ≤ milliseconds timeout_interval ≤ elapsed →
  (∀ k, (k ≤ n)%nat →
        json_decode (json_encode (reclaimed k record))
        = Ok (reclaimed k record)) →
  Forall (λ e, (e.1 ≤ last)%N) entries →
  (last < i)%N →
  ∃ entries' last',
    redeliveries json_encode json_decode self timeout_interval elapsed n
      {| stream := entries ++ [(i, json_encode record)];
         next_id := N.succ i; last_delivered_id := last; pending := ∅ |}
    = ({| stream :=
            entries' ++ [((i + N.of_nat n)%N,
                          json_encode (reclaimed n record))];
          next_id := N.succ (i + N.of_nat n);
          last_delivered_id := last'; pending := ∅ |}, Ok tt)
    ∧ Forall (λ e, (e.1 ≤ last')%N) entries'
    ∧ (last' < i + N.of_nat n)%N.
Proof.
  intros Hcount Htime. revert entries i last record.
  induction n as [|n IH]; intros entries i last record Hcodec Hold Hlast.
  - exists entries, last. cbn [redeliveries reclaimed Nat.iter].
    rewrite N.add_0_r. done.
  - cbn [redeliveries].
    rewrite (redelivery _ timeout_interval elapsed entries i last record
               Hcount Htime (Hcodec 0%nat (Nat.le_0_l _)) Hold Hlast).
    destruct (IH (entries ++ [(i, json_encode record)]) (N.succ i) i
                (increment_requeue_count record))
      as (entries' & last' & Hrun & Hold' & Hlast').
    + intros k Hk. rewrite reclaimed_increment. apply Hcodec. lia.
    + apply Forall_app. split.
      * eapply Forall_impl; [exact Hold|]. simpl. intros e He.
        unfold entry_id in *. lia.
      * repeat constructor. simpl. unfold entry_id in *. lia.
    + unfold entry_id in *. lia.
    + exists entries', last'. rewrite reclaimed_increment in Hrun.
      replace (i + N.of_nat (S n))%N with (N.succ i + N.of_nat n)%N
        by (unfold entry_id in *; lia).
      done.
Qed.

(** A record that is enqueued and never acked: after [n] reclamations
    the next [read] returns it with its [requeue_count] raised by [n]. *)
Lemma enqueue_redeliveries_read (timeout_interval : timedelta) (elapsed : Z)
    (n : nat) (record : TaskRecord) (r : Redis) :
  unread r = [] → pending r = ∅ → (last_delivered_id r < next_id r)%N →
  (0 < xread_count (_broker_config self))%nat →
  0 ≤ milliseconds timeout_interval ≤ elapsed →
  (∀ k, (k ≤ n)%nat →
        json_decode (json_encode (reclaimed k record))
        = Ok (reclaimed k record)) →
  ∃ r1 r2,
    (enqueue json_encode record;;
     redeliveries json_encode json_decode self timeout_interval elapsed n) r
    = (r1, Ok tt)
    ∧ read json_decode self r1
      = (r2, Ok [mkBrokerTask (reclaimed n record)
                   {| meta_id := (next_id r + N.of_nat n)%N |}])
    ∧ requeue_count (reclaimed n record)
      = requeue_count record + Z.of_nat n.
Proof.
  intros Hunread Hpending Hlast Hcount Htime Hcodec.
  destruct (redeliveries_newest timeout_interval elapsed n (stream r)
              (next_id r) (last_delivered_id r) record Hcount Htime Hcodec)
    as (entries' & last' & Hrun & Hold' & Hlast'); [|done|].
  { apply filter_nil_Forall in Hunread.
    eapply Forall_impl; [exact Hunread|]. simpl. intros e He.
    unfold entry_id in *. lia. }
  eexists _, _. split; [|split].
  - unfold mbind at 1, coroutine_bind at 1, enqueue, xadd.
    unfold mbind at 1, coroutine_bind at 1. cbn [mret coroutine_ret].
    rewrite Hpending. exact Hrun.
  - assert (unread
              {| stream :=
                   entries' ++ [((next_id r + N.of_nat n)%N,
                                 json_encode (reclaimed n record))];
                 next_id := N.succ (next_id r + N.of_nat n);
                 last_delivered_id := last'; pending := ∅ |}
            = [((next_id r + N.of_nat n)%N,
                json_encode (reclaimed n record))]) as Hnew.
    { unfold unread. cbn [stream last_delivered_id]. unfold entry_id in *.
      rewrite filter_app, (proj2 (filter_nil_Forall _ entries')).
      - by rewrite filter_cons_True.
      - eapply Forall_impl; [exact Hold'|]. simpl. intros e He. lia. }
    rewrite read_unfold; rewrite Hnew;
      (destruct (xread_count (_broker_config self)) as [|m]; [lia|]);
      cbn [take]; rewrite take_nil; [|done].
    cbn zeta. cbn [mapM]. rewrite (Hcodec n (Nat.le_refl n)).
    cbn [mbind result_bind mret result_ret]. reflexivity.
  - apply requeue_count_reclaimed.
Qed.

(** C6 (amended). In a turn of the maintenance loop [XAUTOCLAIM] hands
    over pending entries that have been idle for at least
    [int(timeout_interval.total_seconds() * 1000)] milliseconds, and the
    loop takes them in order. As long as they decode, it appends to the
    stream, for each, the encoding of the decoded record with
    [requeue_count] one higher and every other field unchanged, and
    then acks the stale entry, which is pending no more; when all decode,
    the loop goes to sleep and on. The first entry that does not decode
    ends the loop with the decoder's exception: it and the entries after
    it, decodable or not, stay pending for this consumer and nothing is
    added for them. A record has [requeue_count = 0] when
    [serialize_task] creates it, and after [n] reclamations the worker
    reads it with that count raised by [n]: never negative, never
    decreasing. *)
Theorem maintenance_requeues_with_count_plus_one
    (timeout_interval : timedelta) (r : Redis)
    (requeued_ rest : list (entry_id * bytes)) (tasks_ : list TaskRecord) :
  0 ≤ milliseconds timeout_interval →
  autoclaimed (milliseconds timeout_interval) 1000 r = requeued_ ++ rest →
  Forall2 (λ message task_, json_decode message.2 = Ok task_)
          requeued_ tasks_ →
  (∃ r',
     stream r' = stream r ++ requeued json_encode (next_id r) tasks_
     ∧ (∀ j, j ∈ requeued_.*1 → pending r' !! j = None)
     ∧ (∀ j, j ∈ rest.*1 → j ∉ requeued_.*1 →
          pending r' !! j
          = Some {| consumer := _consumer_name self; idle := 0 |})
     ∧ (rest = [] →
        claim_pending_records json_encode json_decode self
          timeout_interval r = (r', Ok tt)
        ∧ ∀ wakeups,
            _maintenance_claim_pending_records json_encode json_decode self
              timeout_interval wakeups r
            = match wakeups with
              | [] => (r', Ok None)
              | wakeup :: wakeups' =>
                  if stop_is_set wakeup
                  then (tick (slept wakeup) r', Ok (Some tt))
                  else _maintenance_claim_pending_records json_encode
                         json_decode self timeout_interval wakeups'
                         (tick (slept wakeup) r')
              end)
     ∧ (∀ i payload rest' e,
          rest = (i, payload) :: rest' → json_decode payload = Raise e →
          claim_pending_records json_encode json_decode self
            timeout_interval r = (r', Raise e)
          ∧ ∀ wakeups,
              _maintenance_claim_pending_records json_encode json_decode
                self timeout_interval wakeups r = (r', Raise e)))
  ∧ (∀ message task_ r0,
       json_decode message.2 = Ok task_ →
       ∃ r1, enqueue json_encode (increment_requeue_count task_) r0
             = (r1, Ok tt)
             ∧ requeue json_encode json_decode message r0
               = xack message.1 r1)
  ∧ (∀ task_,
       increment_requeue_count task_
       = {| id := id task_; task_name := task_name task_;
            requeue_count := requeue_count task_ + 1;
            enqueue_time := enqueue_time task_;
            args := args task_; kwargs := kwargs task_ |})
  ∧ (∀ {object pytype : Type} uuid4 now
       (instance : TaskInstance object pytype) default_backend backends
       record,
       serialize_task uuid4 now instance default_backend backends
         = Ok record →
       requeue_count record = 0)
  ∧ (∀ record elapsed (n : nat) r0,
       unread r0 = [] → pending r0 = ∅ →
       (last_delivered_id r0 < next_id r0)%N →
       (0 < xread_count (_broker_config self))%nat →
       milliseconds timeout_interval ≤ elapsed →
       (∀ k, (k ≤ n)%nat →
             json_decode (json_encode (reclaimed k record))
             = Ok (reclaimed k record)) →
       ∃ r1 r2,
         (enqueue json_encode record;;
          redeliveries json_encode json_decode self timeout_interval
            elapsed n) r0
         = (r1, Ok tt)
         ∧ read json_decode self r1
           = (r2, Ok [mkBrokerTask (reclaimed n record)
                        {| meta_id := (next_id r0 + N.of_nat n)%N |}])
         ∧ requeue_count (reclaimed n record)
           = requeue_count record + Z.of_nat n).
Proof.
  intros Hvalid Hclaimed Hdecoded. split; [|split; [|split; [|split]]].
  - destruct (claim_pending_records_prefix timeout_interval r requeued_ rest
                tasks_ Hvalid Hclaimed Hdecoded)
      as (r' & Hrun & Hstream & _ & _ & Hacked & Hkept & _).
    exists r'. split; [done|]. split; [done|]. split; [done|]. split.
    + intros ->. rewrite Hrun. split; [done|]. intros wakeups.
      by apply _maintenance_claim_pending_records_turn.
    + intros i payload rest' e -> Hfail.
      assert (claim_pending_records json_encode json_decode self
                timeout_interval r = (r', Raise e)) as Hturn.
      { rewrite Hrun. cbn [for_each]. unfold mbind, coroutine_bind.
        by rewrite (requeue_undecoded _ _ _ _ Hfail). }
      split; [done|]. intros wakeups.
      by apply _maintenance_claim_pending_records_raises.
  - intros [i v] task_ r0 Hdec. eexists. split; [reflexivity|].
    by rewrite (requeue_decoded _ _ _ _ Hdec).
  - done.
  - intros object pytype uuid4 now instance default_backend backends
      record Hser. unfold serialize_task in Hser.
    apply result_bind_Ok in Hser as (? & _ & Hser).
    by apply result_bind_Ok in Hser as (? & _ & [= <-]).
  - intros record elapsed n r0 Hunread Hpending Hlast Hcount Helapsed Hcodec.
    by apply enqueue_redeliveries_read.
Qed.

End Maintenance.

End RedisBrokerFacts.

(** *** The stream broker on the sample data *)

Lemma ack_context_acks_iff_normal_exit_witness :
  (∃ r', async_with (RedisBroker.ack_context sample_broker.stale_task)
           (mret tt) sample_broker.stale = (r', Ok (Some tt))
         ∧ redis.pending r' !! 1%N = None)
  ∧ async_with (RedisBroker.ack_context sample_broker.stale_task)
      (raise (A := unit) (Exception "boom")) sample_broker.stale
    = (sample_broker.stale, Raise (Exception "boom")).
Proof.
  split.
  - destruct (ack_context_acks_iff_normal_exit sample_broker.stale_task
                (mret tt) sample_broker.stale sample_broker.stale (Ok tt)
                eq_refl) as [H _].
    destruct (H tt eq_refl) as (r' & Hrun & _ & Hpending & _).
    exists r'. split; [exact Hrun | exact Hpending].
  - destruct (ack_context_acks_iff_normal_exit sample_broker.stale_task
                (raise (A := unit) (Exception "boom")) sample_broker.stale
                sample_broker.stale (Raise (Exception "boom")) eq_refl)
      as [_ H].
    exact (H _ eq_refl).
Defined.

Lemma autoclaimed_stale :
  redis.autoclaimed (milliseconds 5000) 1000 sample_broker.stale
  = [(1%N, sample_broker.json_encode (sample_broker.record "noop" 0))].
Proof. vm_compute. reflexivity. Qed.

Lemma maintenance_requeues_with_count_plus_one_witness :
  (∃ r', RedisBroker.claim_pending_records sample_broker.json_encode
           sample_broker.json_decode sample_broker.self 5000
           sample_broker.stale
         = (r', Ok tt)
         ∧ redis.stream r'
           = [(1%N, sample_broker.json_encode (sample_broker.record "noop" 0));
              (2%N, sample_broker.json_encode (sample_broker.record "noop" 1))]
         ∧ redis.pending r' !! 1%N = None)
  ∧ ∃ r1 r2,
      (RedisBroker.enqueue sample_broker.json_encode
         (sample_broker.record "noop" 0);;
       redeliveries sample_broker.json_encode sample_broker.json_decode
         sample_broker.self 5000 6000 2) redis.empty
      = (r1, Ok tt)
      ∧ RedisBroker.read sample_broker.json_decode sample_broker.self r1
        = (r2, Ok [mkBrokerTask (sample_broker.record "noop" 2)
                     {| RedisBroker.meta_id := 3%N |}]).
Proof.
  destruct (maintenance_requeues_with_count_plus_one
              sample_broker.json_encode sample_broker.json_decode
              sample_broker.self 5000 sample_broker.stale
              [(1%N, sample_broker.json_encode (sample_broker.record "noop" 0))]
              [] [sample_broker.record "noop" 0])
    as [(r' & Hstream & Hacked & _ & Hturn & _) (_ & _ & _ & Hlife)].
  - vm_compute. discriminate.
  - exact autoclaimed_stale.
  - repeat constructor.
  - split.
    + exists r'. split; [exact (proj1 (Hturn eq_refl))|].
      split; [exact Hstream|]. apply Hacked, list_elem_of_here.
    + destruct (Hlife (sample_broker.record "noop" 0) 6000 2%nat redis.empty)
        as (r1 & r2 & Hrun & Hread & _).
      * reflexivity.
      * reflexivity.
      * reflexivity.
      * simpl. lia.
      * vm_compute. discriminate.
      * intros [|[|[|k]]] Hk; try reflexivity. lia.
      * exists r1, r2. split; [exact Hrun | exact Hread].
Defined.

(** C6, counterexample: two entries are stale, the older one is not the
    encoding of a record, the newer one is. [XAUTOCLAIM] hands over both;
    the loop ends with the decoder's exception at the first, and the
    second, which was claimed and decodes, is neither added to the stream
    again nor acked: it stays pending, now for this consumer. And an
    entry need not have been idle for longer than [timeout_interval] to
    be claimed: with an interval of 1001 ms the loop asks for 1000 ms,
    and an entry idle for 1000 ms is handed over. *)
Lemma maintenance_leaves_claimed_entry :
  redis.autoclaimed (milliseconds 5000) 1000 sample_more.garbled_then_noop
  = [(1%N, []);
     (2%N, sample_broker.json_encode (sample_broker.record "noop" 0))]
  ∧ sample_broker.json_decode
      (sample_broker.json_encode (sample_broker.record "noop" 0))
    = Ok (sample_broker.record "noop" 0)
  ∧ (∃ r', RedisBroker._maintenance_claim_pending_records
             sample_broker.json_encode sample_broker.json_decode
             sample_broker.self 5000
             [RedisBroker.mkWakeup 5000 false] sample_more.garbled_then_noop
           = (r', Raise (Exception "DecodeError"))
           ∧ redis.stream r' = redis.stream sample_more.garbled_then_noop
           ∧ redis.pending r' !! 2%N
             = Some {| redis.consumer := "worker-1"; redis.idle := 0 |})
  ∧ milliseconds 1001 = 1000
  ∧ redis.autoclaimed (milliseconds 1001) 1000 sample_more.idle_one_second
    = [(1%N, sample_broker.json_encode (sample_broker.record "noop" 0))].
Proof.
  split; [vm_compute; reflexivity|]. split; [reflexivity|]. split.
  - eexists. split; [vm_compute; reflexivity|]. split; reflexivity.
  - split; vm_compute; reflexivity.
Qed.

(** ** The workers *)

Section WorkerFacts.

Context {object pytype : Type} `{!EqDecision pytype} `{!ResultBackend object}.
Context {B Meta : Type} `{!Broker B Meta}.

Implicit Types (w : AsyncWorker object pytype B Meta)
               (broker_task message : BrokerTask Meta)
               (scope : TaskRecord → coroutine (AsyncWorker object pytype B Meta) object).

Lemma set_broker_id w : set_broker (_broker w) w = w.
Proof. by destruct w. Qed.

Lemma ack_scope_only_awaits :
  only_awaits (@asyncqueue_worker.ack_scope object pytype B Meta).
Proof.
  intros task_ w w' r. unfold asyncqueue_worker.ack_scope, await_func.
  unfold mbind, coroutine_bind, get, lift_result, modify. simpl.
  destruct (getitem _ _) as [definition|]; [|intros [= <- _]; by left].
  destruct (deserialize_task _ _ _) as [[args_ kwargs_]|];
    [|intros [= <- _]; by left].
  intros [= <- _]. by right.
Qed.

Lemma _call_task_fn_only_awaits (Publisher : pytype) (_publisher : object) :
  only_awaits (@aiotaskqueue_worker._call_task_fn object pytype _ B Meta
                 Publisher _publisher).
Proof.
  intros task_ w w' r. unfold aiotaskqueue_worker._call_task_fn, await_func.
  unfold mbind at 1 2 3, coroutine_bind, get, lift_result. simpl.
  destruct (getitem _ _) as [definition|]; [|intros [= <- _]; by left].
  destruct (deserialize_task _ _ _) as [[args_ kwargs_]|];
    [|intros [= <- _]; by left].
  destruct (foldl _ _ _) as [kwargs'|]; [|intros [= <- _]; by left].
  unfold mbind, coroutine_bind, modify. simpl. intros [= <- _]. by right.
Qed.

Lemma execute_with_raises scope broker_task w w' e :
  plain_scope (broker_ack_context broker_task) →
  scope (task broker_task) (activate broker_task w) = (w', Raise e) →
  execute_with scope broker_task w = (set_broker (_broker w') w', Raise e).
Proof.
  intros [Henter Hexit] Hscope.
  unfold execute_with, async_with, zoom_cm, zoom, mbind, coroutine_bind, modify.
  simpl. rewrite Henter. fold (activate broker_task w).
  change (_broker w) with (_broker (activate broker_task w)).
  rewrite set_broker_id, Hscope, Hexit. done.
Qed.

(** A task whose statements returned and whose ack scope was left: the
    executor forgets the task and then hands the value to the result
    backend, whose outcome is the outcome of the step. *)
Lemma execute_with_acked scope broker_task w w1 (value : object) (b : B)
    (suppress : bool) :
  plain_scope (broker_ack_context broker_task) →
  scope (task broker_task) (activate broker_task w) = (w1, Ok value) →
  aexit (broker_ack_context broker_task) None (_broker w1) = (b, Ok suppress) →
  ∃ w2 outcome,
    execute_with scope broker_task w = (w2, outcome)
    ∧ _broker w2 = b
    ∧ _active_tasks w2 = delete (id (task broker_task)) (_active_tasks w1)
    ∧ awaited w2 = awaited w1
    ∧ (_result_backend w1 = None →
       outcome = Ok tt ∧ _result_backend w2 = None)
    ∧ (∀ stored, _result_backend w1 = Some stored →
         ∃ stored', result_set (id (task broker_task)) value stored
                    = (stored', outcome)
                    ∧ _result_backend w2 = Some stored').
Proof.
  intros [Henter _] Hscope Hexit.
  unfold execute_with, async_with, zoom_cm, zoom, mbind, coroutine_bind, modify.
  simpl. rewrite Henter. fold (activate broker_task w).
  change (_broker w) with (_broker (activate broker_task w)).
  rewrite set_broker_id, Hscope, Hexit. simpl.
  unfold get, result_backend_set. simpl.
  destruct (_result_backend w1) as [stored|] eqn:Hbackend; simpl.
  - rewrite Hbackend.
    destruct (result_set (id (task broker_task)) value stored)
      as [stored' outcome] eqn:Hset.
    eexists _, _. split; [reflexivity|]. simpl.
    repeat split; try done. intros ? [= <-]. by exists stored'.
  - eexists _, _. split; [reflexivity|]. simpl. by repeat split.
Qed.





Lemma for_each_raises {S A} (x : A) (xs : list A) (body : A → coroutine S unit)
    (s s' : S) (e : exn) :
  body x s = (s', Raise e) → for_each (x :: xs) body s = (s', Raise e).
Proof.
  intros Hbody. cbn [for_each]. unfold mbind, coroutine_bind. by rewrite Hbody.
Qed.

(** What a failure inside the ack scope leaves behind. *)
Lemma execute_with_failure scope broker_task w w' e :
  only_awaits scope →
  plain_scope (broker_ack_context broker_task) →
  scope (task broker_task) (activate broker_task w) = (w', Raise e) →
  execute_with scope broker_task w = (w', Raise e)
  ∧ _broker w' = _broker w
  ∧ _active_tasks w' !! id (task broker_task) = Some broker_task
  ∧ (awaited w' = awaited w
     ∨ awaited w' = awaited w ++ [id (task broker_task)]).
Proof.
  intros Honly Hplain Hscope.
  rewrite (execute_with_raises _ _ _ _ _ Hplain Hscope), set_broker_id.
  split; [done|].
  destruct (Honly _ _ _ _ Hscope) as [->| ->]; simpl;
    (split; [done|]); (split; [apply lookup_insert_eq|]); auto.
Qed.


End WorkerFacts.

(** [tasks_healthcheck] gives the entry of each task it is called with,
    if the entry is pending, to this consumer with an idle time of zero. *)
Lemma tasks_healthcheck_resets_idle (self : RedisBroker.RedisBroker)
    (tasks_ : list (BrokerTask RedisBroker.RedisMeta))
    (task_ : BrokerTask RedisBroker.RedisMeta) (r : redis.Redis)
    (entry : redis.PendingEntry) :
  task_ ∈ tasks_ →
  redis.pending r !! RedisBroker.meta_id (meta task_) = Some entry →
  0 ≤ redis.idle entry →
  ∃ r', RedisBroker.tasks_healthcheck self tasks_ r = (r', Ok tt)
        ∧ redis.pending r' !! RedisBroker.meta_id (meta task_)
          = Some {| redis.consumer := RedisBroker._consumer_name self;
                    redis.idle := 0 |}.
Proof.
  intros Hin Hpending Hidle.
  unfold RedisBroker.tasks_healthcheck, redis.xclaim.
  rewrite bool_decide_false by lia.
  destruct (map _ tasks_) as [|i ids] eqn:Hids.
  { destruct tasks_; [by apply elem_of_nil in Hin|done]. }
  rewrite <- Hids. eexists. split; [reflexivity|].
  simpl. apply lookup_claim_for, list_elem_of_filter. split.
  - unfold redis.is_idle. rewrite Hpending. by apply bool_decide_pack.
  - apply list_elem_of_fmap. by exists task_.
Qed.

Section ExecutorClaims.

Context {object pytype : Type} `{!EqDecision pytype} `{!ResultBackend object}.
Context {B Meta : Type} `{!Broker B Meta}.
Context (Publisher : pytype) (_publisher : object).

Implicit Types (w : AsyncWorker object pytype B Meta)
               (broker_task : BrokerTask Meta).

(** C3 (amended). Errors are not contained per task. In both workers,
    when the lookup of the task, the deserialisation of its arguments or
    its function raises inside the ack scope, the exception leaves the
    scope and the executor's loop: [_worker] ends with that exception,
    no task after the failing one is awaited, the broker has received
    nothing for the failing task (no ack), and the task is still in
    [_active_tasks]. *)
Theorem _worker_ends_at_first_failure broker_task
    (rest : list (BrokerTask Meta)) w w' e :
  plain_scope (broker_ack_context broker_task) →
  (asyncqueue_worker.ack_scope (task broker_task) (activate broker_task w)
     = (w', Raise e) →
   asyncqueue_worker._worker (broker_task :: rest) w = (w', Raise e)
   ∧ left_behind broker_task w w')
  ∧ (aiotaskqueue_worker._call_task_fn Publisher _publisher
       (task broker_task) (activate broker_task w) = (w', Raise e) →
     aiotaskqueue_worker._worker Publisher _publisher
       (broker_task :: rest) w = (w', Raise e)
     ∧ left_behind broker_task w w').
Proof.
  intros Hplain. split; intros Hscope.
  - destruct (execute_with_failure _ _ _ _ _ ack_scope_only_awaits
                Hplain Hscope) as [Hexec Hleft].
    split; [|exact Hleft]. by apply for_each_raises.
  - destruct (execute_with_failure _ _ _ _ _
                (_call_task_fn_only_awaits Publisher _publisher)
                Hplain Hscope) as [Hexec Hleft].
    split; [|exact Hleft]. by apply for_each_raises.
Qed.


End ExecutorClaims.

(** ** The dispatch loops *)

Section DispatchFacts.

Context {object pytype : Type}.
Context {B Meta : Type} `{!Broker B Meta}.

Implicit Types (w : AsyncWorker object pytype B Meta)
               (message : BrokerTask Meta).

(** [aiotaskqueue]: a message at or over the limit is acked, and then
    sent to the executors like any other. *)
Lemma dispatch_over_limit message w b' :
  max_delivery_attempts (configuration_task (_configuration w))
    ≤ requeue_count (task message) →
  closed (send w) = false →
  broker_ack message (_broker w) = (b', Ok tt) →
  aiotaskqueue_worker.dispatch message w
  = (set_send {| items := items (send w) ++ [message]; closed := false |}
       (set_broker b' w), Ok tt).
Proof.
  intros Hlimit Hopen Hack.
  unfold aiotaskqueue_worker.dispatch, on_broker, send_send, zoom, stream_send.
  unfold mbind, coroutine_bind, get. simpl.
  rewrite bool_decide_true by done. simpl. rewrite Hack. simpl. by rewrite Hopen.
Qed.

(** [aiotaskqueue]: the messages dispatched in a turn are the result of
    the read that was raced against the stop event. *)
Lemma aiotaskqueue_run_loop_dispatches_read (t : turn) (turns : list turn)
    w b' messages :
  read_done t = true →
  broker_read (_broker w) = (b', Ok messages) →
  aiotaskqueue_worker.run_loop (t :: turns) w
  = (for_each messages aiotaskqueue_worker.dispatch;;
     w ← get;
     if _stop_event w then mret Break
     else aiotaskqueue_worker.run_loop turns)
      (set_broker b' (if signalled t then set_stop_event true w else w)).
Proof.
  intros Hdone Hread. cbn [aiotaskqueue_worker.run_loop]. rewrite Hdone.
  unfold aiotaskqueue_worker.stop, on_broker, zoom.
  unfold mbind at 1 2, coroutine_bind at 1 2.
  destruct (signalled t); simpl; by rewrite Hread.
Qed.

(** [asyncqueue]: the loop goes on only once the stop event is set and
    the raced read is done; it then reads a second time and works on
    that second result, on a stream [_stop] has closed. *)
Lemma asyncqueue_run_loop_reads_again (t : turn) (turns : list turn)
    w b1 first b2 second :
  read_done t = true →
  signalled t = true →
  broker_read (_broker w) = (b1, Ok first) →
  broker_read b1 = (b2, Ok second) →
  asyncqueue_worker.run_loop (t :: turns) w
  = (for_each second send_send;;
     w ← get;
     if _stop_event w then mret Break
     else asyncqueue_worker.run_loop turns)
      (set_broker b2
         (set_send {| items := items (send w); closed := true |}
            (set_stop_event true (set_broker b1 w)))).
Proof.
  intros Hdone Hsignal Hfirst Hsecond.
  cbn [asyncqueue_worker.run_loop]. rewrite Hdone, Hsignal.
  unfold asyncqueue_worker._stop, on_broker, zoom, try_, stream_close, modify, get.
  unfold mbind, coroutine_bind. simpl. rewrite Hfirst. simpl. by rewrite Hsecond.
Qed.

Lemma for_each_send_closed (messages : list (BrokerTask Meta)) w :
  closed (send w) = true →
  ∃ r, for_each messages send_send w = (w, r)
       ∧ r = match messages with
             | [] => Ok tt
             | _ :: _ => Raise ClosedResourceError
             end.
Proof.
  intros Hclosed. destruct messages as [|message messages].
  - by eexists.
  - eexists. split; [|done]. cbn [for_each].
    unfold mbind, coroutine_bind, send_send, zoom, stream_send.
    rewrite Hclosed. by destruct w.
Qed.

End DispatchFacts.

Section Construction.

Context {object pytype : Type}.
Context {B Meta : Type} `{!Broker B Meta}.

(** C9 (amended). Constructing a worker checks nothing about the
    configuration: in both workers [__init__] succeeds for every
    configuration, whatever its [healthcheck_interval] and
    [timeout_interval], and stores the configuration as given. *)
Theorem __init___accepts_any_intervals (broker : B)
    (result_backend : option (list (string * object)))
    (tasks_ : TaskRouter object pytype)
    (configuration : Configuration object pytype) (concurrency : nat) :
  (∃ w : AsyncWorker object pytype B Meta,
     asyncqueue_worker.__init__ broker result_backend tasks_ configuration
       concurrency = Ok w
     ∧ _configuration w = configuration)
  ∧ (∃ w : AsyncWorker object pytype B Meta,
       aiotaskqueue_worker.__init__ broker result_backend tasks_
         configuration concurrency = Ok w
       ∧ _configuration w = configuration).
Proof. split; eexists; (split; [reflexivity|done]). Qed.

End Construction.

(** ** The workers on the sample data *)

Lemma RedisBroker_ack_context_plain
    (task_ : BrokerTask RedisBroker.RedisMeta) :
  plain_scope (RedisBroker.ack_context task_).
Proof. split; reflexivity. Qed.

(** C9, counterexample: a worker is constructed from a configuration whose
    [healthcheck_interval] (5 s) is larger than its [timeout_interval]
    (1 s). *)
Lemma __init___with_healthcheck_over_timeout :
  timeout_interval
    (configuration_task (sample_broker.configuration 3 5000 1000))
  ≤ healthcheck_interval
      (configuration_task (sample_broker.configuration 3 5000 1000))
  ∧ asyncqueue_worker.__init__ sample_broker.stale None sample.router
      (sample_broker.configuration 3 5000 1000) 1
    = Ok (sample_worker.worker sample_broker.stale 3 5000 1000).
Proof. split; [simpl; lia | reflexivity]. Qed.

(** C1, at the failing input. With [max_delivery_attempts = 3], the
    [aiotaskqueue] loop reads a record whose [requeue_count] is 3: it acks
    the entry, which is pending no more, and still sends the task to the
    executors. *)
Theorem run_loop_sends_task_over_limit :
  requeue_count (task sample_broker.poisoned_task) = 3
  ∧ ∃ w', aiotaskqueue_worker.run_loop [mkTurn true true]
            (sample_worker.worker sample_broker.poisoned 3 1000 5000)
          = (w', Ok Break)
          ∧ items (send w') = [sample_broker.poisoned_task]
          ∧ redis.pending (_broker w') !! 1%N = None.
Proof.
  split; [reflexivity|]. eexists. split; [vm_compute; reflexivity|].
  split; reflexivity.
Qed.

(** C4, at the failing input. The stream holds two unread entries and
    reads return one entry at a time. The [asyncqueue] loop waits for the
    raced read and the stop event together, reads again, and fails on the
    closed stream: both entries have been delivered to this consumer and
    none was sent to the executors; the entry the raced read returned is
    lost to the worker. *)
Theorem asyncqueue_run_loop_drops_raced_read :
  ∃ w', asyncqueue_worker.run_loop [mkTurn true true]
          (sample_worker.worker sample_broker.two_unread 3 1000 5000)
        = (w', Raise ClosedResourceError)
        ∧ items (send w') = []
        ∧ redis.pending (_broker w') !! 1%N
          = Some {| redis.consumer := "worker-1"; redis.idle := 0 |}
        ∧ redis.pending (_broker w') !! 2%N
          = Some {| redis.consumer := "worker-1"; redis.idle := 0 |}.
Proof.
  eexists. split; [vm_compute; reflexivity|]. repeat split; reflexivity.
Qed.

(** C3, counterexample: the executor receives a task whose function
    raises and then a task that would succeed. [_worker] ends with the
    exception; the second task is never awaited and nothing is acked. *)
Lemma _worker_does_not_reach_second_task :
  ∃ w', asyncqueue_worker._worker
          [sample_broker.failing_task; sample_broker.noop_task]
          (sample_worker.worker sample_broker.two_delivered 3 1000 5000)
        = (w', Raise (Exception "boom"))
        ∧ awaited w' = ["failing"%string]
        ∧ _broker w' = sample_broker.two_delivered.
Proof.
  eexists. split; [vm_compute; reflexivity|]. split; reflexivity.
Qed.

Lemma _worker_ends_at_first_failure_witness :
  asyncqueue_worker._worker
    [sample_broker.failing_task; sample_broker.noop_task]
    (sample_worker.worker sample_broker.two_delivered 3 1000 5000)
  = (set_awaited ["failing"%string]
       (activate sample_broker.failing_task
          (sample_worker.worker sample_broker.two_delivered 3 1000 5000)),
     Raise (Exception "boom")).
Proof.
  apply (_worker_ends_at_first_failure sample.PublisherClass
           sample.the_publisher sample_broker.failing_task
           [sample_broker.noop_task]
           (sample_worker.worker sample_broker.two_delivered 3 1000 5000)).
  - apply RedisBroker_ack_context_plain.
  - reflexivity.
Defined.


(** * Further properties *)

(** ** Lists of results and dictionaries *)

Lemma mapM_Raise_at {A B} (f : A → result B) (l : list A) (i : nat) (x : A)
    (e : exn) :
  l !! i = Some x → f x = Raise e →
  (∀ j y, (j < i)%nat → l !! j = Some y → is_Ok (f y) = true) →
  mapM f l = Raise e.
Proof.
  revert i. induction l as [|y l IH]; intros i Hx Hfx Hbefore; [done|].
  change (mapM f (y :: l)) with (f y ≫= λ z, mapM f l ≫= λ k, mret (z :: k)).
  destruct i as [|i]; simpl in Hx.
  - injection Hx as ->. by rewrite Hfx.
  - assert (is_Ok (f y) = true) as Hy by (apply (Hbefore 0%nat); [lia|done]).
    destruct (f y) as [z|]; [|done]. simpl.
    rewrite (IH i Hx Hfx); [done|].
    intros j y' Hj Hy'. apply (Hbefore (S j)); [lia|done].
Qed.

Lemma lookup_zip_Some {A B} (l : list A) (k : list B) (i : nat) (x : A) (y : B) :
  l !! i = Some x → k !! i = Some y → zip l k !! i = Some (x, y).
Proof.
  revert k i. induction l as [|x' l IH]; intros [|y' k] [|i]; simpl; try done.
  - by intros [= ->] [= ->].
  - apply IH.
Qed.

Lemma is_Ok_mapM {A B} (f : A → result B) (l : list A) :
  is_Ok (mapM f l) = forallb (λ x, is_Ok (f x)) l.
Proof.
  induction l as [|x l IH]; [done|].
  change (mapM f (x :: l)) with (f x ≫= λ z, mapM f l ≫= λ k, mret (z :: k)).
  simpl. destruct (f x); [|done]. simpl. rewrite <- IH.
  by destruct (mapM f l).
Qed.

Lemma getitem_not_in {V} (d : dict V) (key : string) :
  key ∉ keys d → getitem d key = Raise (KeyError key).
Proof.
  unfold keys. induction d as [|[k v] d IH]; simpl; intros Hnot; [done|].
  apply not_elem_of_cons in Hnot as [Hne Hnot].
  destruct (String.eqb_spec k key) as [->|_]; [done | by apply IH].
Qed.

Lemma getitem_Ok_elem_of {V} (d : dict V) (key : string) (v : V) :
  getitem d key = Ok v → (key, v) ∈ d.
Proof.
  induction d as [|[k v'] d IH]; simpl; [done|].
  destruct (String.eqb_spec k key) as [->|_].
  - intros [= ->]. apply list_elem_of_here.
  - intros H. apply list_elem_of_further. by apply IH.
Qed.

(** ** Serialization *)

Section SerializationMore.

Context {object pytype : Type}.

Implicit Types (default_backend : SerializationBackend object pytype)
               (backends : dict (SerializationBackend object pytype))
               (definition : TaskDefinition object pytype)
               (instance : TaskInstance object pytype).

Lemma deserialize_task_steps definition (record : TaskRecord) backends :
  deserialize_task definition record backends
  = (args_ ← mapM (decode_arg backends)
                (zip (args record) (arg_types definition));
     kwargs_ ← mapM (decode_kwarg definition backends) (kwargs record);
     mret (args_, kwargs_)).
Proof. reflexivity. Qed.

(** X1. A record made by [serialize_task] carries the given id and time,
    the name of the task and a requeue count of zero; it has one item per
    positional argument and one per keyword argument, under the same
    names in the same order, and each item is what [serialize] returns
    for that argument alone. *)
Theorem serialize_task_record (uuid4 : string) (now : datetime) instance
    default_backend backends (record : TaskRecord) :
  serialize_task uuid4 now instance default_backend backends = Ok record →
  id record = uuid4
  ∧ task_name record = name (instance_task instance)
  ∧ enqueue_time record = now
  ∧ requeue_count record = 0
  ∧ Forall2 (λ value item, serialize value default_backend backends = Ok item)
      (instance_args instance) (args record)
  ∧ Forall2 (λ argument item,
               argument.1 = item.1
               ∧ serialize argument.2 default_backend backends = Ok item.2)
      (instance_kwargs instance) (kwargs record).
Proof.
  intros Hser. unfold serialize_task in Hser.
  apply result_bind_Ok in Hser as (eargs & Heargs & Hser).
  apply result_bind_Ok in Hser as (ekwargs & Hekwargs & [= <-]).
  simpl. repeat split.
  - by apply mapM_Ok_Forall2.
  - apply mapM_Ok_Forall2 in Hekwargs.
    eapply Forall2_impl; [exact Hekwargs|].
    intros [key value] [key' item] H. simpl in H.
    apply result_bind_Ok in H as (item' & Hitem & [= <- <-]). done.
Qed.

(** X2. [serialize_task] returns a record exactly when [serialize]
    succeeds on every positional and every keyword argument; and when the
    first positional argument on which [serialize] fails raises [e],
    [serialize_task] raises [e]. *)
Theorem serialize_task_fails_with_argument (uuid4 : string) (now : datetime)
    instance default_backend backends :
  is_Ok (serialize_task uuid4 now instance default_backend backends)
  = forallb (λ value, is_Ok (serialize value default_backend backends))
      (instance_args instance)
    && forallb (λ argument,
                  is_Ok (serialize argument.2 default_backend backends))
         (instance_kwargs instance)
  ∧ ∀ i value e,
      instance_args instance !! i = Some value →
      serialize value default_backend backends = Raise e →
      (∀ j earlier, (j < i)%nat → instance_args instance !! j = Some earlier →
         is_Ok (serialize earlier default_backend backends) = true) →
      serialize_task uuid4 now instance default_backend backends = Raise e.
Proof.
  split.
  - unfold serialize_task. rewrite <- is_Ok_mapM.
    destruct (mapM _ (instance_args instance)) as [eargs|]; [|done]. simpl.
    transitivity
      (is_Ok (mapM (λ '(key, value),
                      item ← serialize value default_backend backends;
                      mret (key, item)) (instance_kwargs instance))).
    { by destruct (mapM _ (instance_kwargs instance)). }
    rewrite is_Ok_mapM.
    induction (instance_kwargs instance) as [|[key value] l IH]; [done|].
    simpl. rewrite IH.
    by destruct (serialize value default_backend backends).
  - intros i value e Hi He Hbefore. unfold serialize_task.
    by rewrite (mapM_Raise_at _ _ i value e Hi He Hbefore).
Qed.

(** X3. A positional item whose backend id is not a key of the registry
    makes [deserialize_task] raise [KeyError] with that id, when the item
    is within the declared types and the items before it decode. *)
Theorem deserialize_task_unknown_backend definition (record : TaskRecord)
    backends (i : nat) (backend_id_ : SerializationBackendId)
    (payload : bytes) :
  args record !! i = Some (backend_id_, payload) →
  (i < length (arg_types definition))%nat →
  backend_id_ ∉ keys backends →
  (∀ j item, (j < i)%nat →
     zip (args record) (arg_types definition) !! j = Some item →
     is_Ok (decode_arg backends item) = true) →
  deserialize_task definition record backends
  = Raise (KeyError backend_id_).
Proof.
  intros Hitem Hi Hunknown Hbefore. rewrite deserialize_task_steps.
  destruct (lookup_lt_is_Some_2 (arg_types definition) i Hi) as [type Htype].
  rewrite (mapM_Raise_at _ _ i ((backend_id_, payload), type)
             (KeyError backend_id_)); [done| | |done].
  - by apply lookup_zip_Some.
  - simpl. by rewrite getitem_not_in.
Qed.

(** X4. A keyword item whose name has no declared type makes
    [deserialize_task] raise [KeyError] with that name, when its backend
    is registered, the positional items decode and the keyword items
    before it decode. *)
Theorem deserialize_task_undeclared_keyword definition (record : TaskRecord)
    backends (i : nat) (key : string) (backend_id_ : SerializationBackendId)
    (payload : bytes) :
  kwargs record !! i = Some (key, (backend_id_, payload)) →
  is_Ok (getitem backends backend_id_) = true →
  key ∉ keys (kwarg_types definition) →
  is_Ok (mapM (decode_arg backends)
           (zip (args record) (arg_types definition))) = true →
  (∀ j item, (j < i)%nat → kwargs record !! j = Some item →
     is_Ok (decode_kwarg definition backends item) = true) →
  deserialize_task definition record backends = Raise (KeyError key).
Proof.
  intros Hitem Hbackend Hkey Hargs Hbefore. rewrite deserialize_task_steps.
  destruct (mapM (decode_arg backends) _) as [args_|]; [|done]. simpl.
  rewrite (mapM_Raise_at _ _ i (key, (backend_id_, payload)) (KeyError key));
    [done|done| |done].
  simpl. destruct (getitem backends backend_id_) as [backend|]; [|done].
  simpl. by rewrite getitem_not_in.
Qed.

(** X5. When [deserialize_task] returns, it returns as many positional
    values as the shorter of [record.args] and [arg_types] has entries,
    and one keyword value per keyword item of the record, under the same
    names in the same order. *)
Theorem deserialize_task_shape definition (record : TaskRecord) backends
    (args_ : list object) (kwargs_ : dict object) :
  deserialize_task definition record backends = Ok (args_, kwargs_) →
  length args_
  = (length (args record) `min` length (arg_types definition))%nat
  ∧ keys kwargs_ = keys (kwargs record).
Proof.
  rewrite deserialize_task_steps. intros H.
  apply result_bind_Ok in H as (a & Ha & H).
  apply result_bind_Ok in H as (k & Hk & [= <- <-]). split.
  - apply mapM_Ok_length in Ha. by rewrite Ha, length_zip.
  - apply mapM_Ok_Forall2 in Hk. unfold keys.
    induction Hk as [|[key [b v]] [key' value] l l' Hx _ IH]; [done|].
    rewrite !fmap_cons. f_equal; [|exact IH]. simpl in Hx.
    apply result_bind_Ok in Hx as (? & _ & Hx).
    apply result_bind_Ok in Hx as (? & _ & Hx).
    apply result_bind_Ok in Hx as (? & _ & Hx). by injection Hx as -> _.
Qed.

End SerializationMore.

(** *** Serialization on the sample data, continued *)

Lemma serialize_task_record_witness :
  Forall2 (λ value item,
             serialize value sample.default_backend sample.backends = Ok item)
    (instance_args sample.join_x_y) (args sample.join_x_y_record)
  ∧ keys (kwargs sample.join_x_y_record) = ["b"%string].
Proof.
  destruct (serialize_task_record "5f0c" 1700000000 sample.join_x_y
              sample.default_backend sample.backends sample.join_x_y_record
              eq_refl) as (_ & _ & _ & _ & Hargs & _).
  split; [exact Hargs | reflexivity].
Defined.

Lemma serialize_task_fails_with_argument_witness :
  serialize_task "5f0c" 1700000000 sample_more.noop_publisher
    sample.default_backend sample.backends
  = Raise (Exception "not serializable").
Proof.
  destruct (serialize_task_fails_with_argument "5f0c" 1700000000
              sample_more.noop_publisher sample.default_backend
              sample.backends) as [_ H].
  apply (H 1%nat sample.the_publisher); [reflexivity|reflexivity|].
  intros [|j] earlier Hj; [|lia]. intros [= <-]. reflexivity.
Defined.

Lemma deserialize_task_unknown_backend_witness :
  deserialize_task sample.join sample.two_args sample.backends
  = Raise (KeyError "unknown").
Proof.
  apply (deserialize_task_unknown_backend sample.join sample.two_args
           sample.backends 1%nat "unknown"%string []).
  - reflexivity.
  - simpl. lia.
  - intros Hin. apply list_elem_of_singleton in Hin. discriminate.
  - intros [|j] item Hj; [|lia]. intros [= <-]. reflexivity.
Defined.

Lemma deserialize_task_undeclared_keyword_witness :
  deserialize_task sample.join sample_more.undeclared_keyword sample.backends
  = Raise (KeyError "c").
Proof.
  apply (deserialize_task_undeclared_keyword sample.join
           sample_more.undeclared_keyword sample.backends 1%nat "c"%string
           "str"%string (list_byte_of_string "z")).
  - reflexivity.
  - reflexivity.
  - intros Hin. apply elem_of_cons in Hin as [Hin|Hin]; [discriminate|].
    apply list_elem_of_singleton in Hin. discriminate.
  - reflexivity.
  - intros [|j] item Hj; [|lia]. intros [= <-]. reflexivity.
Defined.

Lemma deserialize_task_shape_witness :
  deserialize_task sample.join sample.join_x_y_record sample.backends
  = Ok ([sample.str "x"], [("b"%string, sample.str "y")])
  ∧ keys [("b"%string, sample.str "y")] = keys (kwargs sample.join_x_y_record).
Proof.
  split; [reflexivity|].
  apply (deserialize_task_shape sample.join sample.join_x_y_record
           sample.backends [sample.str "x"]). reflexivity.
Defined.

(** ** The stream broker, continued *)

Section RedisBrokerMore.

Import redis RedisBroker.

Context (json_encode : TaskRecord → bytes)
        (json_decode : bytes → result TaskRecord)
        (self : RedisBroker).

Lemma read_refused (r : Redis) :
  xread_count (_broker_config self) = 0%nat →
  read json_decode self r = (r, Raise DataError).
Proof.
  intros Hcount. unfold read, xreadgroup, mbind, coroutine_bind.
  by rewrite Hcount.
Qed.

Lemma read_timeout (r : Redis) :
  unread r = [] →
  (0 < xread_count (_broker_config self))%nat →
  0 < milliseconds (Z.of_N (xread_block_time (_broker_config self))) →
  read json_decode self r = (r, Ok []).
Proof.
  intros Hunread Hcount Hblock.
  unfold read, xreadgroup, mbind, coroutine_bind, lift_result.
  rewrite (bool_decide_false (_ < 1)%nat) by lia.
  rewrite (bool_decide_false (_ < 0)) by lia. cbn [orb].
  fold (unread r). rewrite Hunread, take_nil.
  by rewrite bool_decide_false by lia.
Qed.

Lemma read_nothing_Ok (r r' : Redis) (tasks_ : list (BrokerTask RedisMeta)) :
  take (xread_count (_broker_config self)) (unread r) = [] →
  read json_decode self r = (r', Ok tasks_) →
  tasks_ = [].
Proof.
  intros Hfresh. unfold read, xreadgroup, mbind, coroutine_bind, lift_result.
  destruct (_ || _); [done|]. fold (unread r). rewrite Hfresh.
  destruct (bool_decide _); [done|]. by intros [= _ <-].
Qed.

Lemma take_nil_drop {A} (n : nat) (l : list A) : take n l = [] → drop n l = l.
Proof. by destruct n, l. Qed.

(** X6. Enqueue, then read. On a server where nothing is left unread, a
    record that is enqueued is what the next [read] returns: one task
    with that record, under the id the server gave the entry, which is
    now pending for this consumer with an idle time of zero. *)
Theorem enqueue_then_read (task_ : TaskRecord) (r : Redis) :
  unread r = [] →
  (last_delivered_id r < next_id r)%N →
  (0 < xread_count (_broker_config self))%nat →
  json_decode (json_encode task_) = Ok task_ →
  ∃ r1 r2,
    enqueue json_encode task_ r = (r1, Ok tt)
    ∧ read json_decode self r1
      = (r2, Ok [mkBrokerTask task_ {| meta_id := next_id r |}])
    ∧ pending r2 !! next_id r
      = Some {| consumer := _consumer_name self; idle := 0 |}
    ∧ unread r2 = [].
Proof.
  intros Hunread Hlast Hcount Hcodec. eexists _, _.
  split; [reflexivity|].
  assert (unread
            {| stream := stream r ++ [(next_id r, json_encode task_)];
               next_id := N.succ (next_id r);
               last_delivered_id := last_delivered_id r;
               pending := pending r |}
          = [(next_id r, json_encode task_)]) as Hnew.
  { unfold unread in *. cbn [stream last_delivered_id].
    unfold entry_id in *. rewrite filter_app, Hunread. simpl.
    rewrite filter_cons_True by done. done. }
  rewrite read_unfold; rewrite Hnew;
    (destruct (xread_count (_broker_config self)) as [|n]; [lia|]);
    cbn [take]; rewrite take_nil; [|done].
  cbn zeta. simpl. rewrite Hcodec. simpl.
  split; [reflexivity|]. split; [apply lookup_insert_eq|].
  unfold unread in *. cbn [stream last_delivered_id]. unfold entry_id in *.
  apply filter_nil_Forall, Forall_app. split.
  - apply filter_nil_Forall in Hunread.
    eapply Forall_impl; [exact Hunread|]. simpl. intros e He. lia.
  - repeat constructor. simpl. lia.
Qed.

(** X7. [read] hands out the oldest unread entries, at most [xread_count]
    of them, in order: each returned task is the decoding of one of these
    entries and carries its id, and each is then pending for this
    consumer with an idle time of zero. With [xread_count = 0] the client
    refuses the call: [read] raises [DataError] and the server is left as
    it was. When nothing is unread, the count is positive and the block
    time in milliseconds is positive, [read] returns no task after that
    time and leaves the server as it was. *)
Theorem read_returns_oldest_unread (r : Redis) :
  (xread_count (_broker_config self) = 0%nat →
   read json_decode self r = (r, Raise DataError))
  ∧ (unread r = [] →
     (0 < xread_count (_broker_config self))%nat →
     0 < milliseconds (Z.of_N (xread_block_time (_broker_config self))) →
     read json_decode self r = (r, Ok []))
  ∧ ∀ r' tasks_,
      read json_decode self r = (r', Ok tasks_) →
      (length tasks_ ≤ xread_count (_broker_config self))%nat
      ∧ Forall2 (λ e task_,
                   json_decode e.2 = Ok (task task_)
                   ∧ meta_id (meta task_) = e.1)
          (take (xread_count (_broker_config self)) (unread r)) tasks_
      ∧ ∀ task_, task_ ∈ tasks_ →
          pending r' !! meta_id (meta task_)
          = Some {| consumer := _consumer_name self; idle := 0 |}.
Proof.
  split; [apply read_refused|]. split; [apply read_timeout|].
  intros r' tasks_.
  destruct (take (xread_count (_broker_config self)) (unread r))
    as [|first others] eqn:Hfresh.
  { intros Hread. apply (read_nothing_Ok _ _ _ Hfresh) in Hread as ->.
    split; [simpl; lia|]. split; [constructor|].
    intros task_ Hin. by apply elem_of_nil in Hin. }
  assert (take (xread_count (_broker_config self)) (unread r) ≠ [])
    as Hsome by (by rewrite Hfresh).
  rewrite <- Hfresh. clear first others Hfresh.
  rewrite (read_unfold json_decode self r Hsome).
  cbn zeta. intros [= <- Hdecoded].
  apply mapM_Ok_Forall2 in Hdecoded.
  assert (Forall2 (λ e task_,
                     json_decode e.2 = Ok (task task_)
                     ∧ meta_id (meta task_) = e.1)
            (take (xread_count (_broker_config self)) (unread r)) tasks_)
    as Hall.
  { eapply Forall2_impl; [exact Hdecoded|].
    intros [i payload] task_ H. simpl in *.
    apply result_bind_Ok in H as (decoded & Hdec & [= <-]). by split. }
  split; [|split; [exact Hall|]].
  + rewrite <- (Forall2_length _ _ _ Hall), length_take. lia.
  + intros task_ Hin. simpl. apply lookup_claim_for.
    apply list_elem_of_lookup in Hin as [k Hk].
    destruct (Forall2_lookup_r _ _ _ _ _ Hall Hk) as (e & He & _ & Hid).
    rewrite Hid. apply list_elem_of_fmap. exists e. split; [done|].
    by eapply list_elem_of_lookup_2.
Qed.

(** X8. When an entry of the batch does not decode, [read] raises, and
    only after the server has delivered the batch: the stream is as it
    was and every entry of the batch, decodable or not, is pending for
    this consumer. *)
Theorem read_raises_after_delivery (r : Redis) (i : entry_id)
    (payload : bytes) :
  (i, payload) ∈ take (xread_count (_broker_config self)) (unread r) →
  is_Ok (json_decode payload) = false →
  ∃ r' e,
    read json_decode self r = (r', Raise e)
    ∧ stream r' = stream r
    ∧ ∀ j, j ∈ (take (xread_count (_broker_config self)) (unread r)).*1 →
        pending r' !! j
        = Some {| consumer := _consumer_name self; idle := 0 |}.
Proof.
  intros Hin Hfail.
  rewrite (read_unfold json_decode self r)
    by (intros Hnone; rewrite Hnone in Hin; by apply elem_of_nil in Hin).
  cbn zeta.
  destruct (mapM _ (take _ (unread r))) as [tasks_|e] eqn:Hdecoded.
  - apply mapM_Ok_Forall2 in Hdecoded.
    apply list_elem_of_lookup in Hin as [k Hk].
    destruct (Forall2_lookup_l _ _ _ _ _ Hdecoded Hk) as (task_ & _ & H).
    simpl in H. by destruct (json_decode payload).
  - eexists _, e. split; [reflexivity|]. split; [done|].
    intros j Hj. simpl. by apply lookup_claim_for.
Qed.

Lemma foldl_last_id_ge (a : entry_id) (l : list (entry_id * bytes)) :
  StronglySorted N.lt (a :: l.*1) →
  (a ≤ foldl (λ _ e, e.1) a l)%N.
Proof.
  revert a. induction l as [|b l IH]; intros a Hsorted; [simpl; lia|].
  rewrite fmap_cons in Hsorted.
  apply StronglySorted_inv in Hsorted as [Hl Ha].
  apply Forall_cons in Ha as [Hab _].
  specialize (IH b.1 Hl). cbn [foldl]. lia.
Qed.

Lemma filter_after_last (x : entry_id) (t d : list (entry_id * bytes)) :
  StronglySorted N.lt (t ++ d).*1 →
  Forall (λ e, (x < e.1)%N) d →
  filter (λ e, (foldl (λ _ e, e.1) x t < e.1)%N) (t ++ d) = d.
Proof.
  revert x. induction t as [|a t IH]; intros x Hsorted Hd.
  - by apply filter_all.
  - cbn [foldl app]. rewrite <- app_comm_cons, fmap_cons in Hsorted.
    apply StronglySorted_inv in Hsorted as [Hrest Ha].
    apply Forall_fmap, Forall_app in Ha as [Hat Had].
    rewrite filter_cons_False.
    + by apply IH.
    + apply N.nlt_ge, foldl_last_id_ge. constructor.
      * rewrite fmap_app in Hrest. by apply StronglySorted_app_1_l in Hrest.
      * by apply Forall_fmap.
Qed.

Lemma foldl_last_id_lt (x bound : entry_id) (l : list (entry_id * bytes)) :
  (x < bound)%N → Forall (λ e, (e.1 < bound)%N) l →
  (foldl (λ _ e, e.1) x l < bound)%N.
Proof.
  revert x. induction l as [|a l IH]; intros x Hx Hl; [done|].
  apply Forall_cons in Hl as [Ha Hl]. simpl. by apply IH.
Qed.

Lemma foldl_last_id_cases (x : entry_id) (l : list (entry_id * bytes)) :
  foldl (λ _ e, e.1) x l = x
  ∨ ∃ e, e ∈ l ∧ foldl (λ _ e, e.1) x l = e.1.
Proof.
  revert x. induction l as [|a l IH]; intros x; [by left|].
  right. cbn [foldl]. destruct (IH a.1) as [->|(e & He & ->)].
  - exists a. split; [apply list_elem_of_here|done].
  - exists e. split; [by apply list_elem_of_further|done].
Qed.

Lemma StronglySorted_filter_ids (P : entry_id * bytes → Prop)
    `{!∀ e, Decision (P e)} (l : list (entry_id * bytes)) :
  StronglySorted N.lt l.*1 → StronglySorted N.lt (filter P l).*1.
Proof.
  induction l as [|a l IH]; [done|]. rewrite fmap_cons. intros Hsorted.
  apply StronglySorted_inv in Hsorted as [Hl Ha].
  rewrite filter_cons. destruct (decide (P a)); [|by apply IH].
  rewrite fmap_cons. constructor; [by apply IH|].
  apply Forall_fmap. rewrite Forall_forall in Ha.
  apply Forall_forall. intros e He.
  apply list_elem_of_filter in He as [_ He].
  apply Ha, list_elem_of_fmap. by exists e.
Qed.

Lemma filter_filter_implies {A} (P Q : A → Prop) `{!∀ x, Decision (P x)}
    `{!∀ x, Decision (Q x)} (l : list A) :
  (∀ x, P x → Q x) → filter P l = filter P (filter Q l).
Proof.
  intros Himpl. induction l as [|x l IH]; [done|].
  rewrite !filter_cons. destruct (decide (Q x)) as [HQ|HQ].
  - rewrite filter_cons. destruct (decide (P x)); by rewrite IH.
  - rewrite decide_False by (intros HP; by apply HQ, Himpl). done.
Qed.

(** X9. On a server whose ids are in order, [read] consumes the unread
    entries from the front: whatever its outcome, the entries left unread
    are those of before without the batch, no entry of the batch can be
    read again, and the ids stay in order. *)
Theorem read_consumes_unread (r r' : Redis)
    (outcome : result (list (BrokerTask RedisMeta))) :
  well_formed r →
  read json_decode self r = (r', outcome) →
  unread r' = drop (xread_count (_broker_config self)) (unread r)
  ∧ well_formed r'
  ∧ ∀ i, i ∈ (take (xread_count (_broker_config self)) (unread r)).*1 →
      i ∉ (unread r').*1.
Proof.
  intros Hwell.
  destruct (take (xread_count (_broker_config self)) (unread r))
    as [|first others] eqn:Hfresh.
  { destruct (read_nothing json_decode self r Hfresh) as [outcome' Hread].
    rewrite Hread. intros [= <- _].
    rewrite (take_nil_drop _ _ Hfresh). split; [done|]. split; [done|].
    intros i Hi. by apply elem_of_nil in Hi. }
  assert (take (xread_count (_broker_config self)) (unread r) ≠ [])
    as Hsome by (by rewrite Hfresh).
  rewrite <- Hfresh. clear first others Hfresh.
  destruct Hwell as (Hsorted & Hbelow & Hlast).
  rewrite (read_unfold json_decode self r Hsome). cbn zeta.
  intros [= <- _].
  set (n := xread_count (_broker_config self)).
  assert (StronglySorted N.lt (take n (unread r) ++ drop n (unread r)).*1)
    as Hunread_sorted.
  { rewrite take_drop. by apply StronglySorted_filter_ids. }
  assert (Forall (λ e, (last_delivered_id r < e.1)%N) (unread r)) as Hafter.
  { apply Forall_forall. intros e He.
    by apply list_elem_of_filter in He as [He _]. }
  assert (unread
            {| stream := stream r; next_id := next_id r;
               last_delivered_id :=
                 foldl (λ _ e, e.1) (last_delivered_id r) (take n (unread r));
               pending :=
                 claim_for (_consumer_name self) (take n (unread r)).*1
                   (pending r) |}
          = drop n (unread r)) as Hdrop.
  { unfold unread at 1. cbn [stream last_delivered_id].
    rewrite (filter_filter_implies _
               (λ e, (last_delivered_id r < e.1)%N)).
    - transitivity
        (filter (λ e, (foldl (λ _ e, e.1) (last_delivered_id r)
                         (take n (unread r)) < e.1)%N)
                (take n (unread r) ++ drop n (unread r))).
      { by rewrite take_drop. }
      apply filter_after_last; [done|].
      rewrite <- (take_drop n (unread r)) in Hafter.
      by apply Forall_app in Hafter as [_ Hafter].
    - intros e He.
      destruct (foldl_last_id_cases (last_delivered_id r) (take n (unread r)))
        as [Heq|(e' & He' & Heq)]; rewrite Heq in He; [done|].
      apply elem_of_take in He' as (k & He' & _).
      apply list_elem_of_lookup_2 in He'.
      apply (proj1 (Forall_forall _ _) Hafter) in He'.
      exact (N.lt_trans _ _ _ He' He). }
  split; [exact Hdrop|]. split.
  - split; [done|]. split; [done|]. cbn [last_delivered_id next_id].
    apply foldl_last_id_lt; [done|].
    apply Forall_forall. intros e He.
    apply elem_of_take in He as (k & He & _).
    apply list_elem_of_lookup_2, list_elem_of_filter in He as [_ He].
    apply (proj1 (Forall_forall _ _) Hbelow).
    apply list_elem_of_fmap. by exists e.
  - intros i Hi Hi'. rewrite Hdrop in Hi'.
    assert (i < i)%N; [|lia].
    by apply (StronglySorted_app_1_elem_of _ _ _ _ _
                (eq_ind _ _ Hunread_sorted _ (fmap_app _ _ _))).
Qed.

(** X10. [tasks_healthcheck] needs a task: called with none, the client
    refuses the empty list of ids, the call raises [DataError] and the
    server is left as it was. Called with tasks it succeeds and only
    touches their pending entries: the stream and the unread entries are
    as before, an entry is pending afterwards exactly if it was pending
    before (an acked entry does not come back), and every other pending
    entry keeps its owner and idle time. *)
Theorem tasks_healthcheck_conserves (tasks_ : list (BrokerTask RedisMeta))
    (r : Redis) :
  (tasks_ = [] → tasks_healthcheck self tasks_ r = (r, Raise DataError))
  ∧ (tasks_ ≠ [] →
     ∃ r', tasks_healthcheck self tasks_ r = (r', Ok tt)
           ∧ stream r' = stream r
           ∧ unread r' = unread r
           ∧ (∀ i, is_Some (pending r' !! i) ↔ is_Some (pending r !! i))
           ∧ (∀ i, i ∉ map (λ task_, meta_id (meta task_)) tasks_ →
                pending r' !! i = pending r !! i)).
Proof.
  split; [by intros ->|]. intros Hsome.
  unfold tasks_healthcheck, xclaim. rewrite bool_decide_false by lia.
  destruct (map _ tasks_) as [|first others] eqn:Hids;
    [by destruct tasks_|].
  eexists. split; [reflexivity|]. split; [done|]. split; [done|].
  cbn [pending set_pending]. split.
  - intros i.
    destruct (decide (i ∈ filter (λ j, is_idle 0 (pending r) j)
                            (first :: others))) as [Hin|Hnot].
    + rewrite (lookup_claim_for _ _ _ _ Hin).
      apply list_elem_of_filter in Hin as [Hidle _].
      apply Is_true_true, is_idle_pending in Hidle as (entry & -> & _).
      by split.
    + by rewrite (lookup_claim_for_ne _ _ _ _ Hnot).
  - intros i Hnot. apply lookup_claim_for_ne.
    intros Hin. by apply list_elem_of_filter in Hin as [_ Hin].
Qed.

Lemma for_each_requeue_spares (messages : list (entry_id * bytes))
    (i : entry_id) (r r' : Redis) (outcome : result unit) :
  i ∉ messages.*1 →
  for_each messages (requeue json_encode json_decode) r = (r', outcome) →
  pending r' !! i = pending r !! i.
Proof.
  revert r. induction messages as [|[j payload] messages IH]; intros r Hnot.
  - by intros [= <- _].
  - rewrite fmap_cons in Hnot. apply not_elem_of_cons in Hnot as [Hne Hnot].
    cbn [for_each]. unfold mbind at 1, coroutine_bind.
    destruct (json_decode payload) as [task_|e] eqn:Hdecode.
    + rewrite (requeue_decoded json_encode json_decode j payload task_ r Hdecode).
      intros Hrun. rewrite (IH _ Hnot Hrun). simpl.
      by rewrite lookup_delete_ne.
    + rewrite (requeue_undecoded json_encode json_decode j payload e r Hdecode).
      by intros [= <- _].
Qed.

Lemma claim_pending_records_spares (timeout_interval : timedelta)
    (r r' : Redis) (outcome : result unit) (i : entry_id)
    (entry : PendingEntry) :
  pending r !! i = Some entry →
  idle entry < milliseconds timeout_interval →
  claim_pending_records json_encode json_decode self timeout_interval r
    = (r', outcome) →
  pending r' !! i = Some entry.
Proof.
  intros Hentry Hfresh.
  destruct (decide (milliseconds timeout_interval < 0)) as [Hrefused|Hvalid].
  { rewrite claim_pending_records_refused by done. by intros [= <- _]. }
  rewrite claim_pending_records_unfold by lia. intros Hrun.
  assert (i ∉ (autoclaimed (milliseconds timeout_interval) 1000 r).*1)
    as Hnot.
  { intros Hin. apply list_elem_of_fmap in Hin as ([i' v] & -> & Hin).
    apply elem_of_autoclaimed in Hin as [_ Hidle].
    apply is_idle_pending in Hidle as (entry' & Hentry' & Hold).
    cbn [fst] in *. rewrite Hentry in Hentry'. injection Hentry' as <-. lia. }
  rewrite (for_each_requeue_spares _ i _ _ _ Hnot Hrun). simpl.
  by rewrite lookup_claim_for_ne.
Qed.

(** X11. The maintenance loop leaves young entries alone. The loop asks
    for the entries idle for [int(timeout_interval.total_seconds() *
    1000)] milliseconds, which can be one less than the milliseconds of
    [timeout_interval]; a pending entry that has been idle for less than
    that is pending after a turn of the loop with the same owner and
    idle time, whatever else the turn does and however it ends. *)
Theorem maintenance_spares_fresh_entries (timeout_interval : timedelta)
    (r r' : Redis) (outcome : result unit) (i : entry_id)
    (entry : PendingEntry) :
  pending r !! i = Some entry →
  idle entry < milliseconds timeout_interval →
  claim_pending_records json_encode json_decode self timeout_interval r
    = (r', outcome) →
  pending r' !! i = Some entry.
Proof. apply claim_pending_records_spares. Qed.

(** X12. A heartbeat protects a running task: after [tasks_healthcheck]
    was called with a task whose entry is pending, and less than the
    [int(timeout_interval.total_seconds() * 1000)] milliseconds the loop
    asks for have passed since, a turn of the maintenance loop does not
    reclaim the entry; it is still pending for this consumer. *)
Theorem healthcheck_prevents_reclamation (timeout_interval : timedelta)
    (ms : Z) (tasks_ : list (BrokerTask RedisMeta))
    (task_ : BrokerTask RedisMeta) (r r1 r2 : Redis) (entry : PendingEntry)
    (outcome : result unit) :
  task_ ∈ tasks_ →
  pending r !! meta_id (meta task_) = Some entry →
  0 ≤ idle entry →
  0 ≤ ms < milliseconds timeout_interval →
  tasks_healthcheck self tasks_ r = (r1, Ok tt) →
  claim_pending_records json_encode json_decode self timeout_interval
    (tick ms r1) = (r2, outcome) →
  pending r2 !! meta_id (meta task_)
  = Some {| consumer := _consumer_name self; idle := ms |}.
Proof.
  intros Hin Hentry Hidle Hms Hhealth Hturn.
  destruct (tasks_healthcheck_resets_idle self tasks_ task_ r entry
              Hin Hentry Hidle) as (r1' & Hhealth' & Hreset).
  rewrite Hhealth in Hhealth'. injection Hhealth' as <-.
  apply (claim_pending_records_spares timeout_interval (tick ms r1) r2
           outcome _ {| consumer := _consumer_name self; idle := ms |});
    [|simpl; lia|exact Hturn].
  simpl. rewrite lookup_fmap, Hreset. done.
Qed.

(** X13. When no pending entry has been idle for the
    [int(timeout_interval.total_seconds() * 1000)] milliseconds the loop
    asks for, a turn of the maintenance loop does nothing at all. When
    that number is negative, the client refuses it: the turn raises
    [DataError], and with it the loop, and the server is left as it
    was. *)
Theorem maintenance_without_stale_entries (timeout_interval : timedelta)
    (r : Redis) :
  (0 ≤ milliseconds timeout_interval →
   (∀ i entry, pending r !! i = Some entry →
               idle entry < milliseconds timeout_interval) →
   claim_pending_records json_encode json_decode self timeout_interval r
   = (r, Ok tt))
  ∧ (milliseconds timeout_interval < 0 →
     claim_pending_records json_encode json_decode self timeout_interval r
     = (r, Raise DataError)
     ∧ ∀ wakeups,
         _maintenance_claim_pending_records json_encode json_decode self
           timeout_interval wakeups r
         = (r, Raise DataError)).
Proof.
  split.
  - intros Hvalid Hfresh. rewrite claim_pending_records_unfold by done.
    assert (autoclaimed (milliseconds timeout_interval) 1000 r = []) as ->.
    { unfold autoclaimed. rewrite (proj2 (filter_nil_Forall _ _)); [done|].
      apply Forall_forall. intros [i v] _ Hidle.
      apply Is_true_true, is_idle_pending in Hidle as (entry & Hentry & Hold).
      specialize (Hfresh _ _ Hentry). lia. }
    simpl. by rewrite set_pending_id.
  - intros Hrefused.
    pose proof (claim_pending_records_refused json_encode json_decode self
                  timeout_interval r Hrefused) as Hturn.
    split; [done|]. intros wakeups.
    by apply _maintenance_claim_pending_records_raises.
Qed.

(** X14. A claimed entry that does not decode stops the maintenance loop
    with the decoder's exception, whatever the wake-ups would have been.
    The entries claimed before it have been requeued, each as a new
    entry at the end of the stream, and acked: they are pending no more.
    The entry itself and those after it are neither requeued nor acked:
    they stay pending, now for this consumer with a fresh idle time. *)
Theorem maintenance_stops_at_undecodable_entry (timeout_interval : timedelta)
    (wakeups : list wakeup) (r : Redis) (requeued_ : list (entry_id * bytes))
    (tasks_ : list TaskRecord) (i : entry_id) (payload : bytes)
    (rest : list (entry_id * bytes)) (e : exn) :
  0 ≤ milliseconds timeout_interval →
  autoclaimed (milliseconds timeout_interval) 1000 r
  = requeued_ ++ (i, payload) :: rest →
  Forall2 (λ message task_, json_decode message.2 = Ok task_)
          requeued_ tasks_ →
  json_decode payload = Raise e →
  ∃ r', _maintenance_claim_pending_records json_encode json_decode self
          timeout_interval wakeups r
        = (r', Raise e)
        ∧ stream r' = stream r ++ requeued json_encode (next_id r) tasks_
        ∧ (∀ j, j ∈ requeued_.*1 → pending r' !! j = None)
        ∧ ∀ j, j ∈ i :: rest.*1 → j ∉ requeued_.*1 →
            pending r' !! j
            = Some {| consumer := _consumer_name self; idle := 0 |}.
Proof.
  intros Hvalid Hclaimed Hdecoded Hfail.
  destruct (claim_pending_records_prefix json_encode json_decode self
              timeout_interval r requeued_ ((i, payload) :: rest) tasks_
              Hvalid Hclaimed Hdecoded)
    as (r' & Hrun & Hstream & _ & _ & Hacked & Hkept & _).
  exists r'. split; [|by repeat split].
  apply _maintenance_claim_pending_records_raises. rewrite Hrun.
  cbn [for_each]. unfold mbind, coroutine_bind.
  by rewrite (requeue_undecoded _ _ _ _ _ _ Hfail).
Qed.

Lemma requeued_ids_from (first : entry_id) (tasks_ : list TaskRecord) :
  Forall (λ e, (first ≤ e.1)%N) (requeued json_encode first tasks_).
Proof.
  revert first. induction tasks_ as [|t tasks_ IH]; intros first; [done|].
  simpl. constructor; [simpl; lia|].
  eapply Forall_impl; [apply IH|]. simpl. intros e He. lia.
Qed.

Lemma requeued_decodes (first : entry_id) (tasks_ : list TaskRecord) :
  Forall (λ task_,
            json_decode (json_encode (increment_requeue_count task_))
            = Ok (increment_requeue_count task_)) tasks_ →
  Forall2 (λ e task_,
             (let '(record_id, record) := e in
              decoded ← json_decode record;
              mret (mkBrokerTask decoded {| meta_id := record_id |}))
             = Ok task_)
    (requeued json_encode first tasks_) (redelivered first tasks_).
Proof.
  intros H. revert first.
  induction H as [|t tasks_ Ht _ IH]; intros first; [constructor|].
  simpl. constructor; [by rewrite Ht | apply IH].
Qed.

(** X15. Reclamation ends in redelivery. On a server with nothing unread,
    when the loop claims at least one entry, the entries it claims decode
    and the codec reads back what it writes, the next [read] with a
    positive [xread_count] after a turn of the loop returns the reclaimed
    records, oldest first and at most [xread_count] of them, each with
    [requeue_count] one higher and under the id of its new entry. *)
Theorem maintenance_then_read_redelivers (timeout_interval : timedelta)
    (r : Redis) (messages : list (entry_id * bytes))
    (tasks_ : list TaskRecord) :
  unread r = [] →
  (last_delivered_id r < next_id r)%N →
  0 ≤ milliseconds timeout_interval →
  (0 < xread_count (_broker_config self))%nat →
  autoclaimed (milliseconds timeout_interval) 1000 r = messages →
  messages ≠ [] →
  Forall2 (λ message task_, json_decode message.2 = Ok task_)
          messages tasks_ →
  Forall (λ task_,
            json_decode (json_encode (increment_requeue_count task_))
            = Ok (increment_requeue_count task_)) tasks_ →
  ∃ r1 r2,
    claim_pending_records json_encode json_decode self timeout_interval r
    = (r1, Ok tt)
    ∧ stream r1 = stream r ++ requeued json_encode (next_id r) tasks_
    ∧ read json_decode self r1
      = (r2, Ok (take (xread_count (_broker_config self))
                   (redelivered (next_id r) tasks_))).
Proof.
  intros Hunread Hlast Hvalid Hcount Hclaimed Hsome Hdecoded Hcodec.
  destruct (claim_pending_records_prefix json_encode json_decode self
              timeout_interval r messages [] tasks_ Hvalid)
    as (r1 & Hrun & Hstream & Hlast1 & _); [by rewrite app_nil_r|done|].
  exists r1. eexists. split; [exact Hrun|]. split; [exact Hstream|].
  assert (unread r1 = requeued json_encode (next_id r) tasks_) as Hnew.
  { unfold unread in *. rewrite Hstream, Hlast1.
    unfold entry_id in *. rewrite filter_app, Hunread. simpl.
    apply filter_all. eapply Forall_impl; [apply requeued_ids_from|].
    simpl. intros e He. lia. }
  rewrite (read_unfold json_decode self r1); rewrite Hnew.
  - cbn zeta. f_equal. apply mapM_Ok_Forall2, Forall2_take.
    by apply requeued_decodes.
  - destruct Hdecoded as [|message task_ messages tasks_ _ _]; [done|].
    by destruct (xread_count (_broker_config self)); [lia|].
Qed.

End RedisBrokerMore.

(** *** The stream broker on the sample data, continued *)

Lemma two_unread_well_formed : well_formed sample_broker.two_unread.
Proof.
  split; [|split].
  - repeat constructor.
  - repeat constructor.
  - reflexivity.
Qed.

Lemma enqueue_then_read_witness :
  ∃ r1 r2,
    RedisBroker.enqueue sample_broker.json_encode
      (sample_broker.record "noop" 0) redis.empty = (r1, Ok tt)
    ∧ RedisBroker.read sample_broker.json_decode sample_broker.self r1
      = (r2, Ok [mkBrokerTask (sample_broker.record "noop" 0)
                   {| RedisBroker.meta_id := 1%N |}]).
Proof.
  destruct (enqueue_then_read sample_broker.json_encode
              sample_broker.json_decode sample_broker.self
              (sample_broker.record "noop" 0) redis.empty)
    as (r1 & r2 & Henqueue & Hread & _).
  - reflexivity.
  - reflexivity.
  - simpl. lia.
  - reflexivity.
  - exists r1, r2. split; [exact Henqueue | exact Hread].
Defined.

Lemma read_returns_oldest_unread_witness :
  RedisBroker.read sample_broker.json_decode sample_broker.self redis.empty
  = (redis.empty, Ok [])
  ∧ (length [mkBrokerTask (sample_broker.record "noop" 0)
               {| RedisBroker.meta_id := 1%N |}] ≤ 1)%nat
  ∧ redis.pending
      (RedisBroker.read sample_broker.json_decode sample_broker.self
         sample_broker.two_unread).1 !! 1%N
    = Some {| redis.consumer := "worker-1"; redis.idle := 0 |}.
Proof.
  split.
  - destruct (read_returns_oldest_unread sample_broker.json_decode
                sample_broker.self redis.empty) as (_ & Hnothing & _).
    apply Hnothing; [reflexivity | simpl; lia | vm_compute; reflexivity].
  - destruct (read_returns_oldest_unread sample_broker.json_decode
                sample_broker.self sample_broker.two_unread) as (_ & _ & H).
    destruct (H (RedisBroker.read sample_broker.json_decode sample_broker.self
                   sample_broker.two_unread).1
                [mkBrokerTask (sample_broker.record "noop" 0)
                   {| RedisBroker.meta_id := 1%N |}] eq_refl)
      as (Hlength & _ & Hpending).
    split; [exact Hlength|]. exact (Hpending _ (list_elem_of_here _ _)).
Defined.

Lemma read_raises_after_delivery_witness :
  ∃ r' e,
    RedisBroker.read sample_broker.json_decode sample_broker.self
      sample_more.garbled_unread = (r', Raise e)
    ∧ redis.pending r' !! 1%N
      = Some {| redis.consumer := "worker-1"; redis.idle := 0 |}.
Proof.
  destruct (read_raises_after_delivery sample_broker.json_decode
              sample_broker.self sample_more.garbled_unread 1%N [])
    as (r' & e & Hread & _ & Hpending).
  - apply list_elem_of_here.
  - reflexivity.
  - exists r', e. split; [exact Hread|]. apply Hpending, list_elem_of_here.
Defined.

Lemma read_consumes_unread_witness :
  unread (RedisBroker.read sample_broker.json_decode sample_broker.self
            sample_broker.two_unread).1
  = [(2%N, sample_broker.json_encode (sample_broker.record "greet" 0))].
Proof.
  destruct (read_consumes_unread sample_broker.json_decode sample_broker.self
              sample_broker.two_unread _ _ two_unread_well_formed eq_refl)
    as [Hunread _].
  exact Hunread.
Defined.

Lemma tasks_healthcheck_conserves_witness :
  RedisBroker.tasks_healthcheck sample_broker.self []
    sample_broker.two_delivered
  = (sample_broker.two_delivered, Raise DataError)
  ∧ ∃ r', RedisBroker.tasks_healthcheck sample_broker.self
            [sample_broker.failing_task] sample_broker.two_delivered
          = (r', Ok tt)
          ∧ redis.pending r' !! 2%N
            = Some {| redis.consumer := "worker-1"; redis.idle := 4000 |}.
Proof.
  destruct (tasks_healthcheck_conserves sample_broker.self []
              sample_broker.two_delivered) as [Hnone _].
  destruct (tasks_healthcheck_conserves sample_broker.self
              [sample_broker.failing_task] sample_broker.two_delivered)
    as [_ Hsome].
  split; [exact (Hnone eq_refl)|].
  destruct Hsome as (r' & Hrun & _ & _ & _ & Hothers); [discriminate|].
  exists r'. split; [exact Hrun|]. rewrite Hothers; [reflexivity|].
  intros Hin. apply list_elem_of_singleton in Hin. discriminate.
Defined.

Lemma maintenance_spares_fresh_entries_witness :
  redis.pending
    (RedisBroker.claim_pending_records sample_broker.json_encode
       sample_broker.json_decode sample_broker.self 5000
       sample_broker.two_delivered).1 !! 1%N
  = Some {| redis.consumer := "worker-1"; redis.idle := 4000 |}.
Proof.
  apply (maintenance_spares_fresh_entries sample_broker.json_encode
           sample_broker.json_decode sample_broker.self 5000
           sample_broker.two_delivered
           (RedisBroker.claim_pending_records sample_broker.json_encode
              sample_broker.json_decode sample_broker.self 5000
              sample_broker.two_delivered).1
           (RedisBroker.claim_pending_records sample_broker.json_encode
              sample_broker.json_decode sample_broker.self 5000
              sample_broker.two_delivered).2).
  - reflexivity.
  - vm_compute. reflexivity.
  - by destruct (RedisBroker.claim_pending_records _ _ _ _ _).
Defined.

Lemma healthcheck_prevents_reclamation_witness :
  redis.pending
    (RedisBroker.claim_pending_records sample_broker.json_encode
       sample_broker.json_decode sample_broker.self 5000
       (redis.tick 1000
          (RedisBroker.tasks_healthcheck sample_broker.self
             [sample_broker.stale_task] sample_broker.stale).1)).1 !! 1%N
  = Some {| redis.consumer := "worker-1"; redis.idle := 1000 |}.
Proof.
  apply (healthcheck_prevents_reclamation sample_broker.json_encode
           sample_broker.json_decode sample_broker.self 5000 1000
           [sample_broker.stale_task] sample_broker.stale_task
           sample_broker.stale
           (RedisBroker.tasks_healthcheck sample_broker.self
              [sample_broker.stale_task] sample_broker.stale).1
           (RedisBroker.claim_pending_records sample_broker.json_encode
              sample_broker.json_decode sample_broker.self 5000
              (redis.tick 1000
                 (RedisBroker.tasks_healthcheck sample_broker.self
                    [sample_broker.stale_task] sample_broker.stale).1)).1
           {| redis.consumer := "worker-2"; redis.idle := 6000 |}
           (RedisBroker.claim_pending_records sample_broker.json_encode
              sample_broker.json_decode sample_broker.self 5000
              (redis.tick 1000
                 (RedisBroker.tasks_healthcheck sample_broker.self
                    [sample_broker.stale_task] sample_broker.stale).1)).2).
  - apply list_elem_of_here.
  - reflexivity.
  - simpl. lia.
  - split; [lia | vm_compute; reflexivity].
  - reflexivity.
  - by destruct (RedisBroker.claim_pending_records _ _ _ _ _).
Defined.

Lemma maintenance_without_stale_entries_witness :
  RedisBroker.claim_pending_records sample_broker.json_encode
    sample_broker.json_decode sample_broker.self 5000
    sample_broker.two_delivered
  = (sample_broker.two_delivered, Ok tt)
  ∧ RedisBroker.claim_pending_records sample_broker.json_encode
      sample_broker.json_decode sample_broker.self (-5000)
      sample_broker.two_delivered
    = (sample_broker.two_delivered, Raise DataError).
Proof.
  split.
  - apply maintenance_without_stale_entries; [vm_compute; discriminate|].
    intros i entry Hentry.
    unfold sample_broker.two_delivered in Hentry.
    cbn [redis.pending] in Hentry.
    apply lookup_insert_Some in Hentry as [[_ <-]|[_ Hentry]];
      [vm_compute; reflexivity|].
    apply lookup_singleton_Some in Hentry as [_ <-]. vm_compute. reflexivity.
  - apply maintenance_without_stale_entries. vm_compute. reflexivity.
Defined.

Lemma maintenance_stops_at_undecodable_entry_witness :
  ∃ r', RedisBroker._maintenance_claim_pending_records
          sample_broker.json_encode sample_broker.json_decode
          sample_broker.self 5000 [RedisBroker.mkWakeup 5000 false]
          sample_more.noop_then_garbled
        = (r', Raise (Exception "DecodeError"))
        ∧ redis.stream r'
          = redis.stream sample_more.noop_then_garbled
            ++ [(3%N, sample_broker.json_encode
                        (sample_broker.record "noop" 1))]
        ∧ redis.pending r' !! 1%N = None
        ∧ redis.pending r' !! 2%N
          = Some {| redis.consumer := "worker-1"; redis.idle := 0 |}.
Proof.
  destruct (maintenance_stops_at_undecodable_entry sample_broker.json_encode
              sample_broker.json_decode sample_broker.self 5000
              [RedisBroker.mkWakeup 5000 false]
              sample_more.noop_then_garbled
              [(1%N, sample_broker.json_encode
                       (sample_broker.record "noop" 0))]
              [sample_broker.record "noop" 0] 2%N [] []
              (Exception "DecodeError"))
    as (r' & Hrun & Hstream & Hacked & Hkept).
  - vm_compute. discriminate.
  - vm_compute. reflexivity.
  - repeat constructor.
  - reflexivity.
  - exists r'. split; [exact Hrun|]. split; [exact Hstream|]. split.
    + apply Hacked, list_elem_of_here.
    + apply Hkept; [apply list_elem_of_here|].
      intros Hin. apply list_elem_of_singleton in Hin. discriminate.
Defined.

Lemma maintenance_then_read_redelivers_witness :
  ∃ r1 r2,
    RedisBroker.claim_pending_records sample_broker.json_encode
      sample_broker.json_decode sample_broker.self 5000 sample_broker.stale
    = (r1, Ok tt)
    ∧ RedisBroker.read sample_broker.json_decode sample_broker.self r1
      = (r2, Ok [mkBrokerTask (sample_broker.record "noop" 1)
                   {| RedisBroker.meta_id := 2%N |}]).
Proof.
  destruct (maintenance_then_read_redelivers sample_broker.json_encode
              sample_broker.json_decode sample_broker.self 5000
              sample_broker.stale
              [(1%N, sample_broker.json_encode (sample_broker.record "noop" 0))]
              [sample_broker.record "noop" 0])
    as (r1 & r2 & Hturn & _ & Hread).
  - reflexivity.
  - reflexivity.
  - vm_compute. discriminate.
  - simpl. lia.
  - vm_compute. reflexivity.
  - discriminate.
  - repeat constructor.
  - repeat constructor.
  - exists r1, r2. split; [exact Hturn | exact Hread].
Defined.

(** ** The in-memory broker *)

Section InMemoryBrokerFacts.

Import InMemoryBroker.

Lemma in_memory_enqueue_all (tasks_ : list TaskRecord) (self : InMemoryBroker) :
  (length (buffer self) + length tasks_ ≤ max_buffer_size self)%nat →
  enqueue_all tasks_ self
  = ({| buffer := buffer self ++ map (λ task_, mkBrokerTask task_ tt) tasks_;
        max_buffer_size := max_buffer_size self |}, Ready tt).
Proof.
  revert self. induction tasks_ as [|task_ tasks_ IH]; intros self Hroom.
  - simpl. rewrite app_nil_r. by destruct self.
  - cbn [enqueue_all]. unfold enqueue. simpl in Hroom.
    rewrite decide_True by lia. rewrite IH.
    + simpl. by rewrite <- app_assoc.
    + simpl. rewrite length_app. simpl. lia.
Qed.

Lemma in_memory_read_times (self : InMemoryBroker) :
  read_times (length (buffer self)) self
  = ({| buffer := []; max_buffer_size := max_buffer_size self |},
     Ready (map (λ broker_task, [broker_task]) (buffer self))).
Proof.
  destruct self as [items_ size]. simpl.
  induction items_ as [|broker_task items_ IH]; [done|].
  cbn [length read_times]. unfold read at 1. simpl. by rewrite IH.
Qed.

(** X16. The in-memory broker is a first-in first-out queue: records
    enqueued on a new broker, no more than its buffer holds, come back
    from as many calls of [read] in the order of their enqueueing, each
    call returning exactly one task with no metadata; the buffer is then
    empty. *)
Theorem in_memory_first_in_first_out (size : nat) (tasks_ : list TaskRecord) :
  (length tasks_ ≤ size)%nat →
  ∃ self,
    enqueue_all tasks_ (__init__ size) = (self, Ready tt)
    ∧ read_times (length tasks_) self
      = (__init__ size,
         Ready (map (λ task_, [mkBrokerTask task_ tt]) tasks_)).
Proof.
  intros Hroom. eexists. split.
  - apply in_memory_enqueue_all. simpl. lia.
  - simpl.
    pose proof (in_memory_read_times
                  {| buffer := map (λ task_, mkBrokerTask task_ tt) tasks_;
                     max_buffer_size := size |}) as Hread.
    simpl in Hread. rewrite length_map, map_map in Hread. exact Hread.
Qed.

(** X17. The buffer never exceeds [max_buffer_size]: [enqueue] keeps the
    bound, and on a full buffer it waits and changes nothing; [read] on
    an empty buffer waits and changes nothing. *)
Theorem in_memory_blocks_at_bounds (task_ : TaskRecord) (self : InMemoryBroker) :
  (length (buffer self) ≤ max_buffer_size self)%nat →
  (length (buffer (enqueue task_ self).1) ≤ max_buffer_size self)%nat
  ∧ (length (buffer self) = max_buffer_size self →
     enqueue task_ self = (self, WouldBlock))
  ∧ (buffer self = [] → read self = (self, WouldBlock)).
Proof.
  intros Hbound. unfold enqueue, read. split; [|split].
  - destruct (decide _); simpl; [rewrite length_app; simpl; lia | done].
  - intros Hfull. by rewrite decide_False by lia.
  - by intros ->.
Qed.

(** X18. The in-memory broker redelivers nothing. A task that [read]
    returned is out of the buffer; whether the statements under its
    [ack_context] return or raise, and whatever heartbeats and
    maintenance turns follow, the broker is left with the other tasks
    only, and the outcome of the statements is passed on. *)
Theorem in_memory_read_task_is_gone {A : Type} (broker_task : BrokerTask unit)
    (rest : list (BrokerTask unit)) (self : InMemoryBroker)
    (outcome : result A) :
  buffer self = broker_task :: rest →
  ∃ self',
    read self = (self', Ready [broker_task])
    ∧ buffer self' = rest
    ∧ async_with (ack_context broker_task) (lift_result outcome) self'
      = (self', Some <$> outcome)
    ∧ tasks_healthcheck [broker_task] self' = (self', Ok tt)
    ∧ run_worker_maintenance_tasks self' = (self', Ok tt).
Proof.
  intros Hbuffer. eexists. unfold read. rewrite Hbuffer.
  split; [reflexivity|]. split; [reflexivity|].
  split; [by destruct outcome|]. by split.
Qed.

End InMemoryBrokerFacts.

Lemma in_memory_first_in_first_out_witness :
  ∃ self,
    InMemoryBroker.enqueue_all
      [sample_broker.record "noop" 0; sample_broker.record "greet" 0]
      (InMemoryBroker.__init__ 100) = (self, InMemoryBroker.Ready tt)
    ∧ InMemoryBroker.read_times 2 self
      = (InMemoryBroker.__init__ 100,
         InMemoryBroker.Ready
           [[mkBrokerTask (sample_broker.record "noop" 0) tt];
            [mkBrokerTask (sample_broker.record "greet" 0) tt]]).
Proof.
  apply (in_memory_first_in_first_out 100
           [sample_broker.record "noop" 0; sample_broker.record "greet" 0]).
  simpl. lia.
Defined.

Lemma in_memory_blocks_at_bounds_witness :
  InMemoryBroker.enqueue (sample_broker.record "noop" 0)
    (InMemoryBroker.__init__ 0)
  = (InMemoryBroker.__init__ 0, InMemoryBroker.WouldBlock)
  ∧ InMemoryBroker.read (InMemoryBroker.__init__ 0)
    = (InMemoryBroker.__init__ 0, InMemoryBroker.WouldBlock).
Proof.
  destruct (in_memory_blocks_at_bounds (sample_broker.record "noop" 0)
              (InMemoryBroker.__init__ 0)) as (_ & Hfull & Hempty).
  - simpl. lia.
  - split; [apply Hfull | apply Hempty]; reflexivity.
Defined.

Lemma in_memory_read_task_is_gone_witness :
  ∃ self',
    InMemoryBroker.read
      {| InMemoryBroker.buffer :=
           [mkBrokerTask (sample_broker.record "failing" 0) tt];
         InMemoryBroker.max_buffer_size := 100 |}
    = (self', InMemoryBroker.Ready
                [mkBrokerTask (sample_broker.record "failing" 0) tt])
    ∧ InMemoryBroker.buffer self' = []
    ∧ async_with
        (InMemoryBroker.ack_context
           (mkBrokerTask (sample_broker.record "failing" 0) tt))
        (lift_result (A := unit) (Raise (Exception "boom"))) self'
      = (self', Raise (Exception "boom")).
Proof.
  destruct (in_memory_read_task_is_gone (A := unit)
              (mkBrokerTask (sample_broker.record "failing" 0) tt) []
              {| InMemoryBroker.buffer :=
                   [mkBrokerTask (sample_broker.record "failing" 0) tt];
                 InMemoryBroker.max_buffer_size := 100 |}
              (Raise (Exception "boom")) eq_refl)
    as (self' & Hread & Hbuffer & Hscope & _).
  exists self'. split; [exact Hread|]. split; [exact Hbuffer | exact Hscope].
Defined.

(** ** Opening and closing the stream broker *)

Section RedisBrokerScope.

Import RedisBroker RedisBroker_scope.

Context (self : RedisBroker).

Lemma elem_of_group_names (groups : gmap string (gset string)) (group : string) :
  group ∈ (map_to_list groups).*1 ↔ is_Some (groups !! group).
Proof.
  rewrite list_elem_of_fmap. split.
  - intros ([g consumers] & -> & Hin). apply elem_of_map_to_list in Hin.
    by exists consumers.
  - intros [consumers Hgroup]. exists (group, consumers).
    split; [done|]. by apply elem_of_map_to_list.
Qed.

Lemma __aenter___first (c : Connection) :
  _is_initialized c = false →
  __aenter__ self c
  = ({| keyspace := set_up self (keyspace c); _is_initialized := true;
        _stop := _stop c |}, Ok tt).
Proof.
  intros Hnew. unfold __aenter__, set_up.
  unfold mbind at 1, coroutine_bind at 1, get at 1. rewrite Hnew.
  unfold on_keyspace, zoom, exists_, xinfo_groups, xgroup_create,
    xgroup_createconsumer, modify, mbind, coroutine_bind.
  destruct c as [k initialized stop]. unfold Keyspace in *. simpl in *.
  destruct (k !! stream_name (_broker_config self)) as [groups|] eqn:Hstream;
    simpl.
  - rewrite Hstream. simpl.
    destruct (groups !! group_name (_broker_config self)) as [consumers|]
      eqn:Hgroup; simpl.
    + rewrite bool_decide_true by (apply elem_of_group_names; eauto).
      simpl. by rewrite Hstream, Hgroup.
    + rewrite bool_decide_false
        by (rewrite elem_of_group_names, Hgroup; by intros [? ?]).
      simpl. rewrite Hstream, Hgroup. simpl.
      rewrite !lookup_insert_eq. simpl.
      by rewrite !insert_insert_eq.
  - rewrite Hstream. simpl. rewrite !lookup_insert_eq. simpl.
    rewrite lookup_singleton_eq. simpl.
    rewrite !insert_insert_eq, lookup_empty. simpl.
    by rewrite insert_singleton_eq, insert_empty.
Qed.

(** X19. Entering the broker for the first time always succeeds, whatever
    streams, groups and consumers the server has: afterwards the stream
    exists, it has the group, the consumer is registered in the group,
    and the broker is marked as initialized. *)
Theorem __aenter___registers_consumer (c : Connection) :
  _is_initialized c = false →
  ∃ c', __aenter__ self c = (c', Ok tt)
        ∧ registered self (keyspace c')
        ∧ _is_initialized c' = true
        ∧ _stop c' = _stop c.
Proof.
  intros Hnew. eexists. split; [by apply __aenter___first|].
  split; [|done]. unfold registered, set_up, Keyspace in *. simpl.
  eexists _, _. split; [apply lookup_insert_eq|].
  split; [apply lookup_insert_eq|]. set_solver.
Qed.

(** X20. Entering the broker takes nothing away from the server: every
    other stream is untouched, every other group of the stream keeps its
    consumers, and the consumers the group had are still in it. *)
Theorem __aenter___keeps_what_exists (c c' : Connection) (outcome : result unit) :
  __aenter__ self c = (c', outcome) →
  (∀ key, key ≠ stream_name (_broker_config self) →
     keyspace c' !! key = keyspace c !! key)
  ∧ ∀ groups, keyspace c !! stream_name (_broker_config self) = Some groups →
      ∃ groups',
        keyspace c' !! stream_name (_broker_config self) = Some groups'
        ∧ (∀ group, group ≠ group_name (_broker_config self) →
             groups' !! group = groups !! group)
        ∧ ∀ consumers,
            groups !! group_name (_broker_config self) = Some consumers →
            ∃ consumers',
              groups' !! group_name (_broker_config self) = Some consumers'
              ∧ consumers ⊆ consumers'.
Proof.
  destruct (_is_initialized c) eqn:Hinit.
  - unfold __aenter__, mbind, coroutine_bind, get. rewrite Hinit.
    intros [= <- _]. split; [done|]. intros groups Hgroups.
    exists groups. split; [done|]. split; [done|].
    intros consumers Hconsumers. by exists consumers.
  - rewrite (__aenter___first c Hinit). intros [= <- _]. simpl.
    unfold set_up, Keyspace in *. split.
    + intros key Hkey. by rewrite lookup_insert_ne.
    + intros groups Hgroups. rewrite Hgroups. simpl. eexists.
      split; [apply lookup_insert_eq|]. split.
      * intros group Hgroup. by rewrite lookup_insert_ne.
      * intros consumers Hconsumers. rewrite Hconsumers. simpl.
        eexists. split; [apply lookup_insert_eq|]. set_solver.
Qed.

(** X21. Entering the broker can be repeated. A second [__aenter__] on
    the same broker does nothing; and a new broker object for a consumer
    that is already registered finds the server ready, raises nothing
    (no group is created twice) and leaves every key as it is. *)
Theorem __aenter___can_be_repeated (c : Connection) :
  (_is_initialized c = true → __aenter__ self c = (c, Ok tt))
  ∧ (_is_initialized c = false → registered self (keyspace c) →
     __aenter__ self c
     = ({| keyspace := keyspace c; _is_initialized := true;
           _stop := _stop c |}, Ok tt)).
Proof.
  split.
  - intros Hinit. unfold __aenter__, mbind, coroutine_bind, get.
    by rewrite Hinit.
  - intros Hinit (groups & consumers & Hgroups & Hconsumers & Hin).
    rewrite (__aenter___first c Hinit). do 2 f_equal.
    unfold set_up, Keyspace in *. rewrite Hgroups. simpl.
    rewrite Hconsumers. simpl.
    assert ({[_consumer_name self]} ∪ consumers = consumers) as ->
      by (by apply subseteq_union_1_L, singleton_subseteq_l).
    by rewrite (insert_id groups), insert_id.
Qed.

End RedisBrokerScope.

Lemma __aenter___registers_consumer_witness :
  ∃ c', RedisBroker_scope.__aenter__ sample_broker.self sample_more.new_server
        = (c', Ok tt)
        ∧ RedisBroker_scope.registered sample_broker.self
            (RedisBroker_scope.keyspace c').
Proof.
  destruct (__aenter___registers_consumer sample_broker.self
              sample_more.new_server eq_refl)
    as (c' & Henter & Hregistered & _).
  exists c'. split; [exact Henter | exact Hregistered].
Defined.

Lemma __aenter___keeps_what_exists_witness :
  ∃ groups',
    RedisBroker_scope.keyspace
      (RedisBroker_scope.__aenter__ sample_broker.self
         sample_more.server_with_other_group).1 !! "async-queue"%string
    = Some groups'
    ∧ groups' !! "reports"%string
      = ({[ "reports"%string := {[ "worker-9"%string ]} ]}
           : gmap string (gset string)) !! "reports"%string.
Proof.
  destruct (__aenter___keeps_what_exists sample_broker.self
              sample_more.server_with_other_group
              (RedisBroker_scope.__aenter__ sample_broker.self
                 sample_more.server_with_other_group).1
              (RedisBroker_scope.__aenter__ sample_broker.self
                 sample_more.server_with_other_group).2)
    as [_ Hstream].
  - by destruct (RedisBroker_scope.__aenter__ _ _).
  - destruct (Hstream {[ "reports"%string := {[ "worker-9"%string ]} ]})
      as (groups' & Hgroups' & Hothers & _).
    + apply lookup_singleton_eq.
    + exists groups'. split; [exact Hgroups'|]. by apply Hothers.
Defined.

Lemma __aenter___can_be_repeated_witness :
  RedisBroker_scope.__aenter__ sample_broker.self
    (RedisBroker_scope.__aenter__ sample_broker.self
       sample_more.new_server).1
  = ((RedisBroker_scope.__aenter__ sample_broker.self
        sample_more.new_server).1, Ok tt).
Proof.
  destruct (__aenter___can_be_repeated sample_broker.self
              (RedisBroker_scope.__aenter__ sample_broker.self
                 sample_more.new_server).1) as [Hagain _].
  apply Hagain.
  by rewrite (__aenter___first sample_broker.self sample_more.new_server
                eq_refl).
Defined.

(** ** The dispatch loops, continued *)

Section DispatchMore.

Context {object pytype : Type}.
Context {B Meta : Type} `{!Broker B Meta}.

Implicit Types (w : AsyncWorker object pytype B Meta)
               (message : BrokerTask Meta).

Lemma dispatch_under_limit message w :
  requeue_count (task message)
    < max_delivery_attempts (configuration_task (_configuration w)) →
  closed (send w) = false →
  aiotaskqueue_worker.dispatch message w
  = (set_send {| items := items (send w) ++ [message]; closed := false |} w,
     Ok tt).
Proof.
  intros Hunder Hopen.
  unfold aiotaskqueue_worker.dispatch, send_send, zoom, stream_send.
  unfold mbind, coroutine_bind, get. simpl.
  rewrite bool_decide_false by lia. simpl. by rewrite Hopen.
Qed.

Lemma for_each_dispatch_under_limit (messages : list (BrokerTask Meta)) w :
  Forall (λ message,
            requeue_count (task message)
            < max_delivery_attempts (configuration_task (_configuration w)))
         messages →
  closed (send w) = false →
  for_each messages aiotaskqueue_worker.dispatch w
  = (set_send {| items := items (send w) ++ messages; closed := false |} w,
     Ok tt).
Proof.
  revert w. induction messages as [|message messages IH]; intros w Hall Hopen.
  - simpl. rewrite app_nil_r. unfold mret, coroutine_ret.
    destruct w as [? ? ? ? ? ? ? [? ?] ?]. simpl in *. by subst.
  - apply Forall_cons in Hall as [Hunder Hall]. cbn [for_each].
    unfold mbind, coroutine_bind.
    rewrite (dispatch_under_limit _ _ Hunder Hopen), IH; [|done|done].
    simpl. by rewrite <- app_assoc.
Qed.

(** X22. In the [aiotaskqueue] worker, a batch whose tasks are all under
    the delivery limit goes to the executors whole and in the order the
    broker returned it, and the broker is asked for nothing more: no task
    of the batch is acked by the loop. The loop then ends if the stop
    event is set and goes on to the next read otherwise. *)
Theorem run_loop_forwards_batch_in_order (t : turn) (turns : list turn) w
    (b' : B) (messages : list (BrokerTask Meta)) :
  read_done t = true →
  broker_read (_broker w) = (b', Ok messages) →
  closed (send w) = false →
  Forall (λ message,
            requeue_count (task message)
            < max_delivery_attempts (configuration_task (_configuration w)))
         messages →
  ∃ w', items (send w') = items (send w) ++ messages
        ∧ _broker w' = b'
        ∧ _stop_event w' = _stop_event w || signalled t
        ∧ aiotaskqueue_worker.run_loop (t :: turns) w
          = if _stop_event w' then (w', Ok Break)
            else aiotaskqueue_worker.run_loop turns w'.
Proof.
  intros Hdone Hread Hopen Hunder.
  exists (set_send {| items := items (send w) ++ messages; closed := false |}
            (set_broker b' (if signalled t then set_stop_event true w else w))).
  split; [done|]. split; [by destruct (signalled t)|]. split.
  { destruct (signalled t); simpl; [by rewrite orb_true_r|].
    by rewrite orb_false_r. }
  rewrite (aiotaskqueue_run_loop_dispatches_read t turns w b' messages
             Hdone Hread).
  unfold mbind at 1, coroutine_bind at 1.
  rewrite for_each_dispatch_under_limit;
    [|by destruct (signalled t)|by destruct (signalled t)].
  unfold mbind, coroutine_bind, get.
  destruct (signalled t); simpl; [done|]. by destruct (_stop_event w).
Qed.

Lemma dispatch_keeps_stop_event message w w' (outcome : result unit) :
  aiotaskqueue_worker.dispatch message w = (w', outcome) →
  _stop_event w' = _stop_event w.
Proof.
  unfold aiotaskqueue_worker.dispatch, on_broker, send_send, zoom, stream_send.
  unfold mbind, coroutine_bind, get. simpl.
  destruct (bool_decide _); simpl.
  - destruct (broker_ack message (_broker w)) as [b [[]|e]]; simpl.
    + destruct (closed (send w)); by intros [= <- _].
    + by intros [= <- _].
  - destruct (closed (send w)); by intros [= <- _].
Qed.

Lemma for_each_dispatch_keeps_stop_event (messages : list (BrokerTask Meta))
    w w' (outcome : result unit) :
  for_each messages aiotaskqueue_worker.dispatch w = (w', outcome) →
  _stop_event w' = _stop_event w.
Proof.
  revert w. induction messages as [|message messages IH]; intros w.
  - by intros [= <- _].
  - cbn [for_each]. unfold mbind, coroutine_bind.
    destruct (aiotaskqueue_worker.dispatch message w) as [w1 [[]|e]] eqn:Hone.
    + intros Hrest. rewrite (IH _ Hrest).
      by apply dispatch_keeps_stop_event in Hone.
    + intros [= <- _]. by apply dispatch_keeps_stop_event in Hone.
Qed.

(** X23. Once the stop event is set, the [aiotaskqueue] loop starts no
    further read: a turn that begins with the event set, or during which
    a signal is handled, is the last one. The loop ends in that turn (it
    is not left waiting), whatever would have come after. *)
Theorem run_loop_ends_once_stopped (t : turn) (turns turns' : list turn) w :
  _stop_event w = true ∨ signalled t = true →
  aiotaskqueue_worker.run_loop (t :: turns) w
  = aiotaskqueue_worker.run_loop (t :: turns') w
  ∧ (aiotaskqueue_worker.run_loop (t :: turns) w).2 ≠ Ok Waiting.
Proof.
  intros Hstop. cbn [aiotaskqueue_worker.run_loop].
  unfold aiotaskqueue_worker.stop, on_broker, zoom, modify, get.
  unfold mbind, coroutine_bind.
  assert (_stop_event (if signalled t then set_stop_event true w else w)
          = true) as Hstopped.
  { destruct (signalled t); [done|]. by destruct Hstop. }
  destruct (signalled t); simpl in *.
  - destruct (read_done t); simpl; [|done].
    destruct (broker_read (_broker w)) as [b [messages|e]]; [|done].
    destruct (for_each messages aiotaskqueue_worker.dispatch _)
      as [w1 [[]|e]] eqn:Hdispatch; [|done].
    apply for_each_dispatch_keeps_stop_event in Hdispatch.
    simpl in Hdispatch. by rewrite Hdispatch.
  - destruct (read_done t); simpl; [|by rewrite Hstopped].
    destruct (broker_read (_broker w)) as [b [messages|e]]; [|done].
    destruct (for_each messages aiotaskqueue_worker.dispatch _)
      as [w1 [[]|e]] eqn:Hdispatch; [|done].
    apply for_each_dispatch_keeps_stop_event in Hdispatch.
    simpl in Hdispatch. rewrite Hstopped in Hdispatch. by rewrite Hdispatch.
Qed.

(** X24. The [asyncqueue] loop never hands a task to an executor. Its
    stop event is only ever set together with the closing of the stream,
    and the loop sends only after the event is set: whatever the broker
    returns and however the turns go, the items of the stream are those
    it had before the loop. *)
Theorem asyncqueue_run_loop_forwards_nothing (turns : list turn) w w'
    (outcome : result loop_exit) :
  (_stop_event w = true → closed (send w) = true) →
  asyncqueue_worker.run_loop turns w = (w', outcome) →
  items (send w') = items (send w).
Proof.
  intros Hinvariant. destruct turns as [|t turns]; [by intros [= <- _]|].
  cbn [asyncqueue_worker.run_loop].
  unfold asyncqueue_worker._stop, on_broker, zoom, try_, stream_close,
    modify, get, mbind, coroutine_bind, mret, coroutine_ret.
  destruct (read_done t); simpl.
  - destruct (broker_read (_broker w)) as [b1 first] eqn:Hfirst. simpl.
    destruct (signalled t); simpl.
    + destruct (broker_read b1) as [b2 [second|e]] eqn:Hsecond;
        [|by intros [= <- _]].
      destruct (for_each_send_closed second
                  (set_broker b2
                     (set_send {| items := items (send w); closed := true |}
                        (set_stop_event true (set_broker b1 w)))) eq_refl)
        as (r & Hsend & _).
      simpl in Hsend. rewrite Hsend.
      destruct r; simpl; by intros [= <- _].
    + destruct (_stop_event w) eqn:Hstop; simpl; [|by intros [= <- _]].
      destruct (broker_read b1) as [b2 [second|e]] eqn:Hsecond;
        [|by intros [= <- _]].
      destruct (for_each_send_closed second (set_broker b2 (set_broker b1 w))
                  (Hinvariant eq_refl)) as (r & Hsend & _).
      simpl in Hsend. rewrite Hsend.
      destruct r; simpl; [rewrite Hstop|]; by intros [= <- _].
  - destruct (signalled t); simpl; rewrite ?andb_false_r; simpl;
      by intros [= <- _].
Qed.

End DispatchMore.

(** ** The executors and the heartbeat, continued *)

Section ExecutorsMore.

Context {object pytype : Type} `{!EqDecision pytype} `{!ResultBackend object}.
Context {B Meta : Type} `{!Broker B Meta}.

Implicit Types (w : AsyncWorker object pytype B Meta)
               (broker_task : BrokerTask Meta)
               (scope : TaskRecord → coroutine (AsyncWorker object pytype B Meta) object).

(** X25. A task that runs to its end is acked, then forgotten, then
    reported. When the statements under the ack scope return a value and
    leaving the scope succeeds, the broker is as the exit of the scope
    left it and the task is out of [_active_tasks], whatever comes
    after. Without result backend the step returns. With one, [set] is
    called once, with the id of the record and the value, on what the
    backend holds, and its outcome is the outcome of the step: when
    [set] raises, the step ends with that exception although the task
    is acked and forgotten. *)
Theorem execute_acks_then_stores_result scope broker_task w w1
    (value : object) (b : B) (suppress : bool) :
  plain_scope (broker_ack_context broker_task) →
  scope (task broker_task) (activate broker_task w) = (w1, Ok value) →
  aexit (broker_ack_context broker_task) None (_broker w1) = (b, Ok suppress) →
  ∃ w2 outcome,
    execute_with scope broker_task w = (w2, outcome)
    ∧ _broker w2 = b
    ∧ _active_tasks w2 = delete (id (task broker_task)) (_active_tasks w1)
    ∧ awaited w2 = awaited w1
    ∧ (_result_backend w1 = None →
       outcome = Ok tt ∧ _result_backend w2 = None)
    ∧ (∀ stored, _result_backend w1 = Some stored →
         ∃ stored', result_set (id (task broker_task)) value stored
                    = (stored', outcome)
                    ∧ _result_backend w2 = Some stored').
Proof. apply execute_with_acked. Qed.

(** X26. When leaving the ack scope fails, after statements that
    returned, [execute_with] ends with the exception of the exit: the
    task is not removed from [_active_tasks] and nothing is written to
    the result backend, although the function has run. *)
Theorem execute_keeps_task_when_ack_fails scope broker_task w w1
    (value : object) (b : B) (e : exn) :
  plain_scope (broker_ack_context broker_task) →
  scope (task broker_task) (activate broker_task w) = (w1, Ok value) →
  aexit (broker_ack_context broker_task) None (_broker w1) = (b, Raise e) →
  execute_with scope broker_task w = (set_broker b w1, Raise e)
  ∧ _active_tasks (set_broker b w1) = _active_tasks w1
  ∧ _result_backend (set_broker b w1) = _result_backend w1.
Proof.
  intros [Henter _] Hscope Hexit. split; [|done].
  unfold execute_with, async_with, zoom_cm, zoom, mbind, coroutine_bind, modify.
  simpl. rewrite Henter. fold (activate broker_task w).
  change (_broker w) with (_broker (activate broker_task w)).
  by rewrite set_broker_id, Hscope, Hexit.
Qed.

(** X27. A heartbeat with nothing to report leaves the broker alone:
    while [_active_tasks] is empty, [_claim_pending_tasks] never calls
    [tasks_healthcheck], never raises, and ends at the first turn at
    whose end the stop event is set. *)
Theorem _claim_pending_tasks_without_tasks (turns : list turn) w w'
    (outcome : result loop_exit) :
  _active_tasks w = ∅ →
  _claim_pending_tasks turns w = (w', outcome) →
  _broker w' = _broker w
  ∧ _active_tasks w' = ∅
  ∧ outcome
    = Ok (if _stop_event w && bool_decide (turns ≠ [])
             || existsb signalled turns
          then Break else Waiting).
Proof.
  intros Hempty. revert w Hempty.
  induction turns as [|t turns IH]; intros w Hempty.
  - intros [= <- <-]. simpl. by rewrite andb_false_r.
  - cbn [_claim_pending_tasks].
    unfold mbind, coroutine_bind, get, modify.
    rewrite Hempty, map_to_list_empty. simpl.
    destruct (signalled t); simpl.
    + intros [= <- <-]. by rewrite orb_true_r.
    + destruct (_stop_event w) eqn:Hstop; simpl.
      * by intros [= <- <-].
      * intros Hrest. destruct (IH w Hempty Hrest) as (Hb & Ha & Ho).
        rewrite Hstop in Ho. by simpl in Ho.
Qed.

End ExecutorsMore.

(** ** Passing the publisher to tasks *)

Lemma getitem_app {V} (d d' : dict V) (key : string) :
  getitem (d ++ d') key
  = match getitem d key with
    | Ok v => Ok v
    | Raise _ => getitem d' key
    end.
Proof.
  induction d as [|[k v] d IH]; simpl; [done|].
  by destruct (String.eqb k key).
Qed.

Lemma getitem_setdefault {V} (d : dict V) (key key' : string) (v : V) :
  getitem (setdefault d key v) key'
  = match getitem d key' with
    | Ok v' => Ok v'
    | Raise _ => if String.eqb key key' then Ok v else Raise (KeyError key')
    end.
Proof.
  unfold setdefault. destruct (getitem d key) as [v0|e0] eqn:Hkey; simpl.
  - destruct (getitem d key') as [v'|e'] eqn:Hkey'; [done|].
    destruct (String.eqb_spec key key') as [->|_].
    + by rewrite Hkey in Hkey'.
    + destruct (decide (key' ∈ keys d)) as [Hin|Hnot].
      * apply list_elem_of_fmap in Hin as ([k x] & -> & Hin). simpl in *.
        clear Hkey. induction d as [|[k1 x1] d IH]; [by apply elem_of_nil in Hin|].
        simpl in Hkey'. destruct (String.eqb_spec k1 k) as [->|Hne]; [done|].
        apply elem_of_cons in Hin as [[= <- <-]|Hin]; [done|]. by apply IH.
      * rewrite (getitem_not_in d key' Hnot) in Hkey'. by injection Hkey' as <-.
  - rewrite getitem_app. by destruct (getitem d key').
Qed.

Section Injection.

Context {object pytype : Type} `{!EqDecision pytype} `{!ResultBackend object}.
Context {B Meta : Type} `{!Broker B Meta}.
Context (Publisher : pytype) (_publisher : object).

Implicit Types (w : AsyncWorker object pytype B Meta)
               (definition : TaskDefinition object pytype).

Lemma elem_of__dependencies_to_inject (function_signature : dict (option pytype))
    (types : list pytype) (key : string) (annotation : pytype) :
  (key, annotation)
    ∈ aiotaskqueue_worker._dependencies_to_inject function_signature types
  ↔ (key, Some annotation) ∈ function_signature ∧ annotation ∈ types.
Proof.
  unfold aiotaskqueue_worker._dependencies_to_inject.
  rewrite list_elem_of_omap. split.
  - intros ([k [a|]] & Hin & Hsome); [|done].
    destruct (bool_decide (a ∈ types)) eqn:Ha; [|done].
    injection Hsome as -> ->. split; [done|]. by apply bool_decide_eq_true in Ha.
  - intros [Hin Htypes]. exists (key, Some annotation). split; [done|].
    by rewrite bool_decide_true.
Qed.

(** X28. [_dependencies_to_inject] returns exactly the parameters of the
    function that are annotated with one of the given types, each with
    its annotation, in the order of the signature; parameters without
    annotation are never among them. *)
Theorem _dependencies_to_inject_selects_annotated
    (function_signature : dict (option pytype)) (types : list pytype) :
  (∀ key annotation,
     (key, annotation)
       ∈ aiotaskqueue_worker._dependencies_to_inject function_signature types
     ↔ (key, Some annotation) ∈ function_signature ∧ annotation ∈ types)
  ∧ keys (aiotaskqueue_worker._dependencies_to_inject function_signature types)
    `sublist_of` keys function_signature.
Proof.
  split; [apply elem_of__dependencies_to_inject|].
  unfold aiotaskqueue_worker._dependencies_to_inject, keys.
  induction function_signature as [|[key [annotation|]] l IH]; simpl.
  - constructor.
  - destruct (bool_decide (annotation ∈ types)); simpl;
      [by apply sublist_skip | by apply sublist_cons].
  - by apply sublist_cons.
Qed.

Lemma inject_publisher_Ok (kwargs : dict object) (deps : dict pytype) :
  Forall (λ dep, dep.2 = Publisher) deps →
  foldl (λ acc '(key, value),
           kwargs ← acc;
           obj ← (if decide (value = Publisher) then Ok _publisher
                  else Raise ValueError);
           mret (setdefault kwargs key obj))
        (Ok kwargs) deps
  = Ok (foldl (λ kwargs '(key, _), setdefault kwargs key _publisher)
          kwargs deps).
Proof.
  intros Hall. revert kwargs.
  induction Hall as [|[key value] deps Hdep _ IH]; intros kwargs; [done|].
  simpl in *. subst value. rewrite decide_True by done. simpl. apply IH.
Qed.

Lemma getitem_inject_present (kwargs : dict object) (deps : dict pytype)
    (key : string) (value : object) :
  getitem kwargs key = Ok value →
  getitem (foldl (λ kwargs '(key, _), setdefault kwargs key _publisher)
             kwargs deps) key = Ok value.
Proof.
  revert kwargs. induction deps as [|[k a] deps IH]; intros kwargs Hkey; [done|].
  simpl. apply IH. by rewrite getitem_setdefault, Hkey.
Qed.

Lemma getitem_inject_absent (kwargs : dict object) (deps : dict pytype)
    (key : string) :
  key ∈ keys deps → key ∉ keys kwargs →
  getitem (foldl (λ kwargs '(key, _), setdefault kwargs key _publisher)
             kwargs deps) key = Ok _publisher.
Proof.
  revert kwargs. induction deps as [|[k a] deps IH]; intros kwargs Hin Hnot.
  - by apply elem_of_nil in Hin.
  - simpl. unfold keys in Hin. rewrite fmap_cons in Hin. simpl in Hin.
    destruct (String.eqb_spec k key) as [->|Hne].
    + apply getitem_inject_present.
      rewrite getitem_setdefault, (getitem_not_in _ _ Hnot).
      by rewrite String.eqb_refl.
    + apply elem_of_cons in Hin as [->|Hin]; [done|].
      apply IH; [done|]. unfold setdefault.
      destruct (is_Ok (getitem kwargs k)); [done|].
      unfold keys. rewrite fmap_app. simpl.
      intros Hin'. apply elem_of_app in Hin' as [Hin'|Hin']; [done|].
      apply list_elem_of_singleton in Hin'. by subst.
Qed.

(** X29. [_call_task_fn] awaits the function of the task with the decoded
    positional values and with the decoded keyword values, to which it
    adds the worker's publisher under each parameter annotated with
    [Publisher] that the record has no value for. A keyword value of the
    record is never replaced, and the branch raising [ValueError] is
    never taken. *)
Theorem _call_task_fn_adds_publisher (task_ : TaskRecord) w definition
    (args_ : list object) (kwargs_ : dict object) :
  getitem (tasks (_tasks w)) (task_name task_) = Ok definition →
  deserialize_task definition task_
    (serialization_backends (_configuration w)) = Ok (args_, kwargs_) →
  aiotaskqueue_worker._call_task_fn Publisher _publisher task_ w
  = await_func task_ definition args_
      (with_publisher Publisher _publisher definition kwargs_) w
  ∧ (∀ key value,
       getitem kwargs_ key = Ok value →
       getitem (with_publisher Publisher _publisher definition kwargs_) key
       = Ok value)
  ∧ (∀ key,
       (key, Some Publisher) ∈ signature definition →
       key ∉ keys kwargs_ →
       getitem (with_publisher Publisher _publisher definition kwargs_) key
       = Ok _publisher).
Proof.
  intros Htask Hdecoded. split; [|split].
  - unfold aiotaskqueue_worker._call_task_fn, with_publisher.
    unfold mbind at 1 2 3 4, coroutine_bind at 1 2 3 4, get, lift_result.
    rewrite Htask, Hdecoded. cbn beta iota.
    rewrite inject_publisher_Ok; [done|].
    apply Forall_forall. intros [key annotation] Hin.
    apply elem_of__dependencies_to_inject in Hin as [_ Hin].
    by apply list_elem_of_singleton in Hin.
  - intros key value. apply getitem_inject_present.
  - intros key Hannotated Hnot. apply getitem_inject_absent; [|done].
    unfold keys. apply list_elem_of_fmap. exists (key, Publisher).
    split; [done|]. apply elem_of__dependencies_to_inject.
    split; [done|]. apply list_elem_of_here.
Qed.

End Injection.

(** *** The workers on the sample data, continued *)

Lemma run_loop_forwards_batch_in_order_witness :
  ∃ w', items (send w')
        = [mkBrokerTask (sample_broker.record "noop" 0)
             {| RedisBroker.meta_id := 1%N |}]
        ∧ aiotaskqueue_worker.run_loop [mkTurn true true]
            (sample_worker.worker sample_broker.two_unread 3 1000 5000)
          = (w', Ok Break).
Proof.
  destruct (run_loop_forwards_batch_in_order (Broker0 := sample_broker.broker)
              (mkTurn true true) []
              (sample_worker.worker sample_broker.two_unread 3 1000 5000)
              (RedisBroker.read sample_broker.json_decode sample_broker.self
                 sample_broker.two_unread).1
              [mkBrokerTask (sample_broker.record "noop" 0)
                 {| RedisBroker.meta_id := 1%N |}])
    as (w' & Hitems & _ & Hstop & Hrun).
  - reflexivity.
  - reflexivity.
  - reflexivity.
  - repeat constructor.
  - exists w'. split; [exact Hitems|]. rewrite Hrun. simpl in Hstop.
    by rewrite Hstop.
Defined.

Lemma run_loop_ends_once_stopped_witness :
  aiotaskqueue_worker.run_loop [mkTurn true true; mkTurn true false]
    (sample_worker.worker sample_broker.two_unread 3 1000 5000)
  = aiotaskqueue_worker.run_loop [mkTurn true true]
      (sample_worker.worker sample_broker.two_unread 3 1000 5000).
Proof.
  apply (run_loop_ends_once_stopped (Broker0 := sample_broker.broker)
           (mkTurn true true) [mkTurn true false] []).
  by right.
Defined.

Lemma asyncqueue_run_loop_forwards_nothing_witness :
  items
    (send (asyncqueue_worker.run_loop [mkTurn true true]
             (sample_worker.worker sample_broker.two_unread 3 1000 5000)).1)
  = [].
Proof.
  apply (asyncqueue_run_loop_forwards_nothing (Broker0 := sample_broker.broker)
           [mkTurn true true]
           (sample_worker.worker sample_broker.two_unread 3 1000 5000) _
           (asyncqueue_worker.run_loop [mkTurn true true]
              (sample_worker.worker sample_broker.two_unread 3 1000 5000)).2).
  - discriminate.
  - by destruct (asyncqueue_worker.run_loop _ _).
Defined.

Lemma execute_acks_then_stores_result_witness :
  (∃ w2, asyncqueue_worker.execute sample_broker.noop_task
           (sample_more.worker_with_results sample_broker.two_delivered)
         = (w2, Ok tt)
         ∧ redis.pending (_broker w2) !! 2%N = None
         ∧ _result_backend w2 = Some [("noop"%string, sample.str "")])
  ∧ ∃ w2, asyncqueue_worker.execute
            (ResultBackend0 := sample_more.unreachable_store)
            sample_broker.noop_task
            (sample_more.worker_with_results sample_broker.two_delivered)
          = (w2, Raise (Exception "ConnectionError"))
          ∧ redis.pending (_broker w2) !! 2%N = None
          ∧ _active_tasks w2 !! "noop"%string = None.
Proof.
  split.
  - destruct (execute_acks_then_stores_result
                (Broker0 := sample_broker.broker)
                asyncqueue_worker.ack_scope sample_broker.noop_task
                (sample_more.worker_with_results sample_broker.two_delivered)
                (asyncqueue_worker.ack_scope (task sample_broker.noop_task)
                   (activate sample_broker.noop_task
                      (sample_more.worker_with_results
                         sample_broker.two_delivered))).1
                (sample.str "")
                (redis.set_pending (delete 2%N) sample_broker.two_delivered)
                false)
      as (w2 & outcome & Hrun & Hbroker & _ & _ & _ & Hresult).
    + apply RedisBroker_ack_context_plain.
    + reflexivity.
    + reflexivity.
    + destruct (Hresult [] eq_refl) as (stored' & [= <- <-] & Hstored).
      exists w2. split; [exact Hrun|]. rewrite Hbroker, Hstored.
      split; reflexivity.
  - destruct (execute_acks_then_stores_result
                (ResultBackend0 := sample_more.unreachable_store)
                (Broker0 := sample_broker.broker)
                asyncqueue_worker.ack_scope sample_broker.noop_task
                (sample_more.worker_with_results sample_broker.two_delivered)
                (asyncqueue_worker.ack_scope (task sample_broker.noop_task)
                   (activate sample_broker.noop_task
                      (sample_more.worker_with_results
                         sample_broker.two_delivered))).1
                (sample.str "")
                (redis.set_pending (delete 2%N) sample_broker.two_delivered)
                false)
      as (w2 & outcome & Hrun & Hbroker & Hgone & _ & _ & Hresult).
    + apply RedisBroker_ack_context_plain.
    + reflexivity.
    + reflexivity.
    + destruct (Hresult [] eq_refl) as (stored' & [= <- <-] & Hstored).
      exists w2. split; [exact Hrun|]. rewrite Hbroker, Hgone.
      split; reflexivity.
Defined.

Lemma execute_keeps_task_when_ack_fails_witness :
  asyncqueue_worker.execute (Broker0 := sample_more.unreachable)
    (mkBrokerTask (sample_broker.record "noop" 0) tt)
    (sample_more.worker_with_results tt)
  = (set_awaited ["noop"%string]
       (activate (mkBrokerTask (sample_broker.record "noop" 0) tt)
          (sample_more.worker_with_results tt)),
     Raise (Exception "ConnectionError")).
Proof.
  destruct (execute_keeps_task_when_ack_fails
              (Broker0 := sample_more.unreachable)
              asyncqueue_worker.ack_scope
              (mkBrokerTask (sample_broker.record "noop" 0) tt)
              (sample_more.worker_with_results tt)
              (set_awaited ["noop"%string]
                 (activate (mkBrokerTask (sample_broker.record "noop" 0) tt)
                    (sample_more.worker_with_results tt)))
              (sample.str "") tt (Exception "ConnectionError"))
    as [Hrun _].
  - split; reflexivity.
  - reflexivity.
  - reflexivity.
  - exact Hrun.
Defined.

Lemma _claim_pending_tasks_without_tasks_witness :
  _broker
    (_claim_pending_tasks [mkTurn false false; mkTurn false true]
       (sample_worker.worker sample_broker.two_delivered 3 1000 5000)).1
  = sample_broker.two_delivered.
Proof.
  apply (_claim_pending_tasks_without_tasks (Broker0 := sample_broker.broker)
           [mkTurn false false; mkTurn false true]
           (sample_worker.worker sample_broker.two_delivered 3 1000 5000) _
           (_claim_pending_tasks [mkTurn false false; mkTurn false true]
              (sample_worker.worker sample_broker.two_delivered
                 3 1000 5000)).2).
  - reflexivity.
  - by destruct (_claim_pending_tasks _ _).
Defined.

Lemma _call_task_fn_adds_publisher_witness :
  aiotaskqueue_worker._call_task_fn
    sample.PublisherClass sample.the_publisher
    sample_more.notify_hi sample_more.notify_worker
  = await_func sample_more.notify_hi sample_more.notify []
      [("text"%string, sample.str "hi");
       ("publisher"%string, sample.the_publisher)]
      sample_more.notify_worker.
Proof.
  destruct (_call_task_fn_adds_publisher
              sample.PublisherClass sample.the_publisher
              sample_more.notify_hi sample_more.notify_worker
              sample_more.notify [] [("text"%string, sample.str "hi")])
    as [Hcall _].
  - reflexivity.
  - reflexivity.
  - exact Hcall.
Defined.
